(** * Kiro Gateway: request orchestration, truncation recovery and stores

    A shallow embedding of the gateway's orchestration layer
    ([kiro/routes_openai.py]), of its three persistent stores
    ([kiro/store_responses.py], [kiro/store_history.py],
    [kiro/store_apikeys.py]) with the bearer check and the admin routes
    that use them ([kiro/routes_admin.py]), and of the in-memory task store
    ([kiro/store_tasks.py], [kiro/routes_tasks.py]), followed by the
    properties proved about them.

    Conventions.  Python dictionaries keyed by strings are [gmap string _];
    optional fields are [option]; Python exceptions are values of [py_exn]
    threaded through a small state-and-exception monad; the collaborators
    whose code lives outside these files (truncation registry, payload
    builder, retrying HTTP executor, error enhancer, collector, clock and
    uuid source) are fields of type classes, so every theorem holds for any
    behaviour of theirs. *)

From stdpp Require Import base numbers list strings gmap fin_maps.
From Stdlib Require Import Ascii ZArith Lia Sorted.

Local Open Scope string_scope.
Local Open Scope list_scope.

(* ===================================================================== *)
(** * Part I: the program                                                 *)
(* ===================================================================== *)

(** ** Python values shared by the modules *)

Module Py.

(** A JSON value, as [json.loads] builds it ([Any] in the Pydantic models). *)
#[local] Unset Elimination Schemes.
Inductive json : Type :=
| JNull
| JBool (b : bool)
| JNum (n : Z)
| JStr (s : string)
| JArr (l : list json)
| JObj (l : list (string * json)).
#[local] Set Elimination Schemes.

(** The exceptions the handlers distinguish.  [OtherException] stands for
    any other subclass of [Exception]; [GeneratorExit] derives from
    [BaseException] only, so an [except Exception] clause does not catch
    it. *)
Inductive py_exn : Type :=
| HTTPException (status_code : Z) (detail : string)
| ValueError (msg : string)
| OtherException (msg : string)
| GeneratorExit.

Definition is_Exception (e : py_exn) : bool :=
  match e with
  | GeneratorExit => false
  | _ => true
  end.

(** State-and-exception monad: a computation over a mutable world [S] that
    either returns or raises. *)
Definition M (S A : Type) : Type := S -> (py_exn + A) * S.

Definition ret {S A} (a : A) : M S A := fun s => (inr a, s).
Definition raise {S A} (e : py_exn) : M S A := fun s => (inl e, s).
Definition bind {S A B} (m : M S A) (k : A -> M S B) : M S B :=
  fun s => match m s with
           | (inr a, s') => k a s'
           | (inl e, s') => (inl e, s')
           end.
Definition get {S} : M S S := fun s => (inr s, s).
Definition modify {S} (f : S -> S) : M S unit := fun s => (inr tt, f s).
(** [try: m] with the outcome handed to the [except] clauses. *)
Definition attempt {S A} (m : M S A) : M S (py_exn + A) :=
  fun s => let '(r, s') := m s in (inr r, s').

(** Truthiness of an optional string ([if msg.tool_call_id:]). *)
Definition truthy_str (o : option string) : bool :=
  match o with
  | Some (String _ _) => true
  | _ => false
  end.

(** Truthiness of an optional object ([if streaming_error:]). *)
Definition is_set {A} (o : option A) : bool :=
  match o with
  | Some _ => true
  | None => false
  end.

(** [s[:n]] on a string. *)
Definition take_str (n : nat) (s : string) : string := String.substring 0 n s.

(** [s[n:]] on a string. *)
Definition drop_str (n : nat) (s : string) : string :=
  String.substring n (String.length s - n) s.

(** A bound of a slice over a sequence of length [len]: a negative index
    counts from the end; the result is clamped to [0 .. len]. *)
Definition slice_index (len i : Z) : Z :=
  if (i <? 0)%Z then Z.max (i + len) 0 else Z.min i len.

(** [items[a:b]] on a list, for any integers [a] and [b]. *)
Definition py_slice {A} (items : list A) (a b : Z) : list A :=
  let len := Z.of_nat (length items) in
  let start := slice_index len a in
  let stop := slice_index len b in
  firstn (Z.to_nat (stop - start)) (skipn (Z.to_nat start) items).

End Py.

Declare Scope py_scope.
Notation "x <- c1 ;; c2" := (Py.bind c1 (fun x => c2))
  (at level 100, c1 at next level, right associativity) : py_scope.
Notation "c1 ;;; c2" := (Py.bind c1 (fun _ => c2))
  (at level 100, right associativity) : py_scope.

(** ** [kiro/models_openai.py] *)

Module Models.
Import Py.

(** [content: Optional[Union[str, List[Any], Any]]]. *)
Inductive Content : Type :=
| CNone
| CText (s : string)
| COther (j : json).

Record ChatMessage : Type := {
  role : string;
  content : Content;
  name : option string;
  tool_calls : option (list json);
  tool_call_id : option string
}.

(** [msg.model_copy(update={"content": c})]. *)
Definition model_copy_content (msg : ChatMessage) (c : Content) : ChatMessage :=
  {| role := role msg; content := c; name := name msg;
     tool_calls := tool_calls msg; tool_call_id := tool_call_id msg |}.

(** [ChatMessage(role=r, content=c)]. *)
Definition mk_message (r : string) (c : Content) : ChatMessage :=
  {| role := r; content := c; name := None; tool_calls := None;
     tool_call_id := None |}.

Record ChatCompletionRequest : Type := {
  cc_model : string;
  cc_messages : list ChatMessage;
  cc_stream : bool;
  cc_tools : option (list json);
  cc_params : json
}.

Definition set_messages (r : ChatCompletionRequest) (ms : list ChatMessage)
  : ChatCompletionRequest :=
  {| cc_model := cc_model r; cc_messages := ms; cc_stream := cc_stream r;
     cc_tools := cc_tools r; cc_params := cc_params r |}.

(** [ResponseInputMessage]: [content: Union[str, List[Any]]]. *)
Record ResponseInputMessage : Type := {
  in_type : string;
  in_role : string;
  in_content : Content
}.

Record ResponsesRequest : Type := {
  rr_model : string;
  rr_input : list ResponseInputMessage;
  previous_response_id : option string;
  rr_stream : bool;
  rr_store : bool;
  rr_metadata : option json;
  rr_tools : option (list json);
  rr_params : json
}.

End Models.

(** ** Truncation recovery ([chat_completions], lines 197-247) *)

Module Truncation.
Import Py Models.

Record ToolTruncationInfo : Type := {
  tool_name : string;
  truncation_info : json
}.

Record ContentTruncationInfo : Type := {
  message_hash : string
}.

(** The truncation registry and the notice generators
    ([kiro.truncation_state], [kiro.truncation_recovery]) together with
    Python's [str()] on a non-text content value.  The registry is read
    through functions: a lookup returns the same record every time, which
    is the unchanged registry the properties speak of. *)
Class Registry : Type := {
  get_tool_truncation : string -> option ToolTruncationInfo;
  get_content_truncation : string -> option ContentTruncationInfo;
  (** the ['content'] entry of [generate_truncation_tool_result(...)] *)
  generate_truncation_tool_result : string -> string -> json -> string;
  generate_truncation_user_message : string;
  py_str_json : json -> string
}.

(** What an f-string prints for [{msg.content}]. *)
Definition py_str `{Registry} (c : Content) : string :=
  match c with
  | CNone => "None"
  | CText s => s
  | COther j => py_str_json j
  end.

Definition newline : string := String (ascii_of_nat 10) EmptyString.

(** The literal ["\n\n---\n\nOriginal tool result:\n"]. *)
Definition separator : string :=
  newline +:+ newline +:+ "---" +:+ newline +:+ newline +:+
  "Original tool result:" +:+ newline.

Record loop_state : Type := {
  modified_messages : list ChatMessage;
  tool_results_modified : nat;
  content_notices_added : nat
}.

Definition loop_init : loop_state :=
  {| modified_messages := []; tool_results_modified := 0;
     content_notices_added := 0 |}.

(** [modified_messages.append(msg)]. *)
Definition append_msg (st : loop_state) (msg : ChatMessage) : loop_state :=
  {| modified_messages := modified_messages st ++ [msg];
     tool_results_modified := tool_results_modified st;
     content_notices_added := content_notices_added st |}.

(** The second [if] of the loop body and the final append. *)
Definition assistant_branch `{Registry} (st : loop_state) (msg : ChatMessage)
  : loop_state :=
  match content msg with
  | CText (String a s) =>
      if String.eqb (role msg) "assistant" then
        match get_content_truncation (String a s) with
        | Some _ =>
            {| modified_messages :=
                 (modified_messages st ++ [msg]) ++
                 [mk_message "user" (CText generate_truncation_user_message)];
               tool_results_modified := tool_results_modified st;
               content_notices_added := S (content_notices_added st) |}
        | None => append_msg st msg
        end
      else append_msg st msg
  | _ => append_msg st msg
  end.

(** One iteration of [for msg in request_data.messages]. *)
Definition loop_body `{Registry} (st : loop_state) (msg : ChatMessage)
  : loop_state :=
  if String.eqb (role msg) "tool" && truthy_str (tool_call_id msg) then
    match tool_call_id msg with
    | Some id =>
        match get_tool_truncation id with
        | Some info =>
            let synthetic :=
              generate_truncation_tool_result (tool_name info) id
                                              (truncation_info info) in
            let modified_content :=
              synthetic +:+ separator +:+ py_str (content msg) in
            {| modified_messages :=
                 modified_messages st ++
                 [model_copy_content msg (CText modified_content)];
               tool_results_modified := S (tool_results_modified st);
               content_notices_added := content_notices_added st |}
        | None => assistant_branch st msg
        end
    | None => assistant_branch st msg
    end
  else assistant_branch st msg.

Definition recovery_loop `{Registry} (msgs : list ChatMessage) : loop_state :=
  fold_left loop_body msgs loop_init.

(** [request_data.messages] after the loop: replaced only when something
    was modified. *)
Definition repair `{Registry} (msgs : list ChatMessage) : list ChatMessage :=
  let st := recovery_loop msgs in
  if (0 <? tool_results_modified st)%nat || (0 <? content_notices_added st)%nat
  then modified_messages st
  else msgs.

(** *** Specification side

    The three cases of the repair, as the specification words them: what one
    message contributes to the output. *)

Definition tool_match `{Registry} (msg : ChatMessage) (id : string)
    (info : ToolTruncationInfo) : Prop :=
  role msg = "tool" /\ tool_call_id msg = Some id /\ id <> "" /\
  get_tool_truncation id = Some info.

Definition assistant_match `{Registry} (msg : ChatMessage) (s : string) : Prop :=
  role msg = "assistant" /\ content msg = CText s /\ s <> "" /\
  is_Some (get_content_truncation s).

Definition rewritten `{Registry} (msg : ChatMessage) (id : string)
    (info : ToolTruncationInfo) : ChatMessage :=
  model_copy_content msg
    (CText (generate_truncation_tool_result (tool_name info) id
              (truncation_info info)
            +:+ separator +:+ py_str (content msg))).

Definition synthetic_user `{Registry} : ChatMessage :=
  mk_message "user" (CText generate_truncation_user_message).

Inductive emission `{Registry} (msg : ChatMessage) : list ChatMessage -> Prop :=
| emit_rewritten id info :
    tool_match msg id info -> emission msg [rewritten msg id info]
| emit_with_notice s :
    (forall id info, ~ tool_match msg id info) ->
    assistant_match msg s -> emission msg [msg; synthetic_user]
| emit_unchanged :
    (forall id info, ~ tool_match msg id info) ->
    (forall s, ~ assistant_match msg s) -> emission msg [msg].

(** *** Derived notions used by the proofs *)

(** What one iteration appends, and how it moves the counters. *)
Definition emitted `{Registry} (msg : ChatMessage) : list ChatMessage :=
  modified_messages (loop_body loop_init msg).

Definition touched `{Registry} (msg : ChatMessage) : nat :=
  tool_results_modified (loop_body loop_init msg) +
  content_notices_added (loop_body loop_init msg).

(** The record found by the first [if], when it fires. *)
Definition tool_hit `{Registry} (msg : ChatMessage)
  : option (string * ToolTruncationInfo) :=
  if String.eqb (role msg) "tool" && truthy_str (tool_call_id msg) then
    match tool_call_id msg with
    | Some id => option_map (pair id) (get_tool_truncation id)
    | None => None
    end
  else None.

(** The text matched by the second [if], when it fires. *)
Definition assistant_hit `{Registry} (msg : ChatMessage) : option string :=
  match content msg with
  | CText (String a s) =>
      if String.eqb (role msg) "assistant" then
        match get_content_truncation (String a s) with
        | Some _ => Some (String a s)
        | None => None
        end
      else None
  | _ => None
  end.

Definition hit `{Registry} (msg : ChatMessage) : bool :=
  match tool_hit msg, assistant_hit msg with
  | None, None => false
  | _, _ => true
  end.

(** A small registry used to run the repair on concrete conversations: it
    knows one truncated tool call and one truncated assistant text. *)
Definition sample_registry : Registry := {|
  get_tool_truncation := fun id =>
    if String.eqb id "call_1"
    then Some {| tool_name := "write_file"; truncation_info := JNull |}
    else None;
  get_content_truncation := fun s =>
    if String.eqb s "partial answer" then Some {| message_hash := "h1" |}
    else None;
  generate_truncation_tool_result := fun tool id _ =>
    "[API Limitation] " +:+ tool +:+ " " +:+ id;
  generate_truncation_user_message := "[System Notice] truncated";
  py_str_json := fun _ => "<json>"
|}.

Definition sample_tool_result : ChatMessage :=
  {| role := "tool"; content := CText "ok"; name := None; tool_calls := None;
     tool_call_id := Some "call_1" |}.

Definition sample_tool_info : ToolTruncationInfo :=
  {| tool_name := "write_file"; truncation_info := JNull |}.

(** Size of a sequence: one per message plus the length of what each
    content prints as. *)
Definition weight `{Registry} (msgs : list ChatMessage) : nat :=
  list_sum (map (fun m => S (String.length (py_str (content m)))) msgs).

End Truncation.

(** ** [kiro/store_history.py] *)

Module History.

Record entry : Type := {
  h_id : string;
  (** the instant whose ISO rendering the entry holds, in microseconds *)
  h_time : Z;
  h_endpoint : string;
  h_method : string;
  h_model : string;
  h_stream : bool;
  h_status_code : Z;
  h_latency_ms : Z;
  h_input_tokens : option Z;
  h_output_tokens : option Z;
  h_error : option string
}.

(** [collections.deque(maxlen=n)], leftmost element first.  An append adds
    the item and then, when the deque has grown beyond [maxlen], drops one
    item from the opposite end. *)
Definition deque_append {A} (maxlen : nat) (d : list A) (x : A) : list A :=
  let d' := d ++ [x] in
  if (maxlen <? length d')%nat then tail d' else d'.

Definition deque_appendleft {A} (maxlen : nat) (d : list A) (x : A) : list A :=
  let d' := x :: d in
  if (maxlen <? length d')%nat then removelast d' else d'.

Record RequestHistory : Type := {
  _max_size : nat;
  _records : list entry;
  (** the ["records"] list of the JSON file, when it exists and parses *)
  _history_file : option (list entry)
}.

(** [_load]. *)
Definition _load (h : RequestHistory) : RequestHistory :=
  match _history_file h with
  | None => h
  | Some data =>
      {| _max_size := _max_size h;
         _records := fold_left (deque_append (_max_size h)) data (_records h);
         _history_file := _history_file h |}
  end.

(** [__init__(max_size, storage_path)]. *)
Definition init (max_size : nat) (file : option (list entry)) : RequestHistory :=
  _load {| _max_size := max_size; _records := []; _history_file := file |}.

(** The default of [max_size]. *)
Definition default_max_size : nat := 200.

(** [_save]. *)
Definition _save (h : RequestHistory) : RequestHistory :=
  {| _max_size := _max_size h; _records := _records h;
     _history_file := Some (_records h) |}.

(** The arguments of one [record] call, with the uuid and the clock
    reading it draws. *)
Record call : Type := {
  c_uuid : string;
  c_now : Z;
  c_endpoint : string;
  c_method : string;
  c_model : string;
  c_stream : bool;
  c_status_code : Z;
  c_latency_ms : Z;
  c_input_tokens : option Z;
  c_output_tokens : option Z;
  c_error : option string
}.

Definition entry_of (c : call) : entry :=
  {| h_id := c_uuid c; h_time := c_now c; h_endpoint := c_endpoint c;
     h_method := c_method c; h_model := c_model c; h_stream := c_stream c;
     h_status_code := c_status_code c; h_latency_ms := c_latency_ms c;
     h_input_tokens := c_input_tokens c; h_output_tokens := c_output_tokens c;
     h_error := c_error c |}.

(** [record(...)]: returns the entry and the updated store. *)
Definition record (h : RequestHistory) (c : call) : entry * RequestHistory :=
  let e := entry_of c in
  (e, _save {| _max_size := _max_size h;
               _records := deque_appendleft (_max_size h) (_records h) e;
               _history_file := _history_file h |}).

Definition record_all (h : RequestHistory) (cs : list call) : RequestHistory :=
  fold_left (fun h c => snd (record h c)) cs h.

(** A sample call, told apart by its status code. *)
Definition sample_call (status : Z) : call :=
  {| c_uuid := "u"; c_now := 0; c_endpoint := "/v1/chat/completions";
     c_method := "POST"; c_model := "m"; c_stream := false;
     c_status_code := status; c_latency_ms := 5; c_input_tokens := None;
     c_output_tokens := None; c_error := None |}.

(** [clear]. *)
Definition clear (h : RequestHistory) : nat * RequestHistory :=
  (length (_records h),
   _save {| _max_size := _max_size h; _records := [];
            _history_file := _history_file h |}).

(** [list(limit, offset)]: the window [items[offset : offset + limit]] and
    the size of the buffer.  The admin route hands over both integers as
    the query carries them, without a lower bound. *)
Definition list_ (h : RequestHistory) (limit offset : Z) : list entry * nat :=
  let total := length (_records h) in
  let items := _records h in
  (Py.py_slice items offset (offset + limit), total).

End History.

(** ** [kiro/store_apikeys.py] *)

Module ApiKeys.

Record ApiKeyEntry : Type := {
  ak_id : string;
  ak_name : string;
  ak_key : string;
  ak_created_at : string;
  ak_enabled : bool
}.

(** The loop of [verify_key] over [self._keys.values()]. *)
Fixpoint verify_entries (entries : list ApiKeyEntry) (bearer_token : string)
  : bool :=
  match entries with
  | [] => false
  | e :: rest =>
      if ak_enabled e && String.eqb (ak_key e) bearer_token then true
      else verify_entries rest bearer_token
  end.

(** A stored key that has been disabled. *)
Definition sample_disabled_key : ApiKeyEntry :=
  {| ak_id := "k1"; ak_name := "old laptop"; ak_key := "sk-1";
     ak_created_at := "2025-01-01T00:00:00+00:00"; ak_enabled := false |}.

Section Manager.
(** [PROXY_API_KEY] of [kiro.config]. *)
Variable PROXY_API_KEY : string.

(** [verify_key], on the manager's [_keys] dictionary. *)
Definition verify_key (_keys : gmap string ApiKeyEntry) (bearer_token : string)
  : bool :=
  if String.eqb bearer_token PROXY_API_KEY then true
  else verify_entries (map snd (map_to_list _keys)) bearer_token.

(** [update_key(key_id, name, enabled)], on the dictionary: the summary of
    the updated entry, if there is one, and the new dictionary. *)
Definition update_key (key_id : string) (name : option string)
    (enabled : option bool) (_keys : gmap string ApiKeyEntry)
  : option ApiKeyEntry * gmap string ApiKeyEntry :=
  match _keys !! key_id with
  | None => (None, _keys)
  | Some entry =>
      let entry' :=
        {| ak_id := ak_id entry; ak_name := default (ak_name entry) name;
           ak_key := ak_key entry; ak_created_at := ak_created_at entry;
           ak_enabled := default (ak_enabled entry) enabled |} in
      (Some entry', <[key_id := entry']> _keys)
  end.

End Manager.

End ApiKeys.

(** ** [kiro/store_apikeys.py]: the manager with its key file *)

Module ApiKeyStore.
Import Py ApiKeys.

(** An element of the ["keys"] list of the JSON file, with the keys
    [from_dict] reads; any of them may be missing. *)
Record key_dict : Type := {
  d_id : option string;
  d_name : option string;
  d_key : option string;
  d_created_at : option string;
  d_enabled : option bool
}.

(** [ApiKeyEntry.to_dict]. *)
Definition to_dict (e : ApiKeyEntry) : key_dict :=
  {| d_id := Some (ak_id e); d_name := Some (ak_name e);
     d_key := Some (ak_key e); d_created_at := Some (ak_created_at e);
     d_enabled := Some (ak_enabled e) |}.

(** [ApiKeyEntry.from_dict]; [None] is the [KeyError] of a missing key. *)
Definition from_dict (d : key_dict) : option ApiKeyEntry :=
  match d_id d, d_name d, d_key d, d_created_at d with
  | Some i, Some n, Some k, Some c =>
      Some {| ak_id := i; ak_name := n; ak_key := k; ak_created_at := c;
              ak_enabled := default true (d_enabled d) |}
  | _, _, _, _ => None
  end.

(** The key file: absent, present but not a JSON object, or present with
    its ["keys"] list (empty when the object has no such key). *)
Inductive key_file : Type :=
| Missing
| Unreadable
| Keys (entries : list key_dict).

Record ApiKeyManager : Type := {
  _keys : gmap string ApiKeyEntry;
  _storage : key_file
}.

(** [_save]. *)
Definition _save (m : ApiKeyManager) : ApiKeyManager :=
  {| _keys := _keys m;
     _storage := Keys (map to_dict (map snd (map_to_list (_keys m)))) |}.

(** The loop of [_load]: it stops at the first entry [from_dict] refuses,
    keeping what it has inserted so far. *)
Fixpoint load_entries (entries : list key_dict)
    (keys : gmap string ApiKeyEntry) : bool * gmap string ApiKeyEntry :=
  match entries with
  | [] => (true, keys)
  | d :: rest =>
      match from_dict d with
      | Some key_entry => load_entries rest (<[ak_id key_entry := key_entry]> keys)
      | None => (false, keys)
      end
  end.

(** The summary the manager hands out in place of an entry. *)
Record key_summary : Type := {
  s_id : string;
  s_name : string;
  s_key_preview : string;
  s_created_at : string;
  s_enabled : bool
}.

(** [key[:8] + "..." if len(key) > 8 else key]. *)
Definition key_preview (key : string) : string :=
  if (8 <? String.length key)%nat then take_str 8 key +:+ "..." else key.

Definition summary_of (entry : ApiKeyEntry) : key_summary :=
  {| s_id := ak_id entry; s_name := ak_name entry;
     s_key_preview := key_preview (ak_key entry);
     s_created_at := ak_created_at entry; s_enabled := ak_enabled entry |}.

(** What [create_key] returns: the one place the full key is shown. *)
Record created_key : Type := {
  ck_id : string;
  ck_name : string;
  ck_key : string;
  ck_created_at : string
}.

Section Manager.
(** [PROXY_API_KEY] of [kiro.config]. *)
Variable PROXY_API_KEY : string.

(** The seeding branch of [_load], with the id and the clock reading it
    draws. *)
Definition seed (token_hex4 : string) (now : string) (m : ApiKeyManager)
  : ApiKeyManager :=
  match PROXY_API_KEY with
  | String _ _ =>
      let entry := {| ak_id := token_hex4; ak_name := "Default (from env)";
                      ak_key := PROXY_API_KEY; ak_created_at := now;
                      ak_enabled := true |} in
      _save {| _keys := <[ak_id entry := entry]> (_keys m);
               _storage := _storage m |}
  | EmptyString => m
  end.

(** [_load]. *)
Definition _load (token_hex4 : string) (now : string) (m : ApiKeyManager)
  : ApiKeyManager :=
  match _storage m with
  | Keys entries =>
      let '(loaded, keys) := load_entries entries (_keys m) in
      let m' := {| _keys := keys; _storage := _storage m |} in
      if loaded then m' else seed token_hex4 now m'
  | Unreadable => seed token_hex4 now m
  | Missing => seed token_hex4 now m
  end.

(** [__init__(storage_path)]. *)
Definition init (token_hex4 : string) (now : string) (file : key_file)
  : ApiKeyManager :=
  _load token_hex4 now {| _keys := ∅; _storage := file |}.

(** [list_keys]. *)
Definition list_keys (m : ApiKeyManager) : list key_summary :=
  map summary_of (map snd (map_to_list (_keys m))).

(** [create_key(name)], with the two random hex strings and the clock
    reading it draws. *)
Definition create_key (token_hex4 token_hex24 : string) (now : string)
    (name : string) (m : ApiKeyManager) : created_key * ApiKeyManager :=
  let entry := {| ak_id := token_hex4; ak_name := name;
                  ak_key := "sk-" +:+ token_hex24; ak_created_at := now;
                  ak_enabled := true |} in
  ({| ck_id := ak_id entry; ck_name := ak_name entry; ck_key := ak_key entry;
      ck_created_at := ak_created_at entry |},
   _save {| _keys := <[ak_id entry := entry]> (_keys m);
            _storage := _storage m |}).

(** [update_key(key_id, name, enabled)]. *)
Definition update_key (key_id : string) (name : option string)
    (enabled : option bool) (m : ApiKeyManager)
  : option key_summary * ApiKeyManager :=
  match ApiKeys.update_key key_id name enabled (_keys m) with
  | (Some entry, keys) =>
      (Some (summary_of entry), _save {| _keys := keys; _storage := _storage m |})
  | (None, _) => (None, m)
  end.

(** [delete_key(key_id)]. *)
Definition delete_key (key_id : string) (m : ApiKeyManager)
  : bool * ApiKeyManager :=
  match _keys m !! key_id with
  | None => (false, m)
  | Some _ =>
      (true, _save {| _keys := delete key_id (_keys m);
                      _storage := _storage m |})
  end.

(** [verify_key(bearer_token)]. *)
Definition verify_key (m : ApiKeyManager) (bearer_token : string) : bool :=
  ApiKeys.verify_key PROXY_API_KEY (_keys m) bearer_token.

(** *** [verify_api_key] of the three routers

    [kiro/routes_openai.py], [kiro/routes_admin.py] and
    [kiro/routes_tasks.py] each define the same dependency. *)
Definition verify_api_key (m : ApiKeyManager) (auth_header : option string)
  : py_exn + bool :=
  match auth_header with
  | Some header =>
      if truthy_str auth_header && String.prefix "Bearer " header then
        let token := drop_str 7 header in
        if verify_key m token then inr true
        else inl (HTTPException 401 "Invalid or missing API Key")
      else inl (HTTPException 401 "Invalid or missing API Key")
  | None => inl (HTTPException 401 "Invalid or missing API Key")
  end.

(** *** The key routes of [kiro/routes_admin.py] *)

(** [list_apikeys]: the environment key first, then the manager's list. *)
Definition list_apikeys (m : ApiKeyManager) : list key_summary :=
  let keys := list_keys m in
  let env_key := {| s_id := "env_default";
                    s_name := "Default API Key (from .env)";
                    s_key_preview := key_preview PROXY_API_KEY;
                    s_created_at := "N/A"; s_enabled := true |} in
  [env_key] ++ keys.

(** [update_apikey]. *)
Definition update_apikey (key_id : string) (name : option string)
    (enabled : option bool) : M ApiKeyManager key_summary :=
  fun m =>
    match update_key key_id name enabled m with
    | (Some result, m') => (inr result, m')
    | (None, m') => (inl (HTTPException 404 "API key not found"), m')
    end.

(** [delete_apikey]. *)
Definition delete_apikey (key_id : string) : M ApiKeyManager unit :=
  fun m =>
    match delete_key key_id m with
    | (true, m') => (inr tt, m')
    | (false, m') => (inl (HTTPException 404 "API key not found"), m')
    end.

(** The managers a process can hold: the one [__init__] builds, and what
    the public methods make of it. *)
Inductive reachable : ApiKeyManager -> Prop :=
| reach_init token_hex4 now file :
    reachable (init token_hex4 now file)
| reach_create token_hex4 token_hex24 now name m :
    reachable m -> reachable (snd (create_key token_hex4 token_hex24 now name m))
| reach_update key_id name enabled m :
    reachable m -> reachable (snd (update_key key_id name enabled m))
| reach_delete key_id m :
    reachable m -> reachable (snd (delete_key key_id m)).

End Manager.

(** The dictionary built by filing entries one after the other, each under
    its own id. *)
Definition keys_of (entries : list ApiKeyEntry) (keys : gmap string ApiKeyEntry)
  : gmap string ApiKeyEntry :=
  fold_left (fun m entry => <[ak_id entry := entry]> m) entries keys.

(** Every entry is filed under its own id. *)
Definition own_ids (keys : gmap string ApiKeyEntry) : Prop :=
  forall key_id entry, keys !! key_id = Some entry -> ak_id entry = key_id.

(** A sample manager with one enabled key, and the entries of a key file. *)
Definition sample_entry (key_id key : string) : ApiKeyEntry :=
  {| ak_id := key_id; ak_name := "laptop"; ak_key := key;
     ak_created_at := "2025-01-01T00:00:00+00:00"; ak_enabled := true |}.

Definition sample_manager : ApiKeyManager :=
  {| _keys := <["k1" := sample_entry "k1" "sk-0123456789abcdef"]> ∅;
     _storage := Missing |}.

(** A file entry without its ["key"]. *)
Definition sample_broken_dict : key_dict :=
  {| d_id := Some "k9"; d_name := Some "broken"; d_key := None;
     d_created_at := Some "2025-01-01T00:00:00+00:00"; d_enabled := None |}.

End ApiKeyStore.

(** ** [kiro/store_responses.py] *)

Module ResponseStore.
Import Py Models.

(** A [datetime]: microseconds since the epoch, with a UTC offset already
    applied ([Aware]) or without any offset ([Naive]). *)
Inductive datetime : Type :=
| Aware (us : Z)
| Naive (us : Z).

(** The JSON value stored under a timestamp key, by what
    [datetime.fromisoformat] makes of it: an ISO string denoting a datetime,
    or anything it rejects (another string, a number, null). *)
Inductive stamp : Type :=
| Iso (d : datetime)
| NotIso.

(** A stored state: a [Dict[str, Any]] with the keys the code reads; a key
    may be missing in a state loaded from the file. *)
Record state : Type := {
  st_messages : option (list ChatMessage);
  st_model : option string;
  st_metadata : option json;
  created_at : option stamp;
  last_accessed : option stamp
}.

(** Truthiness of the dictionary: false only for the empty one. *)
Definition truthy_state (st : state) : bool :=
  match st_messages st, st_model st, st_metadata st, created_at st,
        last_accessed st with
  | None, None, None, None, None => false
  | _, _, _, _, _ => true
  end.

Record ResponseStateStore : Type := {
  _max_age_days : Z;
  _states : gmap string state;
  (** the ["states"] object of the JSON file, when it exists and parses *)
  _storage : option (gmap string state)
}.

Definition set_states (s : ResponseStateStore) (m : gmap string state)
  : ResponseStateStore :=
  {| _max_age_days := _max_age_days s; _states := m; _storage := _storage s |}.

(** [_save]. *)
Definition _save (s : ResponseStateStore) : ResponseStateStore :=
  {| _max_age_days := _max_age_days s; _states := _states s;
     _storage := Some (_states s) |}.

(** [_load]. *)
Definition _load (s : ResponseStateStore) : ResponseStateStore :=
  match _storage s with
  | None => s
  | Some data =>
      set_states s
        (fold_left (fun m (p : string * state) => <[p.1 := p.2]> m)
                   (map_to_list data) (_states s))
  end.

(** [timedelta(days=d)] in microseconds; the constructor refuses more than
    999999999 days. *)
Definition timedelta_days (d : Z) : py_exn + Z :=
  if (Z.abs d <=? 999999999)%Z then inr (d * 86400000000)%Z
  else inl (OtherException "OverflowError: days; must have magnitude <= 999999999").

(** The representable datetimes, 0001-01-01T00:00:00 to
    9999-12-31T23:59:59.999999, in microseconds since the epoch. *)
Definition datetime_min : Z := (-62135596800000000)%Z.
Definition datetime_max : Z := 253402300799999999%Z.

(** [d - delta] for a timedelta of [delta] microseconds. *)
Definition datetime_sub (d : datetime) (delta : Z) : py_exn + datetime :=
  let t := match d with Aware t => (t - delta)%Z | Naive t => (t - delta)%Z end in
  if (datetime_min <=? t)%Z && (t <=? datetime_max)%Z then
    inr (match d with Aware _ => Aware t | Naive _ => Naive t end)
  else inl (OtherException "OverflowError: date value out of range").

(** [datetime.fromisoformat(v)]: [TypeError] on a missing value,
    [ValueError] on a malformed one. *)
Definition fromisoformat (v : option stamp) : py_exn + datetime :=
  match v with
  | Some (Iso d) => inr d
  | Some NotIso => inl (ValueError "Invalid isoformat string")
  | None => inl (OtherException "TypeError: fromisoformat: argument must be str")
  end.

(** [a < b] on datetimes: comparing a naive with an aware one raises. *)
Definition datetime_lt (a b : datetime) : py_exn + bool :=
  match a, b with
  | Aware x, Aware y => inr (x <? y)%Z
  | Naive x, Naive y => inr (x <? y)%Z
  | _, _ =>
      inl (OtherException
             "TypeError: can't compare offset-naive and offset-aware datetimes")
  end.

(** [state.get("last_accessed", state.get("created_at"))]. *)
Definition timestamp_field (st : state) : option stamp :=
  match last_accessed st with
  | Some v => Some v
  | None => created_at st
  end.

(** The [try] block of the sweep: parse, then compare with the cutoff. *)
Definition is_before (cutoff : datetime) (st : state) : py_exn + bool :=
  match fromisoformat (timestamp_field st) with
  | inl e => inl e
  | inr la => datetime_lt la cutoff
  end.

(** One iteration of the first loop of [_cleanup_expired]. *)
Definition collect_expired (cutoff : datetime) (expired_ids : list string)
    (p : string * state) : list string :=
  match is_before cutoff p.2 with
  | inr true => expired_ids ++ [p.1]
  | inr false => expired_ids
  | inl _ => expired_ids ++ [p.1]
  end.

(** [cutoff = now - timedelta(days=self._max_age_days)]. *)
Definition cutoff_of (now : Z) (s : ResponseStateStore) : py_exn + datetime :=
  match timedelta_days (_max_age_days s) with
  | inl e => inl e
  | inr delta => datetime_sub (Aware now) delta
  end.

Definition expired_ids_of (cutoff : datetime) (s : ResponseStateStore)
  : list string :=
  fold_left (collect_expired cutoff) (map_to_list (_states s)) [].

(** The two loops of [_cleanup_expired] and the final save. *)
Definition sweep (cutoff : datetime) (s : ResponseStateStore)
  : ResponseStateStore :=
  let expired_ids := expired_ids_of cutoff s in
  let s' := set_states s
              (fold_left (fun m rid => delete rid m) expired_ids (_states s)) in
  match expired_ids with
  | [] => s'
  | _ :: _ => _save s'
  end.

(** [_cleanup_expired], with [now] the reading of the UTC clock. *)
Definition _cleanup_expired (now : Z) (s : ResponseStateStore)
  : py_exn + ResponseStateStore :=
  match cutoff_of now s with
  | inl e => inl e
  | inr cutoff => inr (sweep cutoff s)
  end.

(** [__init__(max_age_days, storage_path)]. *)
Definition init (max_age_days : Z) (file : option (gmap string state))
    (now : Z) : py_exn + ResponseStateStore :=
  _cleanup_expired now
    (_load {| _max_age_days := max_age_days; _states := ∅; _storage := file |}).

(** [create(messages, model, metadata)], with the uuid and clock it draws. *)
Definition create (uuid_hex : string) (now : Z)
    (messages : list ChatMessage) (model : string) (metadata : option json)
    (s : ResponseStateStore) : string * ResponseStateStore :=
  let response_id := "resp_" +:+ uuid_hex in
  let st := {| st_messages := Some messages; st_model := Some model;
               st_metadata := Some (default (JObj []) metadata);
               created_at := Some (Iso (Aware now));
               last_accessed := Some (Iso (Aware now)) |} in
  (response_id, _save (set_states s (<[response_id := st]> (_states s)))).

(** [get(response_id)]. *)
Definition get (now : Z) (response_id : string) (s : ResponseStateStore)
  : option state * ResponseStateStore :=
  match _states s !! response_id with
  | Some st =>
      if truthy_state st then
        let st' := {| st_messages := st_messages st; st_model := st_model st;
                      st_metadata := st_metadata st;
                      created_at := created_at st;
                      last_accessed := Some (Iso (Aware now)) |} in
        (Some st', _save (set_states s (<[response_id := st']> (_states s))))
      else (Some st, s)
  | None => (None, s)
  end.

(** [delete(response_id)]. *)
Definition delete_state (response_id : string) (s : ResponseStateStore)
  : bool * ResponseStateStore :=
  match _states s !! response_id with
  | Some _ => (true, _save (set_states s (delete response_id (_states s))))
  | None => (false, s)
  end.

(** [clear_all]. *)
Definition clear_all (s : ResponseStateStore) : nat * ResponseStateStore :=
  (size (_states s), _save (set_states s ∅)).

(** What a process started on the store's file would load: the file's
    states, or nothing when there is no file. *)
Definition on_disk (s : ResponseStateStore) : gmap string state :=
  default ∅ (_storage s).

(** The stores a process can hold: the one [__init__] builds, and what the
    public methods make of it. *)
Inductive reachable : ResponseStateStore -> Prop :=
| reach_init max_age_days file now s :
    init max_age_days file now = inr s -> reachable s
| reach_create uuid_hex now messages model metadata s :
    reachable s -> reachable (snd (create uuid_hex now messages model metadata s))
| reach_get now response_id s :
    reachable s -> reachable (snd (get now response_id s))
| reach_delete response_id s :
    reachable s -> reachable (snd (delete_state response_id s))
| reach_clear_all s :
    reachable s -> reachable (snd (clear_all s)).

(** The state with its access time left out. *)
Definition forget_access (st : state) : state :=
  {| st_messages := st_messages st; st_model := st_model st;
     st_metadata := st_metadata st; created_at := created_at st;
     last_accessed := None |}.

(** *** Specification side *)

(** The sweep's criterion as the specification words it, read off [last_accessed]
    alone: strictly before the cutoff, or not parseable. *)
Definition spec_expired (cutoff : Z) (st : state) : Prop :=
  match last_accessed st with
  | Some (Iso (Aware t)) => (t < cutoff)%Z
  | Some (Iso (Naive t)) => (t < cutoff)%Z
  | Some NotIso => True
  | None => True
  end.

(** Sample records: two without [last_accessed], created long ago and just
    now, and one whose [last_accessed] carries no UTC offset. *)
Definition rec_created (t : Z) : state :=
  {| st_messages := Some []; st_model := Some "m"; st_metadata := None;
     created_at := Some (Iso (Aware t)); last_accessed := None |}.

Definition rec_naive (t : Z) : state :=
  {| st_messages := Some []; st_model := Some "m"; st_metadata := None;
     created_at := Some (Iso (Aware t)); last_accessed := Some (Iso (Naive t)) |}.

Definition rec_accessed (t : Z) : state :=
  {| st_messages := Some []; st_model := Some "m"; st_metadata := None;
     created_at := Some (Iso (Aware 0)); last_accessed := Some (Iso (Aware t)) |}.

(** The default of [max_age_days]. *)
Definition default_max_age_days : Z := 7.

Definition sample_store (m : gmap string state) : ResponseStateStore :=
  {| _max_age_days := default_max_age_days; _states := m; _storage := None |}.

(** Ten days after the epoch; with [max_age_days = 7] the cutoff is three
    days after the epoch. *)
Definition sample_now : Z := 864000000000.
Definition sample_cutoff : Z := 259200000000.

Definition sample_states : gmap string state :=
  <["resp_old" := rec_created 0]>
    (<["resp_new" := rec_created sample_now]>
       (<["resp_naive" := rec_naive sample_now]> ∅)).

End ResponseStore.

(** ** [kiro/routes_openai.py]: the two request handlers *)

Module Routes.
Import Py Models Truncation.
Local Open Scope py_scope.

(** *** Data of the upstream side *)

(** An OpenAI-chunk-shaped frame after [json.loads], with the keys the
    translator reads. *)
Record ToolCallDelta : Type := {
  tc_id : option string;
  (** [tool_call.get("function", {}).get("arguments")] *)
  tc_arguments : option string
}.

Record Delta : Type := {
  delta_content : option string;
  delta_tool_calls : option (list ToolCallDelta)
}.

Record Choice : Type := {
  (** [choice.get("delta", {})]: a missing delta reads as the empty one *)
  choice_delta : option Delta
}.

Record ChunkData : Type := {
  chunk_choices : option (list Choice)
}.

(** What [stream_kiro_to_openai] does at one step of the [async for]: it
    yields a frame, or raises an [Exception] with the given message. *)
Inductive stream_item : Type :=
| Frame (chunk : string)
| Raises (msg : string).

(** The handle returned by the retrying executor. *)
Record Response : Type := {
  status_code : Z;
  (** [await response.aread()], decoded; [None] when reading raises *)
  aread : option string;
  (** what the relay yields for this response, until it stops *)
  relay : list stream_item
}.

(** The collector's result: [choices[0].message] and the other keys. *)
Record OpenAIResponse : Type := {
  or_object : string;
  or_id : string;
  or_message : ChatMessage;
  or_rest : json
}.

(** The collaborators of the handlers and the outside world of one run. *)
Class Collaborators : Type := {
  auth_is_kiro_desktop : bool;
  auth_profile_arn : option string;
  api_host : string;
  (** [build_kiro_payload]: the message of its [ValueError], or the payload *)
  build_kiro_payload : ChatCompletionRequest -> string -> string -> string + json;
  (** [request_with_retry("POST", url, payload, stream=True)] *)
  request_with_retry : string -> json -> py_exn + Response;
  (** [json.loads] on an error body; [None] is [JSONDecodeError] *)
  json_loads : string -> option json;
  (** [enhance_kiro_error(...).user_message]; [None] when it raises
      [KeyError], the one failure of the enhancer the handlers provide for *)
  enhance_kiro_error : json -> option string;
  (** [json.loads] on a relayed chunk; [None] when it raises *)
  chunk_loads : string -> option ChunkData;
  collect_stream_response : Response -> string -> py_exn + OpenAIResponse;
  (** successive values of [uuid.uuid4().hex] *)
  uuid4_hex : nat -> string;
  (** successive readings of the clock, in microseconds *)
  clock : nat -> Z
}.

(** *** The state the handlers act on *)

Record World : Type := {
  response_store : ResponseStore.ResponseStateStore;
  request_history : History.RequestHistory;
  (** [(url, payload)] of every upstream call made so far *)
  upstream_calls : list (string * json);
  (** one entry per [http_client.close()]: was it the shared client *)
  closed_clients : list bool;
  ticks : nat;
  uuids : nat
}.

Definition set_response_store (w : World) (x : ResponseStore.ResponseStateStore) : World :=
  {| response_store := x; request_history := request_history w;
     upstream_calls := upstream_calls w; closed_clients := closed_clients w;
     ticks := ticks w; uuids := uuids w |}.

Definition set_request_history (w : World) (x : History.RequestHistory) : World :=
  {| response_store := response_store w; request_history := x;
     upstream_calls := upstream_calls w; closed_clients := closed_clients w;
     ticks := ticks w; uuids := uuids w |}.

Definition set_upstream_calls (w : World) (x : list (string * json)) : World :=
  {| response_store := response_store w; request_history := request_history w;
     upstream_calls := x; closed_clients := closed_clients w;
     ticks := ticks w; uuids := uuids w |}.

Definition set_closed_clients (w : World) (x : list bool) : World :=
  {| response_store := response_store w; request_history := request_history w;
     upstream_calls := upstream_calls w; closed_clients := x;
     ticks := ticks w; uuids := uuids w |}.

Definition set_ticks (w : World) (x : nat) : World :=
  {| response_store := response_store w; request_history := request_history w;
     upstream_calls := upstream_calls w; closed_clients := closed_clients w;
     ticks := x; uuids := uuids w |}.

Definition set_uuids (w : World) (x : nat) : World :=
  {| response_store := response_store w; request_history := request_history w;
     upstream_calls := upstream_calls w; closed_clients := closed_clients w;
     ticks := ticks w; uuids := x |}.

(** [time.time()] / [datetime.now(timezone.utc)]. *)
Definition read_clock `{Collaborators} : M World Z :=
  fun w => (inr (clock (ticks w)), set_ticks w (S (ticks w))).

(** [uuid.uuid4().hex]. *)
Definition fresh_uuid `{Collaborators} : M World string :=
  fun w => (inr (uuid4_hex (uuids w)), set_uuids w (S (uuids w))).

(** [str(e)], the message of an exception. *)
Definition exn_message (e : py_exn) : string :=
  match e with
  | HTTPException _ detail => detail
  | ValueError msg => msg
  | OtherException msg => msg
  | GeneratorExit => ""
  end.

(** [_record_history]: best effort, never raises. *)
Definition _record_history `{Collaborators} (model : string) (stream : bool)
    (status : Z) (start_time : Z) (error : option string) : M World unit :=
  t <- read_clock ;;
  u <- fresh_uuid ;;
  now <- read_clock ;;
  modify (fun w =>
    set_request_history w
      (snd (History.record (request_history w)
        {| History.c_uuid := u;
           History.c_now := now;
           History.c_endpoint := "/v1/chat/completions";
           History.c_method := "POST";
           History.c_model := model;
           History.c_stream := stream;
           History.c_status_code := status;
           History.c_latency_ms := ((t - start_time) / 1000)%Z;
           History.c_input_tokens := None;
           History.c_output_tokens := None;
           History.c_error := error |}))).

(** [await http_client.close()]. *)
Definition close_client (shared : bool) : M World unit :=
  modify (fun w => set_closed_clients w (closed_clients w ++ [shared])).

(** [response_store.create(...)]. *)
Definition store_create `{Collaborators} (messages : list ChatMessage)
    (model : string) (metadata : option json) : M World string :=
  u <- fresh_uuid ;;
  now <- read_clock ;;
  fun w =>
    let '(rid, st) := ResponseStore.create u now messages model metadata
                        (response_store w) in
    (inr rid, set_response_store w st).

(** [response_store.get(...)]. *)
Definition store_get `{Collaborators} (response_id : string)
  : M World (option ResponseStore.state) :=
  fun w =>
    match ResponseStore._states (response_store w) !! response_id with
    | Some st0 =>
        if ResponseStore.truthy_state st0 then
          let '(r, st) := ResponseStore.get (clock (ticks w)) response_id
                            (response_store w) in
          (inr r, set_response_store (set_ticks w (S (ticks w))) st)
        else (inr (Some st0), w)
    | None => (inr None, w)
    end.

(** The profile ARN sent with the payload. *)
Definition profile_arn_for_payload `{Collaborators} : string :=
  if auth_is_kiro_desktop && truthy_str auth_profile_arn
  then default "" auth_profile_arn
  else "".

(** The error message of a rejected upstream call: the enhanced message
    when the body parses, the raw text otherwise. *)
Definition error_message_of `{Collaborators} (error_text : string) : string :=
  match json_loads error_text with
  | Some error_json =>
      match enhance_kiro_error error_json with
      | Some user_message => user_message
      | None => error_text
      end
  | None => error_text
  end.

(** *** What a handler returns *)

Inductive body : Type :=
(** [{"error": {"message": m, "type": t, "code": c}}] *)
| ErrorEnvelope (message : string) (type : string) (code : Z)
| Completion (r : OpenAIResponse).

(** What the stream wrapper of the Responses endpoint closes over. *)
Record responses_stream : Type := {
  rs_request : ResponsesRequest;
  rs_messages : list ChatMessage;
  rs_response_id : string;
  rs_response : Response;
  rs_start_time : Z
}.

(** What the stream wrapper of the Chat Completions endpoint closes over. *)
Record chat_stream : Type := {
  cs_request : ChatCompletionRequest;
  cs_response : Response;
  cs_start_time : Z
}.

Inductive response : Type :=
| JSONResponse (status : Z) (content : body)
| ResponsesStreamingResponse (g : responses_stream)
| ChatStreamingResponse (g : chat_stream).

(** *** The request handlers *)

(** What a handler has in hand when it enters its [try] block. *)
Record prepared : Type := {
  p_messages : list ChatMessage;
  p_chat_request : ChatCompletionRequest;
  p_payload : json;
  p_url : string;
  (** the shared client (non-streaming) or a per-request one (streaming) *)
  p_shared : bool;
  p_start_time : Z
}.

(** [request_with_retry], recorded in the world. *)
Definition call_upstream `{Collaborators} (url : string) (payload : json)
  : M World Response :=
  fun w =>
    let w' := set_upstream_calls w (upstream_calls w ++ [(url, payload)]) in
    match request_with_retry url payload with
    | inl e => (inl e, w')
    | inr r => (inr r, w')
    end.

(** The branch [if response.status_code != 200] of either handler. *)
Definition upstream_error `{Collaborators} (model : string) (stream : bool)
    (p : prepared) (resp : Response) : M World response :=
  let error_text := default "Unknown error" (aread resp) in
  close_client (p_shared p) ;;;
  let error_message := error_message_of error_text in
  _record_history model stream (status_code resp) (p_start_time p)
                  (Some (take_str 200 error_message)) ;;;
  ret (JSONResponse (status_code resp)
         (ErrorEnvelope error_message "kiro_api_error" (status_code resp))).

(** [build_kiro_payload] inside [try ... except ValueError]. *)
Definition build_payload `{Collaborators} (chat_request : ChatCompletionRequest)
  : M World json :=
  conversation_id <- fresh_uuid ;;
  match build_kiro_payload chat_request conversation_id profile_arn_for_payload with
  | inl msg => raise (HTTPException 400 msg)
  | inr payload => ret payload
  end.

(** The two [except] clauses that close a handler's [try] block; [prefix]
    is what the handler puts before [str(e)] in the detail of the 500. *)
Definition handler_except `{Collaborators} (model : string) (stream : bool)
    (p : prepared) (prefix : string) (r : py_exn + response) : M World response :=
  match r with
  | inr resp => ret resp
  | inl (HTTPException code detail) =>
      close_client (p_shared p) ;;;
      _record_history model stream code (p_start_time p)
                      (Some (take_str 200 detail)) ;;;
      raise (HTTPException code detail)
  | inl e =>
      if is_Exception e then
        close_client (p_shared p) ;;;
        _record_history model stream 500 (p_start_time p)
                        (Some (take_str 200 (exn_message e))) ;;;
        raise (HTTPException 500 (prefix +:+ exn_message e))
      else raise e
  end.

(** **** [chat_completions] *)

Definition chat_prepare `{Registry} `{Collaborators} (request_data : ChatCompletionRequest)
  : M World prepared :=
  start <- read_clock ;;
  let request_data := set_messages request_data (repair (cc_messages request_data)) in
  payload <- build_payload request_data ;;
  ret {| p_messages := cc_messages request_data;
         p_chat_request := request_data;
         p_payload := payload;
         p_url := api_host +:+ "/generateAssistantResponse";
         p_shared := negb (cc_stream request_data);
         p_start_time := start |}.

Definition chat_try `{Collaborators} (p : prepared) : M World response :=
  let request_data := p_chat_request p in
  resp <- call_upstream (p_url p) (p_payload p) ;;
  if negb (status_code resp =? 200)%Z then
    upstream_error (cc_model request_data) (cc_stream request_data) p resp
  else if cc_stream request_data then
    ret (ChatStreamingResponse
           {| cs_request := request_data; cs_response := resp;
              cs_start_time := p_start_time p |})
  else
    match collect_stream_response resp (cc_model request_data) with
    | inl e => raise e
    | inr openai_response =>
        close_client (p_shared p) ;;;
        _record_history (cc_model request_data) false 200 (p_start_time p) None ;;;
        ret (JSONResponse 200 (Completion openai_response))
    end.

Definition chat_completions `{Registry} `{Collaborators}
    (request_data : ChatCompletionRequest) : M World response :=
  p <- chat_prepare request_data ;;
  r <- attempt (chat_try p) ;;
  handler_except (cc_model request_data) (cc_stream (p_chat_request p)) p
                 "Internal Server Error: " r.

(** **** [responses] *)

(** Lines 484-494: the messages of the previous response, if one is named. *)
Definition load_previous `{Collaborators} (request_data : ResponsesRequest)
  : M World (list ChatMessage) :=
  if truthy_str (previous_response_id request_data) then
    match previous_response_id request_data with
    | Some id =>
        previous_state <- store_get id ;;
        match previous_state with
        | Some st =>
            if ResponseStore.truthy_state st
            then ret (default [] (ResponseStore.st_messages st))
            else raise (HTTPException 404
                          ("Previous response ID not found: " +:+ id))
        | None =>
            raise (HTTPException 404
                     ("Previous response ID not found: " +:+ id))
        end
    | None => ret []
    end
  else ret [].

Definition responses_prepare `{Collaborators} (request_data : ResponsesRequest)
  : M World prepared :=
  start <- read_clock ;;
  previous <- load_previous request_data ;;
  let messages :=
    previous ++
    map (fun msg => mk_message (in_role msg) (in_content msg))
        (rr_input request_data) in
  let chat_request :=
    {| cc_model := rr_model request_data; cc_messages := messages;
       cc_stream := rr_stream request_data; cc_tools := rr_tools request_data;
       cc_params := rr_params request_data |} in
  payload <- build_payload chat_request ;;
  ret {| p_messages := messages;
         p_chat_request := chat_request;
         p_payload := payload;
         p_url := api_host +:+ "/generateAssistantResponse";
         p_shared := negb (rr_stream request_data);
         p_start_time := start |}.

Definition responses_try `{Collaborators} (request_data : ResponsesRequest)
    (p : prepared) : M World response :=
  resp <- call_upstream (p_url p) (p_payload p) ;;
  if negb (status_code resp =? 200)%Z then
    upstream_error (rr_model request_data) (rr_stream request_data) p resp
  else if rr_stream request_data then
    u <- fresh_uuid ;;
    ret (ResponsesStreamingResponse
           {| rs_request := request_data; rs_messages := p_messages p;
              rs_response_id := "resp_" +:+ u; rs_response := resp;
              rs_start_time := p_start_time p |})
  else
    match collect_stream_response resp (rr_model request_data) with
    | inl e => raise e
    | inr openai_response =>
        close_client (p_shared p) ;;;
        response_id <-
          (if rr_store request_data then
             store_create (p_messages p ++ [or_message openai_response])
                          (rr_model request_data) (rr_metadata request_data)
           else
             u <- fresh_uuid ;; ret ("resp_" +:+ u)) ;;
        _record_history (rr_model request_data) false 200 (p_start_time p) None ;;;
        ret (JSONResponse 200
               (Completion {| or_object := "response"; or_id := response_id;
                              or_message := or_message openai_response;
                              or_rest := or_rest openai_response |}))
    end.

Definition responses `{Collaborators} (request_data : ResponsesRequest)
  : M World response :=
  p <- responses_prepare request_data ;;
  r <- attempt (responses_try request_data p) ;;
  handler_except (rr_model request_data) (rr_stream request_data) p "" r.

(** *** The stream wrappers *)

Record output_item : Type := {
  item_id : string;
  item_type : string;
  item_role : string;
  item_content : list json
}.

(** The frames a wrapper yields.  A frame of the Responses grammar is the
    event whose JSON rendering the wire frame carries. *)
Inductive sse_event : Type :=
(** [response.done] with [object = "response"], [status = "completed"] *)
| ResponseDone (response_id : string)
| OutputItemAdded (item : output_item)
| TextDelta (delta : string)
| FunctionCallArgumentsDelta (delta : string) (call_id : option string)
(** [response.error] with [type = "server_error"] *)
| ResponseError (message : string)
(** a frame of the Chat Completions grammar, relayed as it is *)
| RawFrame (chunk : string).

(** The state of a running wrapper (a generator the framework has started):
    the world, the variables it closes over or declares, the frames handed
    to the client so far, and the client.  [g_patience = None] is a client that keeps reading;
    [Some n] is a client that resumes the generator after each of the next
    [n] frames and closes it at the yield of the frame after those. *)
Record gen_state : Type := {
  g_world : World;
  first_chunk : bool;
  assistant_message_content : list string;
  streaming_error : option py_exn;
  client_disconnected : bool;
  g_sent : list sse_event;
  g_patience : option nat
}.

Definition start_gen (w : World) (patience : option nat) : gen_state :=
  {| g_world := w; first_chunk := true; assistant_message_content := [];
     streaming_error := None; client_disconnected := false; g_sent := [];
     g_patience := patience |}.

(** A step of the world inside the generator. *)
Definition in_world {A} (m : M World A) : M gen_state A :=
  fun g =>
    let '(r, w) := m (g_world g) in
    (r, {| g_world := w; first_chunk := first_chunk g;
           assistant_message_content := assistant_message_content g;
           streaming_error := streaming_error g;
           client_disconnected := client_disconnected g;
           g_sent := g_sent g; g_patience := g_patience g |}).

Definition set_first_chunk (b : bool) : M gen_state unit :=
  modify (fun g =>
    {| g_world := g_world g; first_chunk := b;
       assistant_message_content := assistant_message_content g;
       streaming_error := streaming_error g;
       client_disconnected := client_disconnected g;
       g_sent := g_sent g; g_patience := g_patience g |}).

(** [assistant_message_content.append(s)]. *)
Definition append_content (s : string) : M gen_state unit :=
  modify (fun g =>
    {| g_world := g_world g; first_chunk := first_chunk g;
       assistant_message_content := assistant_message_content g ++ [s];
       streaming_error := streaming_error g;
       client_disconnected := client_disconnected g;
       g_sent := g_sent g; g_patience := g_patience g |}).

Definition set_streaming_error (e : py_exn) : M gen_state unit :=
  modify (fun g =>
    {| g_world := g_world g; first_chunk := first_chunk g;
       assistant_message_content := assistant_message_content g;
       streaming_error := Some e;
       client_disconnected := client_disconnected g;
       g_sent := g_sent g; g_patience := g_patience g |}).

Definition set_client_disconnected : M gen_state unit :=
  modify (fun g =>
    {| g_world := g_world g; first_chunk := first_chunk g;
       assistant_message_content := assistant_message_content g;
       streaming_error := streaming_error g;
       client_disconnected := true;
       g_sent := g_sent g; g_patience := g_patience g |}).

(** The state once [frame] has been handed to a client that is left with
    [patience]. *)
Definition push_frame (g : gen_state) (frame : sse_event)
    (patience : option nat) : gen_state :=
  {| g_world := g_world g; first_chunk := first_chunk g;
     assistant_message_content := assistant_message_content g;
     streaming_error := streaming_error g;
     client_disconnected := client_disconnected g;
     g_sent := g_sent g ++ [frame]; g_patience := patience |}.

(** [yield frame]: the frame goes to the client; when the client closes
    the generator here, [GeneratorExit] is raised at the yield. *)
Definition yield_ (frame : sse_event) : M gen_state unit :=
  fun g =>
    match g_patience g with
    | None => (inr tt, push_frame g frame None)
    | Some (S n) => (inr tt, push_frame g frame (Some n))
    | Some 0 => (inl GeneratorExit, push_frame g frame (Some 0))
    end.

(** [async for chunk in stream_kiro_to_openai(...): body(chunk)]. *)
Fixpoint async_for (items : list stream_item) (body : string -> M gen_state unit)
  : M gen_state unit :=
  match items with
  | [] => ret tt
  | Frame chunk :: rest => body chunk ;;; async_for rest body
  | Raises msg :: _ => raise (OtherException msg)
  end.

(** [for x in xs: body(x)]. *)
Fixpoint for_each {A} (xs : list A) (body : A -> M gen_state unit)
  : M gen_state unit :=
  match xs with
  | [] => ret tt
  | x :: rest => body x ;;; for_each rest body
  end.

(** [str.removeprefix]. *)
Definition removeprefix (prefix s : string) : string :=
  if String.prefix prefix s
  then String.substring (String.length prefix)
                        (String.length s - String.length prefix)%nat s
  else s.

(** Whitespace for [str.strip], on the ASCII range. *)
Definition is_space (c : ascii) : bool :=
  let n := nat_of_ascii c in
  ((9 <=? n)%nat && (n <=? 13)%nat) || ((28 <=? n)%nat && (n <=? 32)%nat).

Fixpoint lstrip (s : string) : string :=
  match s with
  | EmptyString => EmptyString
  | String c rest => if is_space c then lstrip rest else s
  end.

Fixpoint rstrip (s : string) : string :=
  match s with
  | EmptyString => EmptyString
  | String c rest =>
      match rstrip rest with
      | EmptyString => if is_space c then EmptyString else String c EmptyString
      | kept => String c kept
      end
  end.

Definition strip (s : string) : string := rstrip (lstrip s).

(** Truthiness of [chunk_data.get("choices")]. *)
Definition truthy_choices (c : ChunkData) : bool :=
  match chunk_choices c with
  | Some (_ :: _) => true
  | _ => false
  end.

(** [chunk_data["choices"][0].get("delta", {})]. *)
Definition first_delta (c : ChunkData) : Delta :=
  match chunk_choices c with
  | Some (choice :: _) =>
      default {| delta_content := None; delta_tool_calls := None |}
              (choice_delta choice)
  | _ => {| delta_content := None; delta_tool_calls := None |}
  end.

(** Lines 648-658: the tool-call fragments of a delta. *)
Definition emit_tool_calls (d : Delta) : M gen_state unit :=
  match delta_tool_calls d with
  | Some tool_calls =>
      for_each tool_calls (fun tool_call =>
        match tc_arguments tool_call with
        | Some (String a r) =>
            yield_ (FunctionCallArgumentsDelta (String a r) (tc_id tool_call))
        | _ => ret tt
        end)
  | None => ret tt
  end.

(** Lines 637-646: the text fragment of a delta. *)
Definition emit_text (d : Delta) : M gen_state unit :=
  match delta_content d with
  | Some (String a r) =>
      append_content (String a r) ;;; yield_ (TextDelta (String a r))
  | _ => ret tt
  end.

(** Lines 623-635: the item announcement. *)
Definition emit_item_added `{Collaborators} (chunk_data : ChunkData)
  : M gen_state unit :=
  g <- get ;;
  if first_chunk g && truthy_choices chunk_data then
    set_first_chunk false ;;;
    u <- in_world fresh_uuid ;;
    yield_ (OutputItemAdded
              {| item_id := "item_" +:+ take_str 8 u; item_type := "message";
                 item_role := "assistant"; item_content := [] |})
  else ret tt.

(** The body of the loop of the Responses wrapper (lines 608-658). *)
Definition translate_chunk `{Collaborators} (response_id : string)
    (chunk : string) : M gen_state unit :=
  let chunk_str := removeprefix "data: " chunk in
  if String.eqb (strip chunk_str) "[DONE]" then
    yield_ (ResponseDone response_id)
  else
    match chunk_loads chunk_str with
    | None => raise (OtherException "JSONDecodeError")
    | Some chunk_data =>
        emit_item_added chunk_data ;;;
        if truthy_choices chunk_data then
          emit_text (first_delta chunk_data) ;;;
          emit_tool_calls (first_delta chunk_data)
        else ret tt
    end.

(** An [except Exception as e] clause of a wrapper: remember the error,
    try to send a last frame, re-raise.  A [GeneratorExit] raised at that
    yield is not an [Exception] and propagates instead. *)
Definition except_exception (last_frame : sse_event) (e : py_exn)
  : M gen_state unit :=
  set_streaming_error e ;;;
  r <- attempt (yield_ last_frame) ;;
  match r with
  | inr _ => raise e
  | inl e' => if is_Exception e' then raise e else raise e'
  end.

(** The [finally] block of the Responses wrapper (lines 676-692). *)
Definition responses_finally `{Collaborators} (h : responses_stream)
  : M gen_state unit :=
  let request_data := rs_request h in
  in_world (close_client false) ;;;
  g <- get ;;
  (if rr_store request_data && negb (is_set (streaming_error g))
   then
     let full_assistant_content :=
       String.concat "" (assistant_message_content g) in
     in_world
       (store_create
          (rs_messages h ++
           [mk_message "assistant" (CText full_assistant_content)])
          (rr_model request_data) (rr_metadata request_data)) ;;;
     ret tt
   else ret tt) ;;;
  match streaming_error g with
  | Some e =>
      in_world (_record_history (rr_model request_data) true 500
                  (rs_start_time h) (Some (take_str 200 (exn_message e))))
  | None =>
      in_world (_record_history (rr_model request_data) true 200
                  (rs_start_time h) None)
  end.

(** The loop of the [try] block (lines 599-658). *)
Definition responses_loop `{Collaborators} (h : responses_stream)
  : M gen_state unit :=
  async_for (relay (rs_response h)) (translate_chunk (rs_response_id h)).

(** The [try] block with its [except] clauses (lines 598-675). *)
Definition responses_guarded `{Collaborators} (h : responses_stream)
  : M gen_state unit :=
  r <- attempt (responses_loop h) ;;
  match r with
  | inr _ => ret tt
  | inl GeneratorExit => ret tt
  | inl e =>
      if is_Exception e
      then except_exception (ResponseError (exn_message e)) e
      else raise e
  end.

(** [stream_wrapper] of [responses]. *)
Definition responses_stream_wrapper `{Collaborators} (h : responses_stream)
  : M gen_state unit :=
  r <- attempt (responses_guarded h) ;;
  responses_finally h ;;;
  match r with
  | inr _ => ret tt
  | inl e => raise e
  end.

(** [stream_wrapper] of [chat_completions] (lines 352-400). *)
Definition chat_guarded (h : chat_stream) : M gen_state unit :=
  r <- attempt (async_for (relay (cs_response h))
                          (fun chunk => yield_ (RawFrame chunk))) ;;
  match r with
  | inr _ => ret tt
  | inl GeneratorExit => set_client_disconnected
  | inl e =>
      if is_Exception e
      then except_exception (RawFrame ("data: [DONE]" +:+ newline +:+ newline)) e
      else raise e
  end.

Definition chat_finally `{Collaborators} (h : chat_stream) : M gen_state unit :=
  in_world (close_client false) ;;;
  g <- get ;;
  match streaming_error g with
  | Some e =>
      in_world (_record_history (cc_model (cs_request h)) true 500
                  (cs_start_time h) (Some (take_str 200 (exn_message e))))
  | None =>
      in_world (_record_history (cc_model (cs_request h)) true 200
                  (cs_start_time h) None)
  end.

Definition chat_stream_wrapper `{Collaborators} (h : chat_stream)
  : M gen_state unit :=
  r <- attempt (chat_guarded h) ;;
  chat_finally h ;;;
  match r with
  | inr _ => ret tt
  | inl e => raise e
  end.

(** *** Derived notions used by the properties *)

Definition is_item_added (e : sse_event) : bool :=
  match e with
  | OutputItemAdded _ => true
  | _ => false
  end.

Definition count_item_added (frames : list sse_event) : nat :=
  length (List.filter is_item_added frames).

(** The fragments of the [response.text.delta] frames, in order. *)
Definition text_deltas (frames : list sse_event) : list string :=
  flat_map (fun e => match e with TextDelta s => [s] | _ => [] end) frames.







(** The turn the [finally] block persists. *)
Definition persisted_turn (h : responses_stream) (accumulated : list string)
  : list ChatMessage :=
  rs_messages h ++ [mk_message "assistant" (CText (String.concat "" accumulated))].

(** What the translation loop may change between two of its states: it
    only reads uuids, sets [first_chunk] to false, and appends frames and
    text fragments; an item announcement is only sent while [first_chunk]
    still holds, and every fragment appended to the accumulator is the
    fragment of a text frame sent. *)
Definition steps (g0 g : gen_state) : Prop :=
  response_store (g_world g) = response_store (g_world g0) /\
  request_history (g_world g) = request_history (g_world g0) /\
  upstream_calls (g_world g) = upstream_calls (g_world g0) /\
  closed_clients (g_world g) = closed_clients (g_world g0) /\
  ticks (g_world g) = ticks (g_world g0) /\
  uuids (g_world g0) <= uuids (g_world g) /\
  streaming_error g = streaming_error g0 /\
  client_disconnected g = client_disconnected g0 /\
  exists new,
    g_sent g = g_sent g0 ++ new /\
    assistant_message_content g =
      assistant_message_content g0 ++ text_deltas new /\
    count_item_added new <= (if first_chunk g0 then 1 else 0) /\
    (first_chunk g = true -> first_chunk g0 = true /\ count_item_added new = 0).

(** Every run of [m] is such a change. *)
Definition preserves {A} (m : M gen_state A) : Prop :=
  forall g r g', m g = (r, g') -> steps g g'.

(** One record was added to the request history between [w] and [w'], for
    a request with the given model, mode, status and error text. *)
Definition logged (w w' : World) (model : string) (stream : bool)
    (status : Z) (error : option string) : Prop :=
  exists c,
    request_history w' = snd (History.record (request_history w) c) /\
    History.c_endpoint c = "/v1/chat/completions" /\
    History.c_method c = "POST" /\
    History.c_model c = model /\
    History.c_stream c = stream /\
    History.c_status_code c = status /\
    History.c_error c = error.

(** What a handler that has entered its [try] block with [p] leaves behind
    when it ends with [r]: a stream handle leaves the client open and the
    history as it was; a JSON response or an [HTTPException] comes with the
    client closed once and one history record of that status; any other
    exception is not an [Exception], and passes with nothing closed and
    nothing recorded. *)
Definition handler_exit (model : string) (stream : bool) (p : prepared)
    (w1 w' : World) (r : py_exn + response) : Prop :=
  match r with
  | inr (JSONResponse status _) =>
      closed_clients w' = closed_clients w1 ++ [p_shared p] /\
      exists error, logged w1 w' model stream status error
  | inr (ResponsesStreamingResponse _) | inr (ChatStreamingResponse _) =>
      closed_clients w' = closed_clients w1 /\
      request_history w' = request_history w1 /\
      response_store w' = response_store w1
  | inl (HTTPException code _) =>
      closed_clients w' = closed_clients w1 ++ [p_shared p] /\
      response_store w' = response_store w1 /\
      exists error, logged w1 w' model stream code (Some error)
  | inl e =>
      is_Exception e = false /\
      closed_clients w' = closed_clients w1 /\
      request_history w' = request_history w1 /\
      response_store w' = response_store w1
  end.




(** The chunks a relay yields before it stops or raises, and the message
    of the exception it raises, if it does. *)
Fixpoint frames_before_failure (items : list stream_item) : list string :=
  match items with
  | Frame chunk :: rest => chunk :: frames_before_failure rest
  | _ => []
  end.

Fixpoint relay_failure (items : list stream_item) : option string :=
  match items with
  | Frame _ :: rest => relay_failure rest
  | Raises msg :: _ => Some msg
  | [] => None
  end.

(** *** A sample world for concrete runs *)

(** A toy decoder: ["T<text>"] is a chunk whose delta carries [<text>],
    ["E"] a chunk with an empty [choices]; anything else does not parse. *)
Definition sample_chunk_loads (s : string) : option ChunkData :=
  match s with
  | String "T"%char text =>
      Some {| chunk_choices :=
                Some [ {| choice_delta :=
                            Some {| delta_content := Some text;
                                    delta_tool_calls := None |} |} ] |}
  | String "E"%char EmptyString => Some {| chunk_choices := Some [] |}
  | _ => None
  end.

Definition sample_collaborators (status : Z) (items : list stream_item)
  : Collaborators :=
  {| auth_is_kiro_desktop := false;
     auth_profile_arn := None;
     api_host := "https://upstream.example";
     build_kiro_payload := fun _ _ _ => inr (JObj []);
     request_with_retry := fun _ _ =>
       inr {| status_code := status; aread := Some "throttled";
              relay := items |};
     json_loads := fun _ => None;
     enhance_kiro_error := fun _ => None;
     chunk_loads := sample_chunk_loads;
     collect_stream_response := fun _ _ =>
       inr {| or_object := "chat.completion"; or_id := "chatcmpl-1";
              or_message := mk_message "assistant" (CText "4");
              or_rest := JNull |};
     uuid4_hex := fun n => "c0ffee00c0ffee00";
     clock := fun n => Z.of_nat n |}.

(** Collaborators whose upstream call raises. *)
Definition sample_failing_upstream (e : py_exn) : Collaborators :=
  {| auth_is_kiro_desktop := false;
     auth_profile_arn := None;
     api_host := "https://upstream.example";
     build_kiro_payload := fun _ _ _ => inr (JObj []);
     request_with_retry := fun _ _ => inl e;
     json_loads := fun _ => None;
     enhance_kiro_error := fun _ => None;
     chunk_loads := sample_chunk_loads;
     collect_stream_response := fun _ _ => inl (OtherException "unused");
     uuid4_hex := fun n => "c0ffee00c0ffee00";
     clock := fun n => Z.of_nat n |}.

Definition sample_world : World :=
  {| response_store := ResponseStore.sample_store ∅;
     request_history := History.init History.default_max_size None;
     upstream_calls := []; closed_clients := []; ticks := 0; uuids := 0 |}.

Definition sample_input : ResponseInputMessage :=
  {| in_type := "message"; in_role := "user"; in_content := CText "2+2?" |}.

Definition sample_responses_request (previous : option string)
    (stream store : bool) : ResponsesRequest :=
  {| rr_model := "m"; rr_input := [sample_input];
     previous_response_id := previous; rr_stream := stream;
     rr_store := store; rr_metadata := None; rr_tools := None;
     rr_params := JNull |}.

Definition sample_chat_request (stream : bool) : ChatCompletionRequest :=
  {| cc_model := "m"; cc_messages := [mk_message "user" (CText "2+2?")];
     cc_stream := stream; cc_tools := None; cc_params := JNull |}.

(** A relayed stream: a chunk without choices, two text chunks, the
    sentinel. *)
Definition sample_items : list stream_item :=
  [Frame "data: E"; Frame "data: Thel"; Frame "data: Tlo";
   Frame ("data: [DONE]" +:+ newline +:+ newline)].

(** A relayed stream that breaks after its first text chunk. *)
Definition sample_failing_items : list stream_item :=
  [Frame "data: Thel"; Raises "boom"].

Definition sample_item : output_item :=
  {| item_id := "item_c0ffee00"; item_type := "message";
     item_role := "assistant"; item_content := [] |}.

Definition sample_chat_stream (items : list stream_item) : chat_stream :=
  {| cs_request := sample_chat_request true;
     cs_response := {| status_code := 200; aread := None; relay := items |};
     cs_start_time := 0 |}.

(** Collaborators whose uuids are all different: the [n]-th one is [n]
    letters long. *)
Fixpoint letters (n : nat) : string :=
  match n with
  | 0 => EmptyString
  | S n => String "a"%char (letters n)
  end.

Definition sample_distinct_uuids (items : list stream_item) : Collaborators :=
  {| auth_is_kiro_desktop := false;
     auth_profile_arn := None;
     api_host := "https://upstream.example";
     build_kiro_payload := fun _ _ _ => inr (JObj []);
     request_with_retry := fun _ _ =>
       inr {| status_code := 200; aread := None; relay := items |};
     json_loads := fun _ => None;
     enhance_kiro_error := fun _ => None;
     chunk_loads := sample_chunk_loads;
     collect_stream_response := fun _ _ => inl (OtherException "unused");
     uuid4_hex := letters;
     clock := fun n => Z.of_nat n |}.




Definition sample_stream (items : list stream_item) : responses_stream :=
  {| rs_request := sample_responses_request None true true;
     rs_messages := [mk_message "user" (CText "2+2?")];
     rs_response_id := "resp_c0ffee00c0ffee00";
     rs_response := {| status_code := 200; aread := Some "throttled";
                       relay := items |};
     rs_start_time := 0 |}.

End Routes.

(** ** [kiro/models_tasks.py], [kiro/store_tasks.py], [kiro/routes_tasks.py] *)

Module Tasks.
Import Py.

Inductive TaskStatus : Type := pending | in_progress | completed.
Inductive TaskPriority : Type := low | medium | high.

Definition status_eqb (a b : TaskStatus) : bool :=
  match a, b with
  | pending, pending | in_progress, in_progress | completed, completed => true
  | _, _ => false
  end.

Definition priority_eqb (a b : TaskPriority) : bool :=
  match a, b with
  | low, low | medium, medium | high, high => true
  | _, _ => false
  end.

(** [TaskCreate] and [TaskUpdate], once validated and with their defaults
    filled in. *)
Record TaskCreate : Type := {
  tc_title : string;
  tc_description : option string;
  tc_status : TaskStatus;
  tc_priority : TaskPriority
}.

(** [TaskPatch]: each field is unset ([None]), or set to a value or to an
    explicit null ([Some None]); [model_dump(exclude_unset=True)] keeps the
    set ones. *)
Record TaskPatch : Type := {
  tp_title : option (option string);
  tp_description : option (option string);
  tp_status : option (option TaskStatus);
  tp_priority : option (option TaskPriority)
}.

(** [Task].  An assignment through [setattr] is not validated, so a patch
    can leave [None] in any of the four fields it sets. *)
Record Task : Type := {
  t_id : string;
  t_title : option string;
  t_description : option string;
  t_status : option TaskStatus;
  t_priority : option TaskPriority;
  (** instants in microseconds *)
  t_created_at : Z;
  t_updated_at : Z
}.

(** A [dict] keyed by strings, in insertion order. *)
Fixpoint dict_get {V} (k : string) (d : list (string * V)) : option V :=
  match d with
  | [] => None
  | (k', v) :: rest => if String.eqb k' k then Some v else dict_get k rest
  end.

(** [d[k] = v]: in place for a key that is there, at the end otherwise. *)
Fixpoint dict_set {V} (k : string) (v : V) (d : list (string * V))
  : list (string * V) :=
  match d with
  | [] => [(k, v)]
  | (k', v') :: rest =>
      if String.eqb k' k then (k, v) :: rest else (k', v') :: dict_set k v rest
  end.

(** [d.pop(k, None)]: the dictionary without the key. *)
Fixpoint dict_pop {V} (k : string) (d : list (string * V))
  : list (string * V) :=
  match d with
  | [] => []
  | (k', v) :: rest =>
      if String.eqb k' k then rest else (k', v) :: dict_pop k rest
  end.

Record TaskStore : Type := { _tasks : list (string * Task) }.

(** [create(data)], with the uuid and the two clock readings the default
    factories of [Task] draw. *)
Definition create (uuid4 : string) (now_created now_updated : Z)
    (data : TaskCreate) (s : TaskStore) : Task * TaskStore :=
  let task := {| t_id := uuid4; t_title := Some (tc_title data);
                 t_description := tc_description data;
                 t_status := Some (tc_status data);
                 t_priority := Some (tc_priority data);
                 t_created_at := now_created;
                 t_updated_at := now_updated |} in
  (task, {| _tasks := dict_set (t_id task) task (_tasks s) |}).

(** [get(task_id)]. *)
Definition get (task_id : string) (s : TaskStore) : option Task :=
  dict_get task_id (_tasks s).

(** [update(task_id, data)]: the stored object is changed in place. *)
Definition update (now : Z) (task_id : string) (data : TaskCreate)
    (s : TaskStore) : option Task * TaskStore :=
  match dict_get task_id (_tasks s) with
  | None => (None, s)
  | Some task =>
      let task' := {| t_id := t_id task; t_title := Some (tc_title data);
                      t_description := tc_description data;
                      t_status := Some (tc_status data);
                      t_priority := Some (tc_priority data);
                      t_created_at := t_created_at task;
                      t_updated_at := now |} in
      (Some task', {| _tasks := dict_set task_id task' (_tasks s) |})
  end.

(** Truthiness of [patch_data]: some field is set. *)
Definition patch_is_set (data : TaskPatch) : bool :=
  is_set (tp_title data) || is_set (tp_description data) ||
  is_set (tp_status data) || is_set (tp_priority data).

(** [patch(task_id, data)]. *)
Definition patch (now : Z) (task_id : string) (data : TaskPatch)
    (s : TaskStore) : option Task * TaskStore :=
  match dict_get task_id (_tasks s) with
  | None => (None, s)
  | Some task =>
      let task' := {| t_id := t_id task;
                      t_title := default (t_title task) (tp_title data);
                      t_description :=
                        default (t_description task) (tp_description data);
                      t_status := default (t_status task) (tp_status data);
                      t_priority := default (t_priority task) (tp_priority data);
                      t_created_at := t_created_at task;
                      t_updated_at := if patch_is_set data then now
                                      else t_updated_at task |} in
      (Some task', {| _tasks := dict_set task_id task' (_tasks s) |})
  end.

(** [delete(task_id)]. *)
Definition delete_task (task_id : string) (s : TaskStore) : bool * TaskStore :=
  (is_set (dict_get task_id (_tasks s)),
   {| _tasks := dict_pop task_id (_tasks s) |}).

(** [list.sort(key=key, reverse=reverse)] on integer keys: stable in both
    directions, so that elements with equal keys keep their order. *)
Fixpoint sort_insert {A} (key : A -> Z) (reverse : bool) (x : A)
    (sorted : list A) : list A :=
  match sorted with
  | [] => [x]
  | y :: rest =>
      if (if reverse then key y <=? key x else key x <=? key y)%Z
      then x :: y :: rest
      else y :: sort_insert key reverse x rest
  end.

Definition py_sort {A} (key : A -> Z) (reverse : bool) (l : list A) : list A :=
  foldr (sort_insert key reverse) [] l.

(** [priority_order.get(t.priority.value, 1)]. *)
Definition priority_order (p : TaskPriority) : Z :=
  match p with
  | high => 0
  | medium => 1
  | low => 2
  end%Z.

Definition matches (status : option TaskStatus)
    (priority : option TaskPriority) (t : Task) : bool :=
  match status with
  | Some st => match t_status t with
               | Some st' => status_eqb st' st
               | None => false
               end
  | None => true
  end &&
  match priority with
  | Some pr => match t_priority t with
               | Some pr' => priority_eqb pr' pr
               | None => false
               end
  | None => true
  end.

(** The [tasks.sort(...)] of [list]: by priority (a task whose priority was
    patched to null has no [.value], and the key function raises), by one
    of the two timestamps, or not at all. *)
Definition sort_tasks (sort_by sort_order : string) (tasks : list Task)
  : py_exn + list Task :=
  let reverse := String.eqb sort_order "desc" in
  if String.eqb sort_by "priority" then
    if forallb (fun t => is_set (t_priority t)) tasks then
      inr (py_sort (fun t => match t_priority t with
                             | Some p => priority_order p
                             | None => 1%Z
                             end) reverse tasks)
    else inl (OtherException
                "AttributeError: 'NoneType' object has no attribute 'value'")
  else if String.eqb sort_by "created_at" then
    inr (py_sort t_created_at reverse tasks)
  else if String.eqb sort_by "updated_at" then
    inr (py_sort t_updated_at reverse tasks)
  else inr tasks.

(** The key [list] sorts by, for the values of [sort_by] it knows. *)
Definition sort_key (sort_by : string) : option (Task -> Z) :=
  if String.eqb sort_by "priority" then
    Some (fun t => match t_priority t with
                   | Some p => priority_order p
                   | None => 1%Z
                   end)
  else if String.eqb sort_by "created_at" then Some t_created_at
  else if String.eqb sort_by "updated_at" then Some t_updated_at
  else None.

(** [list(status, priority, page, page_size, sort_by, sort_order)]. *)
Definition list_ (status : option TaskStatus) (priority : option TaskPriority)
    (page page_size : Z) (sort_by sort_order : string) (s : TaskStore)
  : py_exn + (list Task * nat) :=
  let tasks := map snd (_tasks s) in
  let tasks := List.filter (matches status priority) tasks in
  let total := length tasks in
  match sort_tasks sort_by sort_order tasks with
  | inl e => inl e
  | inr tasks =>
      let start := ((page - 1) * page_size)%Z in
      inr (py_slice tasks start (start + page_size), total)
  end.

(** *** The routes of [kiro/routes_tasks.py] that answer 404 *)

Definition not_found : py_exn := HTTPException 404 "Task not found".

(** [get_task]. *)
Definition get_task (task_id : string) : M TaskStore Task :=
  fun s =>
    match get task_id s with
    | Some task => (inr task, s)
    | None => (inl not_found, s)
    end.

(** [update_task]. *)
Definition update_task (now : Z) (task_id : string) (data : TaskCreate)
  : M TaskStore Task :=
  fun s =>
    match update now task_id data s with
    | (Some task, s') => (inr task, s')
    | (None, s') => (inl not_found, s')
    end.

(** [patch_task]. *)
Definition patch_task (now : Z) (task_id : string) (data : TaskPatch)
  : M TaskStore Task :=
  fun s =>
    match patch now task_id data s with
    | (Some task, s') => (inr task, s')
    | (None, s') => (inl not_found, s')
    end.

(** [delete_task]. *)
Definition delete_task_route (task_id : string) : M TaskStore unit :=
  fun s =>
    match delete_task task_id s with
    | (true, s') => (inr tt, s')
    | (false, s') => (inl not_found, s')
    end.

(** The stores a process can hold: the empty one, and what the methods
    make of it. *)
Inductive reachable : TaskStore -> Prop :=
| reach_init : reachable {| _tasks := [] |}
| reach_create uuid4 now_created now_updated data s :
    reachable s -> reachable (snd (create uuid4 now_created now_updated data s))
| reach_update now task_id data s :
    reachable s -> reachable (snd (update now task_id data s))
| reach_patch now task_id data s :
    reachable s -> reachable (snd (patch now task_id data s))
| reach_delete task_id s :
    reachable s -> reachable (snd (delete_task task_id s)).

(** A sample request body and store. *)
Definition sample_create (title : string) (priority : TaskPriority)
  : TaskCreate :=
  {| tc_title := title; tc_description := None; tc_status := pending;
     tc_priority := priority |}.

Definition sample_store : TaskStore :=
  snd (create "t3" 30 30 (sample_create "ship" high)
         (snd (create "t2" 20 20 (sample_create "test" low)
                 (snd (create "t1" 10 10 (sample_create "write" medium)
                         {| _tasks := [] |}))))).

End Tasks.

(** ** Proof tools *)

(** Closes a conjunction of one list equation and two counter equations. *)
Ltac frame_triple :=
  split; [ rewrite <- ?app_assoc; reflexivity | split; simpl; lia ].

(** Unfolds the monad's operations. *)
Ltac unfold_monad :=
  unfold Py.bind, Py.ret, Py.raise, Py.attempt, Py.modify, Py.get in *.

(* ===================================================================== *)
(** * Part II: the properties                                             *)
(* ===================================================================== *)

Module TruncationProps.
Import Py Models Truncation.

Section Repair.
Context `{R : Registry}.

Lemma assistant_branch_frame st msg :
  modified_messages (assistant_branch st msg) =
    modified_messages st ++ modified_messages (assistant_branch loop_init msg) /\
  tool_results_modified (assistant_branch st msg) =
    tool_results_modified st + tool_results_modified (assistant_branch loop_init msg) /\
  content_notices_added (assistant_branch st msg) =
    content_notices_added st + content_notices_added (assistant_branch loop_init msg).
Proof.
  unfold assistant_branch.
  destruct (content msg) as [|[|a s]|j]; simpl; try solve [frame_triple].
  destruct (String.eqb (role msg) "assistant"); simpl; try solve [frame_triple].
  destruct (get_content_truncation (String a s)); simpl; frame_triple.
Qed.

Lemma loop_body_frame st msg :
  modified_messages (loop_body st msg) = modified_messages st ++ emitted msg /\
  tool_results_modified (loop_body st msg) =
    tool_results_modified st + tool_results_modified (loop_body loop_init msg) /\
  content_notices_added (loop_body st msg) =
    content_notices_added st + content_notices_added (loop_body loop_init msg).
Proof.
  unfold emitted, loop_body.
  destruct (String.eqb (role msg) "tool" && truthy_str (tool_call_id msg));
    [|apply assistant_branch_frame].
  destruct (tool_call_id msg) as [id|]; [|apply assistant_branch_frame].
  destruct (get_tool_truncation id); [|apply assistant_branch_frame].
  simpl. frame_triple.
Qed.

Lemma fold_loop_body msgs st :
  modified_messages (fold_left loop_body msgs st) =
    modified_messages st ++ concat (map emitted msgs) /\
  tool_results_modified (fold_left loop_body msgs st) +
  content_notices_added (fold_left loop_body msgs st) =
    tool_results_modified st + content_notices_added st +
    list_sum (map touched msgs) /\
  content_notices_added (fold_left loop_body msgs st) =
    content_notices_added st +
    list_sum (map (fun m => content_notices_added (loop_body loop_init m)) msgs).
Proof.
  revert st. induction msgs as [|m msgs IH]; intros st; simpl.
  - rewrite app_nil_r. split; [reflexivity | split; lia].
  - destruct (IH (loop_body st m)) as (Hm & Hc & Hn).
    destruct (loop_body_frame st m) as (Hm' & Ht' & Hn').
    rewrite Hm, Hc, Hn, Hm', Ht', Hn'. unfold touched.
    rewrite <- app_assoc. split; [reflexivity | split; lia].
Qed.

Lemma recovery_loop_messages msgs :
  modified_messages (recovery_loop msgs) = concat (map emitted msgs).
Proof. unfold recovery_loop. now destruct (fold_loop_body msgs loop_init) as (-> & _). Qed.

Lemma recovery_loop_touched msgs :
  tool_results_modified (recovery_loop msgs) +
  content_notices_added (recovery_loop msgs) = list_sum (map touched msgs).
Proof. unfold recovery_loop. now destruct (fold_loop_body msgs loop_init) as (_ & -> & _). Qed.

Lemma tool_hit_spec msg id info :
  tool_hit msg = Some (id, info) <-> tool_match msg id info.
Proof.
  unfold tool_hit, tool_match. split.
  - destruct (String.eqb (role msg) "tool") eqn:Hr; simpl; [|discriminate].
    apply String.eqb_eq in Hr.
    destruct (tool_call_id msg) as [[|c r]|]; simpl; try discriminate.
    destruct (get_tool_truncation (String c r)) eqn:Hg; simpl; [|discriminate].
    intros [= <- <-]. repeat split; auto; discriminate.
  - intros (Hr & Hid & Hne & Hg). rewrite Hr, Hid. simpl.
    destruct id as [|c r]; [congruence|]. simpl. now rewrite Hg.
Qed.

Lemma assistant_hit_spec msg s :
  assistant_hit msg = Some s <-> assistant_match msg s.
Proof.
  unfold assistant_hit, assistant_match. split.
  - destruct (content msg) as [|[|a t]|j]; try discriminate.
    destruct (String.eqb (role msg) "assistant") eqn:Hr; [|discriminate].
    apply String.eqb_eq in Hr.
    destruct (get_content_truncation (String a t)) eqn:Hg; [|discriminate].
    intros [= <-]. repeat split; eauto; discriminate.
  - intros (Hr & Hc & Hne & [i Hg]). rewrite Hc, Hr. simpl.
    destruct s as [|a t]; [congruence|]. now rewrite Hg.
Qed.

Lemma assistant_branch_cases msg :
  modified_messages (assistant_branch loop_init msg) =
    match assistant_hit msg with
    | Some _ => [msg; synthetic_user]
    | None => [msg]
    end /\
  tool_results_modified (assistant_branch loop_init msg) = 0 /\
  content_notices_added (assistant_branch loop_init msg) =
    match assistant_hit msg with Some _ => 1 | None => 0 end.
Proof.
  unfold assistant_branch, assistant_hit.
  destruct (content msg) as [|[|a t]|j]; simpl; auto.
  destruct (String.eqb (role msg) "assistant"); simpl; auto.
  destruct (get_content_truncation (String a t)); simpl; auto.
Qed.

Lemma loop_body_cases msg :
  emitted msg =
    match tool_hit msg with
    | Some (id, info) => [rewritten msg id info]
    | None => match assistant_hit msg with
              | Some _ => [msg; synthetic_user]
              | None => [msg]
              end
    end /\
  touched msg = (if hit msg then 1 else 0) /\
  content_notices_added (loop_body loop_init msg) =
    match tool_hit msg, assistant_hit msg with
    | None, Some _ => 1
    | _, _ => 0
    end.
Proof.
  unfold emitted, touched, hit, loop_body, tool_hit.
  destruct (assistant_branch_cases msg) as (Hm & Ht & Hn).
  destruct (String.eqb (role msg) "tool" && truthy_str (tool_call_id msg)).
  - destruct (tool_call_id msg) as [id|].
    + destruct (get_tool_truncation id); simpl.
      * repeat split; reflexivity.
      * rewrite Hm, Ht, Hn. destruct (assistant_hit msg); auto.
    + rewrite Hm, Ht, Hn. destruct (assistant_hit msg); auto.
  - rewrite Hm, Ht, Hn. destruct (assistant_hit msg); auto.
Qed.

Lemma emitted_emission msg : emission msg (emitted msg).
Proof.
  destruct (loop_body_cases msg) as (-> & _).
  destruct (tool_hit msg) as [[id info]|] eqn:Ht.
  - apply emit_rewritten. now apply tool_hit_spec.
  - assert (Hno : forall id info, ~ tool_match msg id info).
    { intros id info Hm. apply tool_hit_spec in Hm. congruence. }
    destruct (assistant_hit msg) as [s|] eqn:Ha.
    + apply emit_with_notice with s; [exact Hno | now apply assistant_hit_spec].
    + apply emit_unchanged; [exact Hno |].
      intros s Hm. apply assistant_hit_spec in Hm. congruence.
Qed.

Lemma emitted_miss msg : hit msg = false -> emitted msg = [msg].
Proof.
  intros Hh. destruct (loop_body_cases msg) as (-> & _). unfold hit in Hh.
  destruct (tool_hit msg) as [[? ?]|]; [discriminate|].
  now destruct (assistant_hit msg).
Qed.

Lemma concat_emitted_miss msgs :
  existsb hit msgs = false -> List.concat (map emitted msgs) = msgs.
Proof.
  induction msgs as [|m msgs IH]; simpl; [reflexivity|].
  intros [Hm Hr]%orb_false_iff. now rewrite emitted_miss, IH.
Qed.

Lemma touched_sum_zero msgs :
  list_sum (map touched msgs) = 0 <-> existsb hit msgs = false.
Proof.
  induction msgs as [|m msgs IH]; simpl; [tauto|].
  destruct (loop_body_cases m) as (_ & -> & _).
  destruct (hit m); simpl; [split; [lia | discriminate] | exact IH].
Qed.

(** The messages the handler goes on with are the loop's output in every
    case: when nothing was modified the loop rebuilt the input. *)
Lemma repair_concat msgs : repair msgs = List.concat (map emitted msgs).
Proof.
  unfold repair.
  destruct ((0 <? tool_results_modified (recovery_loop msgs))%nat
            || (0 <? content_notices_added (recovery_loop msgs))%nat) eqn:Hc.
  - apply recovery_loop_messages.
  - apply orb_false_iff in Hc as [H1%Nat.ltb_ge H2%Nat.ltb_ge].
    symmetry. apply concat_emitted_miss, touched_sum_zero.
    rewrite <- recovery_loop_touched. lia.
Qed.

Lemma string_length_append (a b : string) :
  String.length (a +:+ b) = String.length a + String.length b.
Proof. induction a as [|c a IH]; simpl; [reflexivity | now rewrite IH]. Qed.

Lemma weight_app (l1 l2 : list ChatMessage) :
  weight (l1 ++ l2) = weight l1 + weight l2.
Proof. unfold weight. now rewrite map_app, list_sum_app. Qed.

Lemma weight_emitted msg :
  weight [msg] <= weight (emitted msg) /\
  (hit msg = true -> weight [msg] < weight (emitted msg)).
Proof.
  destruct (loop_body_cases msg) as (-> & _). unfold hit.
  destruct (tool_hit msg) as [[id info]|].
  - unfold weight, rewritten. simpl.
    rewrite !string_length_append. simpl. split; intros; lia.
  - destruct (assistant_hit msg); unfold weight; simpl.
    + split; intros; lia.
    + split; [lia | discriminate].
Qed.

Lemma weight_concat_emitted msgs :
  weight msgs <= weight (List.concat (map emitted msgs)) /\
  (existsb hit msgs = true ->
   weight msgs < weight (List.concat (map emitted msgs))).
Proof.
  induction msgs as [|m msgs [IHle IHlt]]; simpl.
  - split; [lia | discriminate].
  - rewrite weight_app. change (m :: msgs) with ([m] ++ msgs).
    rewrite weight_app. destruct (weight_emitted m) as [Hle Hlt].
    split; [lia|]. intros [Hm | Hr]%orb_true_iff.
    + specialize (Hlt Hm). lia.
    + specialize (IHlt Hr). lia.
Qed.

Lemma hit_emitted msg : hit msg = true -> existsb hit (emitted msg) = true.
Proof.
  intros Hh. destruct (loop_body_cases msg) as (-> & _).
  destruct (tool_hit msg) as [[id info]|] eqn:Ht.
  - simpl. rewrite orb_false_r. unfold hit.
    assert (Hm : tool_match (rewritten msg id info) id info).
    { apply tool_hit_spec in Ht. exact Ht. }
    apply tool_hit_spec in Hm. now rewrite Hm.
  - unfold hit in Hh. rewrite Ht in Hh.
    destruct (assistant_hit msg) eqn:Ha; [|discriminate].
    simpl. unfold hit at 1. now rewrite Ht, Ha.
Qed.

Lemma hit_concat_emitted msgs :
  existsb hit msgs = true ->
  existsb hit (List.concat (map emitted msgs)) = true.
Proof.
  induction msgs as [|m msgs IH]; simpl; [discriminate|].
  rewrite existsb_app. intros [Hm | Hr]%orb_true_iff.
  - now rewrite hit_emitted.
  - rewrite IH by exact Hr. apply orb_true_r.
Qed.

(** C4.  The repair never drops a message and keeps the original order: its
    output is the concatenation, in input order, of what each message
    contributes, which is the rewritten tool result, or the message followed
    by one synthetic user notice (only for a matching assistant text), or
    the message itself.  So the output is longer than the input by exactly
    the number of notices added, and there are at most as many notices as
    assistant messages. *)
Theorem repair_keeps_messages_in_order (msgs : list ChatMessage) :
  (exists outs : list (list ChatMessage),
      Forall2 emission msgs outs /\ repair msgs = List.concat outs) /\
  length (repair msgs) =
    length msgs + content_notices_added (recovery_loop msgs) /\
  content_notices_added (recovery_loop msgs) <=
    length (List.filter (fun m => String.eqb (role m) "assistant") msgs).
Proof.
  split; [|split].
  - exists (map emitted msgs). split; [|apply repair_concat].
    induction msgs as [|m msgs IH]; simpl; constructor; auto.
    apply emitted_emission.
  - rewrite repair_concat. unfold recovery_loop.
    destruct (fold_loop_body msgs loop_init) as (_ & _ & ->). simpl.
    induction msgs as [|m msgs IH]; simpl; [reflexivity|].
    rewrite length_app, IH.
    destruct (loop_body_cases m) as (-> & _ & ->).
    destruct (tool_hit m) as [[? ?]|]; [simpl; lia|].
    destruct (assistant_hit m); simpl; lia.
  - unfold recovery_loop.
    destruct (fold_loop_body msgs loop_init) as (_ & _ & ->). simpl.
    induction msgs as [|m msgs IH]; simpl; [lia|].
    destruct (loop_body_cases m) as (_ & _ & ->).
    destruct (tool_hit m) as [[? ?]|].
    + destruct (String.eqb (role m) "assistant"); simpl; lia.
    + destruct (assistant_hit m) as [s|] eqn:Ha.
      * apply assistant_hit_spec in Ha as (-> & _). simpl. lia.
      * destruct (String.eqb (role m) "assistant"); simpl; lia.
Qed.

(** C3 (as amended).  Against an unchanged registry a second run of the
    repair returns the result of the first exactly when the first run found
    nothing to repair (both counters are zero, and the repair is then the
    identity); otherwise the second run rewrites the matching tool results
    and inserts the notices once more. *)
Theorem repair_twice_iff_nothing_repaired (msgs : list ChatMessage) :
  (repair (repair msgs) = repair msgs <->
   tool_results_modified (recovery_loop msgs) = 0 /\
   content_notices_added (recovery_loop msgs) = 0) /\
  (tool_results_modified (recovery_loop msgs) = 0 /\
   content_notices_added (recovery_loop msgs) = 0 -> repair msgs = msgs).
Proof.
  assert (Hzero : tool_results_modified (recovery_loop msgs) = 0 /\
                  content_notices_added (recovery_loop msgs) = 0 <->
                  existsb hit msgs = false).
  { rewrite <- touched_sum_zero, <- recovery_loop_touched. lia. }
  assert (Hid : existsb hit msgs = false -> repair msgs = msgs).
  { intros Hh. rewrite repair_concat. now apply concat_emitted_miss. }
  split; [|intros Hz; apply Hid, Hzero, Hz].
  rewrite Hzero. split.
  - intros Heq. destruct (existsb hit msgs) eqn:Hh; [exfalso | reflexivity].
    rewrite !repair_concat in Heq.
    apply hit_concat_emitted in Hh.
    destruct (weight_concat_emitted (List.concat (map emitted msgs)))
      as [_ Hlt].
    specialize (Hlt Hh). rewrite Heq in Hlt. lia.
  - intros Hh. now rewrite !(Hid Hh).
Qed.

(** C5.  A tool message with a non-empty call id for which the registry
    holds a record is replaced, at its own position, by a copy whose content
    is exactly the synthesized notice, then the literal of line 218 (two
    line feeds, three dashes, two line feeds, [Original tool result:], one
    line feed), then the original content as Python prints it, which is
    the text itself when the content is text; every other field is kept. *)
Theorem repair_rewrites_tool_result
    (pre post : list ChatMessage) (msg : ChatMessage) (id : string)
    (info : ToolTruncationInfo) :
  tool_match msg id info ->
  repair (pre ++ msg :: post) =
    repair pre ++
    [ {| role := role msg;
         content :=
           CText (generate_truncation_tool_result (tool_name info) id
                    (truncation_info info)
                  +:+ (String "010" (String "010" ("---" +:+
                         String "010" (String "010" ("Original tool result:" +:+
                           String "010" EmptyString)))))
                  +:+ py_str (content msg));
         name := name msg; tool_calls := tool_calls msg;
         tool_call_id := tool_call_id msg |} ] ++
    repair post /\
  (forall s, content msg = CText s ->
     repair (pre ++ msg :: post) =
       repair pre ++
       [ {| role := role msg;
            content :=
              CText (generate_truncation_tool_result (tool_name info) id
                       (truncation_info info)
                     +:+ (String "010" (String "010" ("---" +:+
                            String "010" (String "010" ("Original tool result:" +:+
                              String "010" EmptyString)))))
                     +:+ s);
            name := name msg; tool_calls := tool_calls msg;
            tool_call_id := tool_call_id msg |} ] ++
       repair post).
Proof.
  intros Hm.
  assert (Hrun : repair (pre ++ msg :: post) =
                 repair pre ++ [rewritten msg id info] ++ repair post).
  { rewrite !repair_concat, map_app, concat_app. simpl.
    destruct (loop_body_cases msg) as (-> & _).
    apply tool_hit_spec in Hm. now rewrite Hm. }
  split.
  - rewrite Hrun. reflexivity.
  - intros s Hs. rewrite Hrun. unfold rewritten, model_copy_content.
    rewrite Hs. reflexivity.
Qed.

End Repair.

(** The separator is the literal of the source. *)
Lemma separator_literal :
  separator =
  String (ascii_of_nat 10) (String (ascii_of_nat 10)
    ("---" +:+ String (ascii_of_nat 10) (String (ascii_of_nat 10)
       ("Original tool result:" +:+ String (ascii_of_nat 10) "")))).
Proof. reflexivity. Qed.

(** A conversation with a truncated assistant text and a truncated tool
    call: the notice follows the assistant message, the tool result is
    rewritten in place, the user message is untouched. *)
Example repair_sample_conversation :
  repair (H := sample_registry)
    [ mk_message "user" (CText "go on");
      mk_message "assistant" (CText "partial answer");
      sample_tool_result ] =
    [ mk_message "user" (CText "go on");
      mk_message "assistant" (CText "partial answer");
      mk_message "user" (CText "[System Notice] truncated");
      rewritten (H := sample_registry) sample_tool_result "call_1" sample_tool_info ].
Proof. vm_compute. reflexivity. Qed.

(** C3, counterexample.  With a registry that knows call [call_1], the
    tool result of that call gets the notice prepended by the first run and
    prepended again by the second: the two results differ. *)
Lemma repair_not_idempotent :
  repair (H := sample_registry) (repair (H := sample_registry) [sample_tool_result])
  <> repair (H := sample_registry) [sample_tool_result].
Proof. vm_compute. discriminate. Qed.

Lemma repair_twice_iff_nothing_repaired_witness :
  repair (H := sample_registry) [mk_message "user" (CText "hello")] =
    [mk_message "user" (CText "hello")].
Proof.
  apply (repair_twice_iff_nothing_repaired (R := sample_registry)
           [mk_message "user" (CText "hello")]).
  split; reflexivity.
Defined.

Lemma repair_rewrites_tool_result_witness :
  tool_match (H := sample_registry) sample_tool_result "call_1" sample_tool_info /\
  repair (H := sample_registry) [sample_tool_result] =
    [ {| role := "tool";
         content :=
           CText ("[API Limitation] write_file call_1" +:+
                  (String "010" (String "010" ("---" +:+
                     String "010" (String "010" ("Original tool result:" +:+
                       String "010" EmptyString))))) +:+
                  "ok");
         name := None; tool_calls := None; tool_call_id := Some "call_1" |} ].
Proof.
  split.
  - repeat split; discriminate.
  - destruct (repair_rewrites_tool_result (R := sample_registry) [] []
                sample_tool_result "call_1" sample_tool_info) as [_ Htext].
    + repeat split; discriminate.
    + exact (Htext "ok" eq_refl).
Defined.

End TruncationProps.

Module HistoryProps.
Import History.

Lemma removelast_firstn_length {A} (l : list A) :
  removelast l = firstn (length l - 1) l.
Proof.
  induction l as [|x l IH]; [reflexivity|].
  destruct l as [|y l]; [reflexivity|].
  change (removelast (x :: y :: l)) with (x :: removelast (y :: l)).
  rewrite IH. simpl. now rewrite Nat.sub_0_r.
Qed.

Lemma deque_append_bound {A} maxlen (d : list A) x :
  length d <= maxlen -> length (deque_append maxlen d x) <= maxlen.
Proof.
  intros Hd. unfold deque_append.
  destruct (maxlen <? length (d ++ [x]))%nat eqn:Hlt.
  - rewrite length_app in Hlt. simpl in Hlt.
    destruct d as [|y d]; simpl in *; [lia|].
    rewrite length_app. simpl. lia.
  - apply Nat.ltb_ge in Hlt. exact Hlt.
Qed.

Lemma deque_appendleft_firstn {A} maxlen (d : list A) x :
  length d <= maxlen -> deque_appendleft maxlen d x = firstn maxlen (x :: d).
Proof.
  intros Hd. unfold deque_appendleft.
  destruct (maxlen <? length (x :: d))%nat eqn:Hlt.
  - apply Nat.ltb_lt in Hlt. simpl in Hlt.
    rewrite removelast_firstn_length. f_equal. simpl. lia.
  - apply Nat.ltb_ge in Hlt. symmetry. now apply firstn_all2.
Qed.

Lemma init_shape max_size file :
  _max_size (init max_size file) = max_size /\
  length (_records (init max_size file)) <= max_size.
Proof.
  unfold init, _load. simpl. destruct file as [data|]; simpl; [|split; [reflexivity | lia]].
  split; [reflexivity|].
  assert (H : forall d : list entry, length d <= max_size ->
                length (fold_left (deque_append max_size) data d) <= max_size).
  { induction data as [|e data IH]; simpl; intros d Hd; [exact Hd|].
    apply IH, deque_append_bound, Hd. }
  apply H. simpl. lia.
Qed.

Lemma record_shape h c :
  length (_records h) <= _max_size h ->
  _max_size (snd (record h c)) = _max_size h /\
  _records (snd (record h c)) = firstn (_max_size h) (entry_of c :: _records h).
Proof.
  intros Hb. simpl. split; [reflexivity|]. now apply deque_appendleft_firstn.
Qed.

Lemma firstn_app_firstn {A} n m (l1 l2 : list A) :
  n <= m -> firstn n (l1 ++ firstn m l2) = firstn n (l1 ++ l2).
Proof.
  revert n. induction l1 as [|x l1 IH]; intros n Hnm; simpl.
  - rewrite firstn_firstn. f_equal. lia.
  - destruct n; simpl; [reflexivity|]. f_equal. apply IH. lia.
Qed.

Lemma record_all_shape cs h :
  length (_records h) <= _max_size h ->
  _max_size (record_all h cs) = _max_size h /\
  _records (record_all h cs) =
    firstn (_max_size h) (rev (map entry_of cs) ++ _records h).
Proof.
  revert h. induction cs as [|c cs IH]; intros h Hb; simpl.
  - split; [reflexivity|]. symmetry. now apply firstn_all2.
  - destruct (record_shape h c Hb) as [Hm Hr].
    destruct (IH (snd (record h c))) as [Hm' Hr'].
    { rewrite Hm, Hr. rewrite length_firstn. lia. }
    unfold record_all in *. simpl in *. rewrite Hm', Hr'.
    split; [reflexivity|].
    rewrite deque_appendleft_firstn by exact Hb.
    rewrite firstn_app_firstn by lia.
    now rewrite <- app_assoc.
Qed.

(** C9.  From any store as [__init__] builds it (whatever the history file
    held) and after any sequence of [record] calls, the buffer holds at most
    [max_size] entries, most recent first: it is the calls' entries in
    reverse order followed by the loaded ones, cut to [max_size].  One more
    call puts its entry in front and cuts again at [max_size]: the entry is
    simply added while there is room, and on a full buffer the last, oldest
    entry is dropped. *)
Theorem history_bounded_most_recent_first
    (max_size : nat) (file : option (list entry)) (cs : list call) (c : call) :
  length (_records (record_all (init max_size file) cs)) <= max_size /\
  _records (record_all (init max_size file) cs) =
    firstn max_size (rev (map entry_of cs) ++ _records (init max_size file)) /\
  _records (snd (record (record_all (init max_size file) cs) c)) =
    firstn max_size
      (entry_of c :: _records (record_all (init max_size file) cs)) /\
  (length (_records (record_all (init max_size file) cs)) < max_size ->
   _records (snd (record (record_all (init max_size file) cs) c)) =
     entry_of c :: _records (record_all (init max_size file) cs)) /\
  (0 < max_size ->
   length (_records (record_all (init max_size file) cs)) = max_size ->
   _records (snd (record (record_all (init max_size file) cs) c)) =
     entry_of c ::
     removelast (_records (record_all (init max_size file) cs))).
Proof.
  destruct (init_shape max_size file) as [Hm0 Hb0].
  destruct (record_all_shape cs (init max_size file)) as [Hm Hr];
    [now rewrite Hm0 |].
  rewrite Hm0 in *.
  set (h := record_all (init max_size file) cs) in *.
  assert (Hb : length (_records h) <= max_size).
  { rewrite Hr, length_firstn. lia. }
  assert (Hrec : _records (snd (record h c)) =
                 firstn max_size (entry_of c :: _records h)).
  { destruct (record_shape h c) as [_ Hx]; [now rewrite Hm|].
    now rewrite Hm in Hx. }
  split; [exact Hb|]. split; [exact Hr|]. split; [exact Hrec|]. split.
  - intros Hlt. rewrite Hrec. apply firstn_all2. simpl. lia.
  - intros Hpos Hfull. rewrite Hrec.
    destruct max_size as [|n]; [lia|]. simpl. f_equal.
    rewrite removelast_firstn_length. f_equal. lia.
Qed.

Lemma history_bounded_most_recent_first_witness :
  _records (snd (record (record_all (init 2 None)
                           [sample_call 200; sample_call 404])
                        (sample_call 500))) =
    [entry_of (sample_call 500); entry_of (sample_call 404)].
Proof.
  destruct (history_bounded_most_recent_first 2 None
              [sample_call 200; sample_call 404] (sample_call 500))
    as (_ & _ & _ & _ & Hfull).
  apply Hfull; [lia | reflexivity].
Defined.

End HistoryProps.

Module ApiKeysProps.
Import ApiKeys.

Lemma verify_entries_true (entries : list ApiKeyEntry) (token : string) :
  verify_entries entries token = true <->
  exists e, e ∈ entries /\ ak_enabled e = true /\ ak_key e = token.
Proof.
  induction entries as [|e rest IH]; simpl.
  - split; [discriminate | intros (e & He & _); inversion He].
  - destruct (ak_enabled e && String.eqb (ak_key e) token) eqn:Hc.
    + apply andb_true_iff in Hc as [Hen Hk%String.eqb_eq].
      split; [intros _ | reflexivity]. exists e. split; [left | auto].
    + rewrite IH. split.
      * intros (e' & Hin & H'). exists e'. split; [now right | exact H'].
      * intros (e' & Hin & Hen & Hk). inversion Hin; subst.
        -- rewrite Hen, String.eqb_refl in Hc. discriminate.
        -- exists e'. auto.
Qed.

(** C10.  [verify_key] accepts a bearer token exactly when it is the
    environment's [PROXY_API_KEY] or the key of some stored entry whose
    [enabled] flag is set; so a token that only disabled entries carry, and
    that is not the environment key, is rejected. *)
Theorem verify_key_accepts_iff
    (PROXY_API_KEY : string) (_keys : gmap string ApiKeyEntry)
    (bearer_token : string) :
  (verify_key PROXY_API_KEY _keys bearer_token = true <->
   bearer_token = PROXY_API_KEY \/
   exists id e, _keys !! id = Some e /\ ak_enabled e = true /\
                ak_key e = bearer_token) /\
  (bearer_token <> PROXY_API_KEY ->
   (forall id e, _keys !! id = Some e -> ak_key e = bearer_token ->
                 ak_enabled e = false) ->
   verify_key PROXY_API_KEY _keys bearer_token = false).
Proof.
  assert (Hiff : verify_key PROXY_API_KEY _keys bearer_token = true <->
    bearer_token = PROXY_API_KEY \/
    exists id e, _keys !! id = Some e /\ ak_enabled e = true /\
                 ak_key e = bearer_token).
  { unfold verify_key.
    destruct (String.eqb bearer_token PROXY_API_KEY) eqn:Hp.
    - apply String.eqb_eq in Hp. tauto.
    - apply String.eqb_neq in Hp. rewrite verify_entries_true. split.
      + intros (e & Hin & Hen & Hk). right.
        apply list_elem_of_fmap in Hin as ([id e'] & -> & Hin).
        apply elem_of_map_to_list in Hin. exists id, e'. auto.
      + intros [Heq | (id & e & Hl & Hen & Hk)]; [contradiction|].
        exists e. split; [|auto].
        apply list_elem_of_fmap. exists (id, e). split; [reflexivity|].
        now apply elem_of_map_to_list. }
  split; [exact Hiff|].
  intros Hne Hdis.
  apply not_true_is_false. intros Hv.
  apply Hiff in Hv as [Heq | (id & e & Hl & Hen & Hk)]; [contradiction|].
  rewrite (Hdis id e Hl Hk) in Hen. discriminate.
Qed.

(** A key is accepted while it is enabled and refused once disabled. *)
Example disabled_key_is_refused :
  let enabled := {| ak_id := "k1"; ak_name := "laptop"; ak_key := "sk-1";
                    ak_created_at := "2025-01-01T00:00:00+00:00";
                    ak_enabled := true |} in
  verify_key "env-key" {[ "k1" := enabled ]} "sk-1" = true /\
  verify_key "env-key"
    (snd (update_key "k1" None (Some false) {[ "k1" := enabled ]})) "sk-1" = false /\
  verify_key "env-key"
    (snd (update_key "k1" None (Some false) {[ "k1" := enabled ]})) "env-key" = true.
Proof. vm_compute. repeat split; reflexivity. Qed.

Lemma verify_key_accepts_iff_witness :
  verify_key "env-key" {[ "k1" := sample_disabled_key ]} "sk-1" = false.
Proof.
  apply (verify_key_accepts_iff "env-key" {[ "k1" := sample_disabled_key ]} "sk-1").
  - discriminate.
  - intros id e Hl _. apply lookup_singleton_Some in Hl as [_ <-]. reflexivity.
Defined.

End ApiKeysProps.

Module ResponseStoreProps.
Import Py Models ResponseStore.

Lemma lookup_fold_delete (ids : list string) (m : gmap string state)
    (k : string) :
  fold_left (fun m rid => delete rid m) ids m !! k =
    if decide (k ∈ ids) then None else m !! k.
Proof.
  revert m. induction ids as [|i ids IH]; intros m; simpl.
  - destruct (decide (k ∈ [])) as [H|H]; [inversion H | reflexivity].
  - rewrite IH.
    destruct (decide (k ∈ ids)) as [H1|H1];
      destruct (decide (k ∈ i :: ids)) as [H2|H2]; try reflexivity.
    + exfalso. apply H2. now right.
    + apply elem_of_cons in H2 as [->|?]; [|contradiction].
      apply lookup_delete_eq.
    + apply lookup_delete_ne. intros ->. apply H2. now left.
Qed.

Lemma elem_of_collect_expired cutoff (l : list (string * state))
    (acc : list string) (k : string) :
  k ∈ fold_left (collect_expired cutoff) l acc <->
  k ∈ acc \/ exists st, (k, st) ∈ l /\ is_before cutoff st <> inr false.
Proof.
  revert acc. induction l as [|[rid st] l IH]; intros acc; simpl.
  - split; [auto | intros [H | (st & H & _)]; [exact H | inversion H]].
  - rewrite IH. unfold collect_expired. simpl. split.
    + intros [Hacc | (st' & Hin & Hb)].
      * destruct (is_before cutoff st) as [e|[|]] eqn:Hst;
          try (apply elem_of_app in Hacc as [Hacc | ->%list_elem_of_singleton]);
          auto; right; exists st; (split; [left | congruence]).
      * right. exists st'. split; [now right | exact Hb].
    + intros [Hacc | (st' & Hin & Hb)].
      * left. destruct (is_before cutoff st) as [e|[|]];
          try apply elem_of_app; auto.
      * apply elem_of_cons in Hin as [[= -> ->] | Hin].
        -- left. destruct (is_before cutoff st) as [e|[|]];
             try (apply elem_of_app; right; now left). congruence.
        -- right. exists st'. auto.
Qed.

(** What the sweep leaves under each identifier. *)
Lemma sweep_lookup (cutoff : datetime) (s : ResponseStateStore) (rid : string) :
  _states (sweep cutoff s) !! rid =
    match _states s !! rid with
    | Some st => match is_before cutoff st with
                 | inr false => Some st
                 | _ => None
                 end
    | None => None
    end.
Proof.
  assert (Hst : _states (sweep cutoff s) =
                fold_left (fun m rid => delete rid m) (expired_ids_of cutoff s)
                          (_states s)).
  { unfold sweep. now destruct (expired_ids_of cutoff s). }
  rewrite Hst, lookup_fold_delete. unfold expired_ids_of.
  destruct (decide (rid ∈ _)) as [Hin|Hin].
  - apply elem_of_collect_expired in Hin as [Hin | (st & Hin & Hb)];
      [inversion Hin|].
    apply elem_of_map_to_list in Hin. rewrite Hin.
    destruct (is_before cutoff st) as [e|[|]]; congruence.
  - destruct (_states s !! rid) as [st|] eqn:Hl; [|reflexivity].
    destruct (is_before cutoff st) as [e|[|]] eqn:Hb;
      try reflexivity; exfalso; apply Hin, elem_of_collect_expired; right;
      exists st; (split; [now apply elem_of_map_to_list | congruence]).
Qed.

(** When the sweep runs, its cutoff is [now - max_age_days]. *)
Lemma cleanup_cutoff (now : Z) (s s' : ResponseStateStore) :
  _cleanup_expired now s = inr s' ->
  s' = sweep (Aware (now - _max_age_days s * 86400000000)) s.
Proof.
  unfold _cleanup_expired, cutoff_of, timedelta_days, datetime_sub.
  destruct (Z.abs (_max_age_days s) <=? 999999999)%Z; [|discriminate].
  destruct ((datetime_min <=? _) && (_ <=? datetime_max))%Z; [|discriminate].
  now intros [= <-].
Qed.

(** The sweep runs whenever the cutoff is a representable date, in
    particular for the default of seven days at any date of this era. *)
Lemma cleanup_runs (now : Z) (s : ResponseStateStore) :
  (Z.abs (_max_age_days s) <= 999999999)%Z ->
  (datetime_min <= now - _max_age_days s * 86400000000 <= datetime_max)%Z ->
  _cleanup_expired now s =
    inr (sweep (Aware (now - _max_age_days s * 86400000000)) s).
Proof.
  intros Hd [Hlo Hhi].
  unfold _cleanup_expired, cutoff_of, timedelta_days, datetime_sub.
  apply Z.leb_le in Hd, Hlo, Hhi. now rewrite Hd, Hlo, Hhi.
Qed.

(** C6 (as amended).  The sweep removes a stored record exactly when its
    timestamp, which is [last_accessed] or, for a record without that key,
    [created_at], is an offset-carrying time strictly before
    [now - max_age_days], or is not such a time at all (missing, not an ISO
    string, or without a UTC offset, so that the comparison with the cutoff
    fails).  A record that stays is unchanged, and a record whose
    [last_accessed] equals the cutoff stays. *)
Theorem sweep_removes_iff
    (now : Z) (s s' : ResponseStateStore) (rid : string) (st : state) :
  _cleanup_expired now s = inr s' ->
  _states s !! rid = Some st ->
  (_states s' !! rid = None <->
   match timestamp_field st with
   | Some (Iso (Aware t)) => (t < now - _max_age_days s * 86400000000)%Z
   | Some (Iso (Naive _)) => True
   | Some NotIso => True
   | None => True
   end) /\
  (_states s' !! rid <> None -> _states s' !! rid = Some st) /\
  (last_accessed st =
     Some (Iso (Aware (now - _max_age_days s * 86400000000))) ->
   _states s' !! rid = Some st).
Proof.
  intros Hrun Hl. rewrite (cleanup_cutoff _ _ _ Hrun), sweep_lookup, Hl.
  unfold is_before, timestamp_field.
  split; [|split].
  - destruct (last_accessed st) as [[[t|t]|]|]; simpl.
    + destruct (Z.ltb_spec t (now - _max_age_days s * 86400000000)); split;
        auto; try discriminate; lia.
    + tauto.
    + tauto.
    + destruct (created_at st) as [[[t|t]|]|]; simpl; try tauto.
      destruct (Z.ltb_spec t (now - _max_age_days s * 86400000000)); split;
        auto; try discriminate; lia.
  - destruct (fromisoformat _) as [e|d]; [congruence|].
    destruct (datetime_lt _ _) as [e|[|]]; congruence.
  - intros ->. simpl. now rewrite Z.ltb_irrefl.
Qed.

Lemma sweep_removes_iff_witness :
  exists s',
    _cleanup_expired sample_now
      (sample_store {[ "resp_a" := rec_accessed sample_cutoff ]}) = inr s' /\
    _states s' !! "resp_a" = Some (rec_accessed sample_cutoff).
Proof.
  eexists. split; [vm_compute; reflexivity|].
  eapply (sweep_removes_iff sample_now
            (sample_store {[ "resp_a" := rec_accessed sample_cutoff ]}) _
            "resp_a" (rec_accessed sample_cutoff)).
  - vm_compute. reflexivity.
  - vm_compute. reflexivity.
  - vm_compute. reflexivity.
Defined.

(** C6, counterexample.  A record whose [last_accessed] parses to a time
    after the cutoff, but without a UTC offset, is removed: the comparison
    with the offset-carrying cutoff raises and the sweep treats that like an
    invalid timestamp.  And the removal is not decided by [last_accessed]
    alone: of two records that both lack the key, the one created long ago
    is removed and the one created now is kept. *)
Lemma sweep_not_decided_by_last_accessed :
  ~ (forall now s s' rid st,
       _cleanup_expired now s = inr s' ->
       _states s !! rid = Some st ->
       (_states s' !! rid = None <->
        spec_expired (now - _max_age_days s * 86400000000) st)) /\
  exists s',
    _cleanup_expired sample_now (sample_store sample_states) = inr s' /\
    last_accessed (rec_naive sample_now) = Some (Iso (Naive sample_now)) /\
    (sample_cutoff < sample_now)%Z /\
    _states s' !! "resp_naive" = None /\
    last_accessed (rec_created 0) = last_accessed (rec_created sample_now) /\
    _states s' !! "resp_old" = None /\
    _states s' !! "resp_new" = Some (rec_created sample_now).
Proof.
  assert (Hrun : _cleanup_expired sample_now (sample_store sample_states) =
                 inr (sweep (Aware sample_cutoff) (sample_store sample_states))).
  { vm_compute; reflexivity. }
  assert (Hnaive : _states (sweep (Aware sample_cutoff) (sample_store sample_states))
                     !! "resp_naive" = None).
  { vm_compute; reflexivity. }
  assert (Hin : _states (sample_store sample_states) !! "resp_naive" =
                Some (rec_naive sample_now)).
  { vm_compute; reflexivity. }
  split.
  { intros Hspec.
    pose proof (Hspec sample_now (sample_store sample_states) _ "resp_naive"
                (rec_naive sample_now) Hrun Hin) as [Hrem _].
    specialize (Hrem Hnaive). vm_compute in Hrem. discriminate Hrem. }
  eexists. split. { exact Hrun. }
  split. { reflexivity. }
  split. { reflexivity. }
  split. { exact Hnaive. }
  split. { reflexivity. }
  split. { vm_compute; reflexivity. }
  vm_compute; reflexivity.
Qed.

End ResponseStoreProps.

Module RoutesProps.
Import Py Models Truncation Routes.
Local Open Scope py_scope.

Section Handlers.
Context `{R : Registry} `{C : Collaborators}.

(** C8 (as amended).  A Responses request that names a non-empty
    [previous_response_id] absent from the store fails with HTTP 404 and the
    detail ["Previous response ID not found: <id>"]; the handler has then
    only read the clock: no upstream call was made, nothing was closed,
    stored or recorded. *)
Theorem unknown_previous_response_id
    (request_data : ResponsesRequest) (id : string) (w : World) :
  previous_response_id request_data = Some id ->
  id <> "" ->
  ResponseStore._states (response_store w) !! id = None ->
  responses request_data w =
    (inl (HTTPException 404 ("Previous response ID not found: " +:+ id)),
     set_ticks w (S (ticks w))) /\
  upstream_calls (set_ticks w (S (ticks w))) = upstream_calls w /\
  closed_clients (set_ticks w (S (ticks w))) = closed_clients w /\
  response_store (set_ticks w (S (ticks w))) = response_store w /\
  request_history (set_ticks w (S (ticks w))) = request_history w.
Proof.
  intros Hid Hne Hmiss. split; [|now repeat split].
  unfold responses, responses_prepare, load_previous, store_get, read_clock.
  unfold_monad. rewrite Hid. destruct id as [|a r]; [congruence|].
  simpl. now rewrite Hmiss.
Qed.

(** The error branch of either handler. *)
Lemma upstream_error_result (model : string) (stream : bool) (p : prepared)
    (resp : Response) (w : World) :
  exists w',
    upstream_error model stream p resp w =
      (inr (JSONResponse (status_code resp)
              (ErrorEnvelope
                 (error_message_of (default "Unknown error" (aread resp)))
                 "kiro_api_error" (status_code resp))), w') /\
    closed_clients w' = closed_clients w ++ [p_shared p] /\
    upstream_calls w' = upstream_calls w.
Proof.
  unfold upstream_error, close_client, _record_history, read_clock, fresh_uuid.
  unfold_monad. simpl. eexists. split; [reflexivity|]. split; reflexivity.
Qed.



End Handlers.
(** ** The translation loop of the Responses wrapper *)

Section Streaming.
Context `{C : Collaborators}.

Lemma text_deltas_app (l1 l2 : list sse_event) :
  text_deltas (l1 ++ l2) = text_deltas l1 ++ text_deltas l2.
Proof. unfold text_deltas. now rewrite flat_map_app. Qed.

Lemma count_item_added_app (l1 l2 : list sse_event) :
  count_item_added (l1 ++ l2) = count_item_added l1 + count_item_added l2.
Proof. unfold count_item_added. now rewrite List.filter_app, length_app. Qed.

Lemma steps_refl g : steps g g.
Proof.
  repeat (split; [reflexivity || lia |]).
  exists []. rewrite !app_nil_r. simpl.
  split; [reflexivity | split; [reflexivity | split]].
  - unfold count_item_added. simpl. destruct (first_chunk g); lia.
  - intros ->. split; reflexivity.
Qed.

Lemma steps_trans g0 g1 g2 : steps g0 g1 -> steps g1 g2 -> steps g0 g2.
Proof.
  intros (Hs & Hh & Hc & Hcl & Ht & Hu & He & Hd & new1 & Hn1 & Ha1 & Hk1 & Hf1)
         (Hs' & Hh' & Hc' & Hcl' & Ht' & Hu' & He' & Hd' & new2 & Hn2 & Ha2 & Hk2 & Hf2).
  repeat (split; [congruence || lia |]).
  exists (new1 ++ new2).
  rewrite Hn2, Hn1, Ha2, Ha1, text_deltas_app, count_item_added_app, <- !app_assoc.
  split; [reflexivity | split; [reflexivity | split]].
  - destruct (first_chunk g1) eqn:F1.
    + destruct (Hf1 eq_refl) as [F0 K0]. rewrite F0 in *. lia.
    + destruct (first_chunk g0); lia.
  - intros F2. destruct (Hf2 F2) as [F1 K2].
    destruct (Hf1 F1) as [F0 K1]. split; [exact F0 | lia].
Qed.

Lemma preserves_ret {A} (a : A) : preserves (ret a).
Proof. intros g r g' [= <- <-]. apply steps_refl. Qed.

Lemma preserves_raise {A} (e : py_exn) : preserves (raise (A := A) e).
Proof. intros g r g' [= <- <-]. apply steps_refl. Qed.

Lemma preserves_bind {A B} (m : M gen_state A) (k : A -> M gen_state B) :
  preserves m -> (forall a, preserves (k a)) -> preserves (bind m k).
Proof.
  intros Hm Hk g r g'. unfold bind.
  destruct (m g) as [[e|a] g1] eqn:Hrun.
  - intros [= <- <-]. eapply Hm, Hrun.
  - intros Hk'. eapply steps_trans; [eapply Hm, Hrun | eapply Hk, Hk'].
Qed.

(** A frame that is neither an item announcement nor a text fragment. *)
Lemma preserves_yield_plain (f : sse_event) :
  is_item_added f = false -> text_deltas [f] = [] -> preserves (yield_ f).
Proof.
  intros Hi Ht g r g' Hrun.
  assert (Hg : g' = push_frame g f (g_patience g')
               /\ g_world g' = g_world g).
  { unfold yield_ in Hrun. destruct (g_patience g) as [[|n]|];
      injection Hrun as <- <-; split; reflexivity. }
  destruct Hg as [-> Hw]. unfold steps. simpl.
  repeat (split; [reflexivity || lia |]).
  exists [f]. rewrite Ht, app_nil_r.
  split; [reflexivity | split; [reflexivity | split]].
  - unfold count_item_added. simpl. rewrite Hi. simpl. destruct (first_chunk g); lia.
  - intros ->. split; [reflexivity|]. unfold count_item_added. simpl. now rewrite Hi.
Qed.

Lemma preserves_emit_text (d : Delta) : preserves (emit_text d).
Proof.
  intros g r g' Hrun. unfold emit_text in Hrun.
  destruct (delta_content d) as [[|a s]|];
    try (injection Hrun as <- <-; apply steps_refl).
  unfold append_content, yield_ in Hrun. unfold_monad. simpl in Hrun.
  assert (Hg : g' = push_frame
                      {| g_world := g_world g; first_chunk := first_chunk g;
                         assistant_message_content :=
                           assistant_message_content g ++ [String a s];
                         streaming_error := streaming_error g;
                         client_disconnected := client_disconnected g;
                         g_sent := g_sent g; g_patience := g_patience g |}
                      (TextDelta (String a s)) (g_patience g')).
  { destruct (g_patience g) as [[|n]|]; injection Hrun as <- <-; reflexivity. }
  rewrite Hg. unfold steps. simpl.
  repeat (split; [reflexivity || lia |]).
  exists [TextDelta (String a s)]. simpl.
  split; [reflexivity | split; [reflexivity | split]].
  - unfold count_item_added. simpl. destruct (first_chunk g); lia.
  - intros ->. split; reflexivity.
Qed.

Lemma preserves_for_each {A} (xs : list A) (body : A -> M gen_state unit) :
  (forall x, preserves (body x)) -> preserves (for_each xs body).
Proof.
  intros Hb. induction xs as [|x xs IH]; simpl.
  - apply preserves_ret.
  - apply preserves_bind; [apply Hb | intros _; exact IH].
Qed.

Lemma preserves_emit_tool_calls (d : Delta) : preserves (emit_tool_calls d).
Proof.
  unfold emit_tool_calls. destruct (delta_tool_calls d) as [tcs|];
    [|apply preserves_ret].
  apply preserves_for_each. intros tc.
  destruct (tc_arguments tc) as [[|a s]|]; try apply preserves_ret.
  now apply preserves_yield_plain.
Qed.

Lemma preserves_emit_item_added (chunk_data : ChunkData) :
  preserves (emit_item_added chunk_data).
Proof.
  intros g r g' Hrun. unfold emit_item_added in Hrun. unfold_monad.
  destruct (first_chunk g && truthy_choices chunk_data) eqn:Hc.
  - apply andb_true_iff in Hc as [Hf _].
    unfold set_first_chunk, in_world, fresh_uuid, yield_ in Hrun.
    unfold_monad. simpl in Hrun.
    set (item := {| item_id := "item_" +:+ take_str 8 (uuid4_hex (uuids (g_world g)));
                    item_type := "message"; item_role := "assistant";
                    item_content := [] |}) in *.
    assert (Hg : g' = push_frame
                        {| g_world := set_uuids (g_world g) (S (uuids (g_world g)));
                           first_chunk := false;
                           assistant_message_content := assistant_message_content g;
                           streaming_error := streaming_error g;
                           client_disconnected := client_disconnected g;
                           g_sent := g_sent g; g_patience := g_patience g |}
                        (OutputItemAdded item) (g_patience g')).
    { destruct (g_patience g) as [[|n]|]; injection Hrun as <- <-; reflexivity. }
    rewrite Hg. unfold steps. simpl.
    repeat (split; [reflexivity || lia |]).
    exists [OutputItemAdded item]. simpl. rewrite app_nil_r, Hf.
    split; [reflexivity | split; [reflexivity | split]].
    + unfold count_item_added. simpl. lia.
    + discriminate.
  - injection Hrun as <- <-. apply steps_refl.
Qed.

Lemma preserves_translate_chunk (response_id chunk : string) :
  preserves (translate_chunk response_id chunk).
Proof.
  unfold translate_chunk.
  destruct (String.eqb _ "[DONE]").
  - now apply preserves_yield_plain.
  - destruct (chunk_loads _) as [chunk_data|]; [|apply preserves_raise].
    apply preserves_bind; [apply preserves_emit_item_added | intros _].
    destruct (truthy_choices chunk_data); [|apply preserves_ret].
    apply preserves_bind; [apply preserves_emit_text | intros _].
    apply preserves_emit_tool_calls.
Qed.

Lemma preserves_async_for (items : list stream_item)
    (body : string -> M gen_state unit) :
  (forall chunk, preserves (body chunk)) -> preserves (async_for items body).
Proof.
  intros Hb. induction items as [|[chunk|e] items IH]; simpl.
  - apply preserves_ret.
  - apply preserves_bind; [apply Hb | intros _; exact IH].
  - apply preserves_raise.
Qed.

Lemma preserves_responses_loop (h : responses_stream) :
  preserves (responses_loop h).
Proof. apply preserves_async_for, preserves_translate_chunk. Qed.

(** The [finally] block always runs to its end: it closes the client,
    stores the turn when asked to and no error was caught, and records the
    request. *)
Lemma responses_finally_result (h : responses_stream) (g : gen_state) :
  exists g',
    responses_finally h g = (inr tt, g') /\
    closed_clients (g_world g') = closed_clients (g_world g) ++ [false] /\
    g_sent g' = g_sent g /\
    assistant_message_content g' = assistant_message_content g /\
    streaming_error g' = streaming_error g /\
    response_store (g_world g') =
      if rr_store (rs_request h) && negb (is_set (streaming_error g))
      then snd (ResponseStore.create
                  (uuid4_hex (uuids (g_world g))) (clock (ticks (g_world g)))
                  (persisted_turn h (assistant_message_content g))
                  (rr_model (rs_request h)) (rr_metadata (rs_request h))
                  (response_store (g_world g)))
      else response_store (g_world g).
Proof.
  unfold responses_finally, in_world, close_client, store_create,
    _record_history, read_clock, fresh_uuid, persisted_turn.
  unfold_monad. simpl.
  destruct (rr_store (rs_request h)); destruct (streaming_error g); simpl;
    eexists; (split; [reflexivity|]); simpl; repeat split; reflexivity.
Qed.

(** The [except] clause for an [Exception]: the error is remembered, one
    [response.error] frame is tried, and an exception leaves the clause. *)
Lemma except_exception_result (f : sse_event) (e : py_exn) (g : gen_state) :
  exists e' g',
    except_exception f e g = (inl e', g') /\
    g_world g' = g_world g /\
    g_sent g' = g_sent g ++ [f] /\
    assistant_message_content g' = assistant_message_content g /\
    streaming_error g' = Some e.
Proof.
  unfold except_exception, set_streaming_error, yield_. unfold_monad. simpl.
  destruct (g_patience g) as [[|n]|]; simpl;
    do 2 eexists; (split; [reflexivity|]); simpl; repeat split; reflexivity.
Qed.

Lemma responses_guarded_result (h : responses_stream) (g0 g1 : gen_state)
    (r : py_exn + unit) :
  responses_loop h g0 = (r, g1) ->
  responses_guarded h g0 =
    match r with
    | inr _ => (inr tt, g1)
    | inl GeneratorExit => (inr tt, g1)
    | inl e =>
        if is_Exception e
        then except_exception (ResponseError (exn_message e)) e g1
        else (inl e, g1)
    end.
Proof.
  intros Hloop. unfold responses_guarded, bind, attempt. rewrite Hloop.
  destruct r as [[]|[]]; reflexivity.
Qed.

Lemma responses_wrapper_result (h : responses_stream) (g0 g2 g3 : gen_state)
    (rg : py_exn + unit) :
  responses_guarded h g0 = (rg, g2) ->
  responses_finally h g2 = (inr tt, g3) ->
  responses_stream_wrapper h g0 = (rg, g3).
Proof.
  intros Hg Hf. unfold responses_stream_wrapper, bind, attempt.
  rewrite Hg, Hf. destruct rg as [e|[]]; reflexivity.
Qed.

(** What the [finally] block of a wrapper stores, by how its loop ended. *)
Lemma wrapper_persistence
    (h : responses_stream) (w : World) (patience : option nat) :
  rr_store (rs_request h) = true ->
  exists outcome g',
    responses_stream_wrapper h (start_gen w patience) = (outcome, g') /\
    closed_clients (g_world g') = closed_clients w ++ [false] /\
    assistant_message_content g' = text_deltas (g_sent g') /\
    match fst (responses_loop h (start_gen w patience)) with
    | inl e =>
        if is_Exception e then
          streaming_error g' = Some e /\
          response_store (g_world g') = response_store w
        else
          streaming_error g' = None /\
          exists n,
            uuids w <= n /\
            response_store (g_world g') =
              snd (ResponseStore.create (uuid4_hex n) (clock (ticks w))
                     (persisted_turn h (assistant_message_content g'))
                     (rr_model (rs_request h)) (rr_metadata (rs_request h))
                     (response_store w))
    | inr _ =>
        streaming_error g' = None /\
        exists n,
          uuids w <= n /\
          response_store (g_world g') =
            snd (ResponseStore.create (uuid4_hex n) (clock (ticks w))
                   (persisted_turn h (assistant_message_content g'))
                   (rr_model (rs_request h)) (rr_metadata (rs_request h))
                   (response_store w))
    end.
Proof.
  intros Hstore.
  destruct (responses_loop h (start_gen w patience)) as [r g1] eqn:Hloop.
  pose proof (preserves_responses_loop h _ _ _ Hloop)
    as (Hs & _ & _ & Hcl & Ht & Hu & He & _ & new & Hn & Ha & _).
  simpl in Hs, Hcl, Ht, Hu, He, Hn, Ha.
  assert (Hacc : assistant_message_content g1 = text_deltas (g_sent g1)).
  { now rewrite Hn, Ha. }
  pose proof (responses_guarded_result h _ _ _ Hloop) as Hguard.
  simpl fst.
  (* the loop ended without an [Exception]: the turn is stored *)
  assert (Hkeep : forall rg,
    responses_guarded h (start_gen w patience) = (rg, g1) ->
    exists outcome g',
      responses_stream_wrapper h (start_gen w patience) = (outcome, g') /\
      closed_clients (g_world g') = closed_clients w ++ [false] /\
      assistant_message_content g' = text_deltas (g_sent g') /\
      streaming_error g' = None /\
      exists n,
        uuids w <= n /\
        response_store (g_world g') =
          snd (ResponseStore.create (uuid4_hex n) (clock (ticks w))
                 (persisted_turn h (assistant_message_content g'))
                 (rr_model (rs_request h)) (rr_metadata (rs_request h))
                 (response_store w))).
  { intros rg Hrg.
    destruct (responses_finally_result h g1)
      as (g3 & Hfin & Hc3 & Hs3 & Ha3 & He3 & Hst3).
    rewrite Hstore, He in Hst3. simpl in Hst3.
    exists rg, g3. split; [exact (responses_wrapper_result h _ _ _ _ Hrg Hfin)|].
    split; [now rewrite Hc3, Hcl|].
    split; [now rewrite Ha3, Hs3|].
    split; [now rewrite He3|].
    exists (uuids (g_world g1)). split; [exact Hu|].
    rewrite Hst3, Ha3, Hs, Ht. reflexivity. }
  (* the loop raised an [Exception]: nothing is stored *)
  assert (Hskip : forall e,
    is_Exception e = true ->
    responses_guarded h (start_gen w patience) =
      except_exception (ResponseError (exn_message e)) e g1 ->
    exists outcome g',
      responses_stream_wrapper h (start_gen w patience) = (outcome, g') /\
      closed_clients (g_world g') = closed_clients w ++ [false] /\
      assistant_message_content g' = text_deltas (g_sent g') /\
      streaming_error g' = Some e /\
      response_store (g_world g') = response_store w).
  { intros e _ Hrg.
    destruct (except_exception_result (ResponseError (exn_message e)) e g1)
      as (e' & g2 & Hex & Hw2 & Hs2 & Ha2 & He2).
    rewrite Hex in Hrg.
    destruct (responses_finally_result h g2)
      as (g3 & Hfin & Hc3 & Hs3 & Ha3 & He3 & Hst3).
    rewrite Hstore, He2 in Hst3. simpl in Hst3.
    exists (inl e'), g3.
    split; [exact (responses_wrapper_result h _ _ _ _ Hrg Hfin)|].
    split; [now rewrite Hc3, Hw2, Hcl|].
    split; [rewrite Ha3, Ha2, Hs3, Hs2, text_deltas_app, <- Hacc; simpl;
            now rewrite app_nil_r|].
    split; [now rewrite He3 | now rewrite Hst3, Hw2]. }
  destruct r as [[code detail|msg|msg| ]|[]]; simpl in Hguard |- *;
    first [ now apply Hskip | now apply (Hkeep _ Hguard) ].
Qed.

(** The stream handle the handler returns closes over the request and
    over the full history: the messages loaded for [previous_response_id]
    followed by the new input. *)
Lemma responses_returns_stream
    (request_data : ResponsesRequest) (w w1 : World) (h : responses_stream) :
  responses request_data w = (inr (ResponsesStreamingResponse h), w1) ->
  rs_request h = request_data /\
  exists previous w0,
    load_previous request_data (set_ticks w (S (ticks w))) = (inr previous, w0) /\
    rs_messages h =
      previous ++
      map (fun msg => mk_message (in_role msg) (in_content msg))
          (rr_input request_data).
Proof.
  unfold responses, responses_prepare, build_payload, read_clock, fresh_uuid.
  unfold bind at 1 2 3 4 5. simpl.
  destruct (load_previous request_data (set_ticks w (S (ticks w))))
    as [[e|previous] w0] eqn:Hprev; [discriminate|].
  simpl.
  destruct (build_kiro_payload _ _ _) as [msg|payload]; [discriminate|].
  unfold ret at 1 2. unfold bind at 1. unfold attempt.
  unfold responses_try, call_upstream. unfold bind at 1. simpl.
  destruct (request_with_retry _ _) as [e|resp].
  { unfold handler_except. destruct e; simpl; unfold_monad; simpl; discriminate. }
  destruct (negb (status_code resp =? 200)%Z).
  { destruct (upstream_error_result (rr_model request_data)
                (rr_stream request_data)
                {| p_messages := previous ++
                     map (fun msg => mk_message (in_role msg) (in_content msg))
                         (rr_input request_data);
                   p_chat_request :=
                     {| cc_model := rr_model request_data;
                        cc_messages := previous ++
                          map (fun msg => mk_message (in_role msg) (in_content msg))
                              (rr_input request_data);
                        cc_stream := rr_stream request_data;
                        cc_tools := rr_tools request_data;
                        cc_params := rr_params request_data |};
                   p_payload := payload;
                   p_url := api_host +:+ "/generateAssistantResponse";
                   p_shared := negb (rr_stream request_data);
                   p_start_time := clock (ticks w) |} resp
                (set_upstream_calls (set_uuids w0 (S (uuids w0)))
                   (upstream_calls (set_uuids w0 (S (uuids w0))) ++
                    [(api_host +:+ "/generateAssistantResponse", payload)])))
      as (w' & Herr & _).
    simpl in Herr. rewrite Herr. simpl. discriminate. }
  destruct (rr_stream request_data).
  - unfold fresh_uuid. unfold_monad. simpl. intros [= <- <-]. simpl.
    split; [reflexivity|]. exists previous, w0. split; reflexivity.
  - destruct (collect_stream_response _ _) as [e|r].
    { unfold handler_except. destruct e; simpl; unfold_monad; simpl; discriminate. }
    unfold close_client, store_create, _record_history, read_clock, fresh_uuid.
    unfold_monad. simpl. destruct (rr_store request_data); simpl; discriminate.
Qed.

(** C2.  A streaming Responses request with [store = true] gets a wrapper
    that closes over the prior messages and the new input, and that always
    reaches its [finally] block, which closes the upstream client and
    decides the persistence.  When the loop ended in a translation
    exception (an [Exception] raised by the relay or by the decoding of a
    chunk) nothing is stored: the store is as it was.  When it ended
    normally, or because the client closed the stream ([GeneratorExit]
    raised at a yield), the turn is stored: under an id [resp_] followed
    by a uuid drawn in the block, the store holds, in memory and in its
    file, a record whose messages are the prior messages and the new input
    followed by an assistant message with the text accumulated so far (the
    concatenation of the text fragments sent), with the model and the
    metadata of the request and the time of the block as [created_at] and
    [last_accessed]; it is the store [create] leaves. *)
Theorem stream_persistence
    (request_data : ResponsesRequest) (w0 w1 : World) (h : responses_stream)
    (w : World) (patience : option nat) :
  responses request_data w0 = (inr (ResponsesStreamingResponse h), w1) ->
  rr_store request_data = true ->
  (exists previous w0',
     load_previous request_data (set_ticks w0 (S (ticks w0))) =
       (inr previous, w0') /\
     rs_messages h =
       previous ++
       map (fun msg => mk_message (in_role msg) (in_content msg))
           (rr_input request_data)) /\
  exists outcome g',
    responses_stream_wrapper h (start_gen w patience) = (outcome, g') /\
    closed_clients (g_world g') = closed_clients w ++ [false] /\
    assistant_message_content g' = text_deltas (g_sent g') /\
    match fst (responses_loop h (start_gen w patience)) with
    | inl e =>
        if is_Exception e then
          streaming_error g' = Some e /\
          response_store (g_world g') = response_store w
        else
          streaming_error g' = None /\
          exists n,
            uuids w <= n /\
            ResponseStore._states (response_store (g_world g'))
              !! ("resp_" +:+ uuid4_hex n) =
              Some {| ResponseStore.st_messages :=
                        Some (rs_messages h ++
                              [mk_message "assistant"
                                 (CText (String.concat ""
                                           (assistant_message_content g')))]);
                      ResponseStore.st_model := Some (rr_model request_data);
                      ResponseStore.st_metadata :=
                        Some (default (JObj []) (rr_metadata request_data));
                      ResponseStore.created_at :=
                        Some (ResponseStore.Iso
                                (ResponseStore.Aware (clock (ticks w))));
                      ResponseStore.last_accessed :=
                        Some (ResponseStore.Iso
                                (ResponseStore.Aware (clock (ticks w)))) |} /\
            ResponseStore._storage (response_store (g_world g')) =
              Some (ResponseStore._states (response_store (g_world g'))) /\
            response_store (g_world g') =
              snd (ResponseStore.create (uuid4_hex n) (clock (ticks w))
                     (rs_messages h ++
                      [mk_message "assistant"
                         (CText (String.concat "" (assistant_message_content g')))])
                     (rr_model request_data) (rr_metadata request_data)
                     (response_store w))
    | inr _ =>
        streaming_error g' = None /\
        exists n,
          uuids w <= n /\
          ResponseStore._states (response_store (g_world g'))
            !! ("resp_" +:+ uuid4_hex n) =
            Some {| ResponseStore.st_messages :=
                      Some (rs_messages h ++
                            [mk_message "assistant"
                               (CText (String.concat ""
                                         (assistant_message_content g')))]);
                    ResponseStore.st_model := Some (rr_model request_data);
                    ResponseStore.st_metadata :=
                      Some (default (JObj []) (rr_metadata request_data));
                    ResponseStore.created_at :=
                      Some (ResponseStore.Iso
                              (ResponseStore.Aware (clock (ticks w))));
                    ResponseStore.last_accessed :=
                      Some (ResponseStore.Iso
                              (ResponseStore.Aware (clock (ticks w)))) |} /\
          ResponseStore._storage (response_store (g_world g')) =
            Some (ResponseStore._states (response_store (g_world g'))) /\
          response_store (g_world g') =
            snd (ResponseStore.create (uuid4_hex n) (clock (ticks w))
                   (rs_messages h ++
                    [mk_message "assistant"
                       (CText (String.concat "" (assistant_message_content g')))])
                   (rr_model request_data) (rr_metadata request_data)
                   (response_store w))
    end.
Proof.
  intros Hhandler Hstore.
  destruct (responses_returns_stream _ _ _ _ Hhandler) as [Hreq Hmsgs].
  split; [exact Hmsgs|]. subst request_data.
  destruct (wrapper_persistence h w patience Hstore)
    as (outcome & g' & Hrun & Hclosed & Hacc & Hcase).
  exists outcome, g'. split; [exact Hrun|]. split; [exact Hclosed|].
  split; [exact Hacc|].
  assert (Hfiled : forall n,
    response_store (g_world g') =
      snd (ResponseStore.create (uuid4_hex n) (clock (ticks w))
             (persisted_turn h (assistant_message_content g'))
             (rr_model (rs_request h)) (rr_metadata (rs_request h))
             (response_store w)) ->
    ResponseStore._states (response_store (g_world g'))
      !! ("resp_" +:+ uuid4_hex n) =
      Some {| ResponseStore.st_messages :=
                Some (persisted_turn h (assistant_message_content g'));
              ResponseStore.st_model := Some (rr_model (rs_request h));
              ResponseStore.st_metadata :=
                Some (default (JObj []) (rr_metadata (rs_request h)));
              ResponseStore.created_at :=
                Some (ResponseStore.Iso (ResponseStore.Aware (clock (ticks w))));
              ResponseStore.last_accessed :=
                Some (ResponseStore.Iso
                        (ResponseStore.Aware (clock (ticks w)))) |} /\
    ResponseStore._storage (response_store (g_world g')) =
      Some (ResponseStore._states (response_store (g_world g')))).
  { intros n ->. unfold ResponseStore.create. simpl.
    split; [apply lookup_insert_eq | reflexivity]. }
  destruct (fst (responses_loop h (start_gen w patience))) as [e|[]].
  - destruct (is_Exception e); [exact Hcase|].
    destruct Hcase as (Herr & n & Hn & Hst). split; [exact Herr|].
    exists n. split; [exact Hn|].
    destruct (Hfiled n Hst) as [Hget Hfile].
    split; [exact Hget|]. split; [exact Hfile | exact Hst].
  - destruct Hcase as (Herr & n & Hn & Hst). split; [exact Herr|].
    exists n. split; [exact Hn|].
    destruct (Hfiled n Hst) as [Hget Hfile].
    split; [exact Hget|]. split; [exact Hfile | exact Hst].
Qed.

(** *** Runs with a client that keeps reading *)















End Streaming.

(** ** Concrete runs *)

Lemma unknown_previous_response_id_witness :
  @responses (sample_collaborators 200 [])
     (sample_responses_request (Some "resp_invalid_id_12345") false true)
     sample_world =
    (inl (HTTPException 404
            "Previous response ID not found: resp_invalid_id_12345"),
     set_ticks sample_world 1).
Proof.
  apply (unknown_previous_response_id (C := sample_collaborators 200 [])
           (sample_responses_request (Some "resp_invalid_id_12345") false true)
           "resp_invalid_id_12345" sample_world).
  - reflexivity.
  - discriminate.
  - vm_compute. reflexivity.
Defined.

(** C8, counterexample.  The empty string is not an identifier of the
    store, yet a request that names it as its [previous_response_id] is not
    refused: the handler takes it for a request without history, calls the
    upstream and answers 200. *)
Lemma empty_previous_response_id_is_ignored :
  ResponseStore._states (response_store sample_world) !! "" = None /\
  fst (@responses (sample_collaborators 200 [])
         (sample_responses_request (Some "") false false) sample_world) =
    inr (JSONResponse 200
           (Completion {| or_object := "response";
                          or_id := "resp_c0ffee00c0ffee00";
                          or_message := mk_message "assistant" (CText "4");
                          or_rest := JNull |})) /\
  length (upstream_calls
            (snd (@responses (sample_collaborators 200 [])
                    (sample_responses_request (Some "") false false)
                    sample_world))) = 1.
Proof. vm_compute. repeat split; reflexivity. Qed.


Lemma stream_persistence_witness :
  exists outcome g',
    @responses_stream_wrapper (sample_collaborators 200 sample_items)
       (sample_stream sample_items) (start_gen sample_world (Some 1)) =
      (outcome, g') /\
    closed_clients (g_world g') = [false] /\
    assistant_message_content g' = text_deltas (g_sent g') /\
    ResponseStore._states (response_store (g_world g'))
      !! "resp_c0ffee00c0ffee00" =
      Some {| ResponseStore.st_messages :=
                Some [mk_message "user" (CText "2+2?");
                      mk_message "assistant"
                        (CText (String.concat ""
                                  (assistant_message_content g')))];
              ResponseStore.st_model := Some "m";
              ResponseStore.st_metadata := Some (JObj []);
              ResponseStore.created_at :=
                Some (ResponseStore.Iso (ResponseStore.Aware 0));
              ResponseStore.last_accessed :=
                Some (ResponseStore.Iso (ResponseStore.Aware 0)) |}.
Proof.
  destruct (stream_persistence (C := sample_collaborators 200 sample_items)
              (sample_responses_request None true true) sample_world
              (snd (@responses (sample_collaborators 200 sample_items)
                      (sample_responses_request None true true) sample_world))
              (sample_stream sample_items) sample_world (Some 1))
    as (_ & outcome & g' & Hrun & Hclosed & Hacc & Hcase).
  - vm_compute. reflexivity.
  - reflexivity.
  - assert (Hloop : fst (@responses_loop (sample_collaborators 200 sample_items)
                           (sample_stream sample_items)
                           (start_gen sample_world (Some 1))) =
                    inl GeneratorExit) by (vm_compute; reflexivity).
    rewrite Hloop in Hcase. destruct Hcase as (_ & n & _ & Hfiled & _).
    exists outcome, g'. split; [exact Hrun|]. split; [exact Hclosed|].
    split; [exact Hacc | exact Hfiled].
Defined.

(** A client that closes the stream at its second frame: the wrapper ends
    normally and the partial text is stored as the assistant's reply. *)
Example cancelled_stream_is_stored :
  let run := @responses_stream_wrapper (sample_collaborators 200 sample_items)
               (sample_stream sample_items) (start_gen sample_world (Some 1)) in
  fst run = inr tt /\
  g_sent (snd run) = [OutputItemAdded sample_item; TextDelta "hel"] /\
  ResponseStore.st_messages
    <$> (ResponseStore._states (response_store (g_world (snd run)))
           !! "resp_c0ffee00c0ffee00") =
    Some (Some [mk_message "user" (CText "2+2?");
                mk_message "assistant" (CText "hel")]).
Proof. vm_compute. repeat split; reflexivity. Qed.

(** A relay that raises after the first text chunk: the error frame is
    sent, the exception leaves the wrapper, and nothing is stored. *)
Example failed_stream_is_not_stored :
  let run := @responses_stream_wrapper
               (sample_collaborators 200 sample_failing_items)
               (sample_stream sample_failing_items)
               (start_gen sample_world None) in
  fst run = inl (OtherException "boom") /\
  g_sent (snd run) =
    [OutputItemAdded sample_item; TextDelta "hel"; ResponseError "boom"] /\
  ResponseStore._states (response_store (g_world (snd run))) = ∅ /\
  closed_clients (g_world (snd run)) = [false].
Proof. vm_compute. repeat split; reflexivity. Qed.

(** The whole sample stream, read to its end. *)
Example complete_stream_frames :
  g_sent (snd (@responses_stream_wrapper (sample_collaborators 200 sample_items)
                 (sample_stream sample_items) (start_gen sample_world None))) =
    [OutputItemAdded sample_item; TextDelta "hel"; TextDelta "lo";
     ResponseDone "resp_c0ffee00c0ffee00"].
Proof. vm_compute. reflexivity. Qed.



End RoutesProps.

(* ===================================================================== *)
(** * Part III: further properties of the stores and the handlers          *)
(* ===================================================================== *)

(** ** Dictionaries filled entry by entry *)

Module MapFacts.

(** Inserting the pairs of a list without repeated keys, one by one. *)
Lemma fold_left_insert {V} (l : list (string * V)) (m0 : gmap string V) :
  NoDup l.*1 ->
  fold_left (fun m (p : string * V) => <[p.1 := p.2]> m) l m0 =
    list_to_map l ∪ m0.
Proof.
  revert m0. induction l as [|[k v] l IH]; intros m0 Hnd; simpl.
  - now rewrite (left_id_L ∅ (∪)).
  - apply NoDup_cons in Hnd as [Hk Hnd]. rewrite (IH _ Hnd). simpl.
    rewrite <- insert_union_l, insert_union_r; [reflexivity|].
    now apply not_elem_of_list_to_map_1.
Qed.

Lemma fold_left_insert_map_to_list {V} (m : gmap string V) :
  fold_left (fun m (p : string * V) => <[p.1 := p.2]> m) (map_to_list m) ∅ = m.
Proof.
  rewrite fold_left_insert by apply NoDup_fst_map_to_list.
  now rewrite list_to_map_to_list, (right_id_L ∅ (∪)).
Qed.

End MapFacts.

(** ** The response store over its life: round trips and the file *)

Module ResponseStoreLife.
Import Py Models ResponseStore.

(** [_load] on a fresh store reads the file's states as they are. *)
Lemma load_states (d : Z) (data : gmap string state) :
  _states (_load {| _max_age_days := d; _states := ∅; _storage := Some data |})
  = data.
Proof. unfold _load. simpl. apply MapFacts.fold_left_insert_map_to_list. Qed.

Lemma load_on_disk (d : Z) (file : option (gmap string state)) :
  on_disk (_load {| _max_age_days := d; _states := ∅; _storage := file |}) =
  _states (_load {| _max_age_days := d; _states := ∅; _storage := file |}).
Proof.
  destruct file as [data|]; [|reflexivity].
  rewrite load_states. reflexivity.
Qed.

Lemma sweep_on_disk (cutoff : datetime) (s : ResponseStateStore) :
  on_disk s = _states s -> on_disk (sweep cutoff s) = _states (sweep cutoff s).
Proof.
  intros Hs. unfold sweep. destruct (expired_ids_of cutoff s); [|reflexivity].
  simpl. exact Hs.
Qed.

(** The state [create] files. *)
Lemma create_lookup (uuid_hex : string) (now : Z) (messages : list ChatMessage)
    (model : string) (metadata : option json) (s : ResponseStateStore) :
  _states (snd (create uuid_hex now messages model metadata s))
    !! ("resp_" +:+ uuid_hex) =
  Some {| st_messages := Some messages; st_model := Some model;
          st_metadata := Some (default (JObj []) metadata);
          created_at := Some (Iso (Aware now));
          last_accessed := Some (Iso (Aware now)) |}.
Proof. unfold create. simpl. apply lookup_insert_eq. Qed.

(** X1.  Round trip of [create] and [get]: the id [create] returns is
    ["resp_"] followed by the uuid it drew, and a later [get] of that id
    returns the messages, the model and the metadata that were filed (an
    absent metadata as the empty object), with [created_at] the time of the
    creation and [last_accessed] the time of this access. *)
Theorem create_then_get (uuid_hex : string) (now now' : Z)
    (messages : list ChatMessage) (model : string) (metadata : option json)
    (s : ResponseStateStore) :
  fst (create uuid_hex now messages model metadata s) = "resp_" +:+ uuid_hex /\
  fst (get now' (fst (create uuid_hex now messages model metadata s))
           (snd (create uuid_hex now messages model metadata s))) =
    Some {| st_messages := Some messages; st_model := Some model;
            st_metadata := Some (default (JObj []) metadata);
            created_at := Some (Iso (Aware now));
            last_accessed := Some (Iso (Aware now')) |}.
Proof.
  split; [reflexivity|].
  change (fst (create uuid_hex now messages model metadata s))
    with ("resp_" +:+ uuid_hex).
  unfold get. rewrite create_lookup. reflexivity.
Qed.

(** X2.  [get] only ever moves the access time of the record it is asked
    for: whatever the id, every record keeps its messages, model, metadata
    and creation time, no record appears or disappears, the records under
    other ids are untouched, and a [get] of an id that is not stored returns
    [None] and leaves the store and its file as they were. *)
Theorem get_moves_only_the_access_time (now : Z) (response_id : string)
    (s : ResponseStateStore) :
  (forall rid,
     forget_access <$> (_states (snd (get now response_id s)) !! rid) =
     forget_access <$> (_states s !! rid)) /\
  (forall rid, rid <> response_id ->
     _states (snd (get now response_id s)) !! rid = _states s !! rid) /\
  (_states s !! response_id = None -> get now response_id s = (None, s)).
Proof.
  unfold get. destruct (_states s !! response_id) as [st|] eqn:Hst.
  - destruct (truthy_state st); simpl.
    + split; [|split; [|discriminate]].
      * intros rid. destruct (decide (rid = response_id)) as [->|Hne].
        -- now rewrite lookup_insert_eq, Hst.
        -- now rewrite lookup_insert_ne.
      * intros rid Hne. now rewrite lookup_insert_ne.
    + split; [|split; [|discriminate]]; reflexivity.
  - simpl. repeat split.
Qed.

(** X3.  [delete] answers [True] exactly when the id was stored; afterwards
    the id is not stored, every other record is as it was, and a [False]
    answer leaves the store and its file untouched. *)
Theorem delete_removes_exactly_one (response_id : string)
    (s : ResponseStateStore) :
  (fst (delete_state response_id s) = true <->
   is_Some (_states s !! response_id)) /\
  _states (snd (delete_state response_id s)) !! response_id = None /\
  (forall rid, rid <> response_id ->
     _states (snd (delete_state response_id s)) !! rid = _states s !! rid) /\
  (fst (delete_state response_id s) = false ->
   snd (delete_state response_id s) = s).
Proof.
  unfold delete_state. destruct (_states s !! response_id) as [st|] eqn:Hst;
    simpl.
  - split; [split; [eauto | reflexivity]|].
    split; [apply lookup_delete_eq|].
    split; [|discriminate].
    intros rid Hne. now apply lookup_delete_ne.
  - split; [split; [discriminate | intros [? [=]]]|].
    split; [exact Hst|]. split; reflexivity.
Qed.

(** X4.  The file mirrors the memory: for every store a process can hold
    (built by [__init__], then changed by [create], [get], [delete] and
    [clear_all] in any order), loading the file again would give exactly
    the states held in memory.  The model's [_save] always writes; the
    code's swallows a failed write. *)
Theorem reachable_store_is_on_disk (s : ResponseStateStore) :
  reachable s -> on_disk s = _states s.
Proof.
  induction 1 as [d file now s Hinit | u now ms model md s _ _
                  | now rid s _ IH | rid s _ IH | s _ _].
  - unfold init in Hinit.
    apply ResponseStoreProps.cleanup_cutoff in Hinit. subst s.
    apply sweep_on_disk, load_on_disk.
  - reflexivity.
  - unfold get. destruct (_states s !! rid) as [st|]; [|exact IH].
    destruct (truthy_state st); [reflexivity | exact IH].
  - unfold delete_state. destruct (_states s !! rid); [reflexivity | exact IH].
  - reflexivity.
Qed.

Lemma reachable_store_is_on_disk_witness :
  on_disk (snd (create "ab" 0 [] "m" None (sample_store ∅))) =
  _states (snd (create "ab" 0 [] "m" None (sample_store ∅))).
Proof.
  apply (reachable_store_is_on_disk
           (snd (create "ab" 0 [] "m" None (sample_store ∅)))).
  apply reach_create.
  apply (reach_init default_max_age_days None 0).
  vm_compute. reflexivity.
Defined.

(** X6.  A record outlives a restart exactly while it is young enough: when
    a process is started, with [max_age_days = d] at time [now'], on the
    file left behind by a [create] at time [now], the new store holds the
    created record, unchanged, if [now' - d days <= now], and does not hold
    it otherwise. *)
Theorem created_record_after_restart (uuid_hex : string) (now now' d : Z)
    (messages : list ChatMessage) (model : string) (metadata : option json)
    (s s' : ResponseStateStore) :
  init d (_storage (snd (create uuid_hex now messages model metadata s))) now'
    = inr s' ->
  _states s' !! ("resp_" +:+ uuid_hex) =
    if (now <? now' - d * 86400000000)%Z then None
    else Some {| st_messages := Some messages; st_model := Some model;
                 st_metadata := Some (default (JObj []) metadata);
                 created_at := Some (Iso (Aware now));
                 last_accessed := Some (Iso (Aware now)) |}.
Proof.
  intros Hinit. unfold init in Hinit.
  apply ResponseStoreProps.cleanup_cutoff in Hinit. subst s'.
  rewrite ResponseStoreProps.sweep_lookup.
  change (_storage (snd (create uuid_hex now messages model metadata s)))
    with (Some (_states (snd (create uuid_hex now messages model metadata s)))).
  rewrite load_states, create_lookup.
  unfold is_before, _load. simpl.
  destruct (now <? now' - d * 86400000000)%Z; reflexivity.
Qed.

Lemma created_record_after_restart_witness :
  exists s',
    init default_max_age_days
         (_storage (snd (create "ab" 0 [] "m" None (sample_store ∅))))
         sample_now = inr s' /\
    _states s' !! "resp_ab" = None.
Proof.
  eexists. split; [vm_compute; reflexivity|].
  eapply (created_record_after_restart "ab" 0 sample_now default_max_age_days
            [] "m" None (sample_store ∅)).
  vm_compute. reflexivity.
Defined.

End ResponseStoreLife.

(** ** The request history: listing and restarting *)

Module HistoryLife.
Import Py History.

(** A slice between two bounds that are not negative. *)
Lemma py_slice_nonneg {A} (items : list A) (a b : Z) :
  (0 <= a)%Z -> (a <= b)%Z ->
  py_slice items a b = firstn (Z.to_nat (b - a)) (skipn (Z.to_nat a) items).
Proof.
  intros Ha Hab. unfold py_slice, slice_index.
  destruct (Z.ltb_spec a 0) as [?|_]; [lia|].
  destruct (Z.ltb_spec b 0) as [?|_]; [lia|].
  destruct (Z_lt_le_dec a (Z.of_nat (length items))) as [Hlt|Hge].
  - rewrite (Z.min_l a) by lia.
    destruct (Z_lt_le_dec b (Z.of_nat (length items))) as [Hb|Hb].
    + now rewrite (Z.min_l b) by lia.
    + rewrite (Z.min_r b) by lia.
      rewrite !firstn_all2; [reflexivity | |]; rewrite length_skipn; lia.
  - rewrite (Z.min_r a) by lia.
    rewrite !skipn_all2 by lia. now rewrite !firstn_nil.
Qed.

(** A slice never holds more than the distance between its bounds. *)
Lemma py_slice_length {A} (items : list A) (a b : Z) :
  (a <= b)%Z -> length (py_slice items a b) <= Z.to_nat (b - a).
Proof.
  intros Hab. unfold py_slice. rewrite length_firstn.
  etransitivity; [apply Nat.le_min_l|].
  unfold slice_index.
  destruct (Z.ltb_spec a 0); destruct (Z.ltb_spec b 0); lia.
Qed.

Lemma firstn_skipn_pages {A} (items : list A) (n m k : nat) :
  firstn n (skipn k items) ++ firstn m (skipn (k + n) items) =
  firstn (n + m) (skipn k items).
Proof.
  replace (skipn (k + n) items) with (skipn n (skipn k items))
    by (rewrite skipn_skipn; f_equal; lia).
  generalize (skipn k items) as l. clear items k.
  induction n as [|n IH]; intros l; [reflexivity|].
  destruct l as [|x l]; simpl.
  - now rewrite firstn_nil.
  - f_equal. apply IH.
Qed.

(** X7.  [list(limit, offset)] with neither argument negative returns the
    window of at most [limit] records that starts [offset] records after
    the most recent one, together with the size of the whole buffer; an
    offset past the end gives the empty window, and consecutive windows put
    end to end are the window of their joint length. *)
Theorem list_is_a_window (h : RequestHistory) (limit offset : Z) :
  (0 <= limit)%Z -> (0 <= offset)%Z ->
  list_ h limit offset =
    (firstn (Z.to_nat limit) (skipn (Z.to_nat offset) (_records h)),
     length (_records h)) /\
  length (fst (list_ h limit offset)) <= Z.to_nat limit /\
  ((Z.of_nat (length (_records h)) <= offset)%Z ->
   fst (list_ h limit offset) = []) /\
  (forall limit', (0 <= limit')%Z ->
     fst (list_ h limit offset) ++ fst (list_ h limit' (offset + limit)) =
     fst (list_ h (limit + limit') offset)).
Proof.
  intros Hl Ho.
  assert (Hwin : forall l o, (0 <= l)%Z -> (0 <= o)%Z ->
            fst (list_ h l o) =
            firstn (Z.to_nat l) (skipn (Z.to_nat o) (_records h))).
  { intros l o Hl' Ho'. unfold list_. simpl.
    rewrite py_slice_nonneg by lia. do 2 f_equal. lia. }
  split; [|split; [|split]].
  - unfold list_. f_equal. apply (Hwin limit offset Hl Ho).
  - rewrite Hwin by lia. rewrite length_firstn. lia.
  - intros Hpast. rewrite Hwin by lia.
    rewrite skipn_all2 by lia. apply firstn_nil.
  - intros limit' Hl'. rewrite !Hwin by lia.
    rewrite (Z2Nat.inj_add offset limit), (Z2Nat.inj_add limit limit') by lia.
    apply firstn_skipn_pages.
Qed.

Lemma list_is_a_window_witness :
  list_ (record_all (init 5 None)
           [sample_call 200; sample_call 404; sample_call 500]) 1 1 =
    ([entry_of (sample_call 404)], 3).
Proof.
  destruct (list_is_a_window
              (record_all (init 5 None)
                 [sample_call 200; sample_call 404; sample_call 500]) 1 1)
    as [Hwin _]; [lia | lia |].
  rewrite Hwin. reflexivity.
Defined.

(** X8.  [list] does not refuse a negative [limit], and does not read it as
    zero: with [offset = 0] and [limit = -k] it returns every record but
    the [k] oldest ones (none when the buffer holds at most [k]), so more
    records than any requested page size.  The admin route passes the
    query's integers on as they are. *)
Theorem list_with_negative_limit (h : RequestHistory) (k : nat) :
  0 < k ->
  list_ h (- Z.of_nat k) 0 =
    (firstn (length (_records h) - k) (_records h), length (_records h)).
Proof.
  intros Hk. unfold list_, py_slice, slice_index. f_equal.
  destruct (Z.ltb_spec 0 0) as [?|_]; [lia|].
  destruct (Z.ltb_spec (0 + - Z.of_nat k) 0) as [_|?]; [|lia].
  rewrite Z.min_l by lia. simpl skipn. f_equal. lia.
Qed.

Lemma list_with_negative_limit_witness :
  list_ (record_all (init 5 None)
           [sample_call 200; sample_call 404; sample_call 500])
        (- Z.of_nat 1) 0 =
    ([entry_of (sample_call 500); entry_of (sample_call 404)], 3).
Proof.
  rewrite (list_with_negative_limit
             (record_all (init 5 None)
                [sample_call 200; sample_call 404; sample_call 500]) 1);
    [reflexivity | lia].
Defined.

Lemma skipn_excess_app {A} (maxlen : nat) (e data : list A) :
  length e <= S maxlen ->
  skipn (length (skipn (length e - maxlen) e ++ data) - maxlen)
        (skipn (length e - maxlen) e ++ data) =
  skipn (length (e ++ data) - maxlen) (e ++ data).
Proof.
  intros He.
  assert (Happ : skipn (length e - maxlen) e ++ data =
                 skipn (length e - maxlen) (e ++ data)).
  { rewrite skipn_app. replace (length e - maxlen - length e) with 0 by lia.
    reflexivity. }
  rewrite Happ, skipn_skipn, length_skipn, length_app. f_equal. lia.
Qed.

(** Appending the entries of a file to a deque that is within its bound
    keeps the last [maxlen] of them all. *)
Lemma fold_deque_append {A} (maxlen : nat) (data d : list A) :
  length d <= maxlen ->
  fold_left (deque_append maxlen) data d =
    skipn (length (d ++ data) - maxlen) (d ++ data).
Proof.
  revert d. induction data as [|x data IH]; intros d Hd; simpl.
  - rewrite app_nil_r. replace (length d - maxlen) with 0 by lia. reflexivity.
  - assert (Hstep : deque_append maxlen d x =
                    skipn (length (d ++ [x]) - maxlen) (d ++ [x])).
    { unfold deque_append. rewrite length_app. simpl.
      destruct (Nat.ltb_spec maxlen (length d + 1)) as [Hlt|Hge].
      - replace (length d + 1 - maxlen) with 1 by lia.
        now destruct (d ++ [x]).
      - replace (length d + 1 - maxlen) with 0 by lia. reflexivity. }
    rewrite (IH _ (HistoryProps.deque_append_bound maxlen d x Hd)), Hstep.
    replace (d ++ x :: data) with ((d ++ [x]) ++ data)
      by (now rewrite <- app_assoc).
    apply skipn_excess_app. rewrite length_app. simpl. lia.
Qed.

(** X9.  Restarting on the history file.  [__init__] appends the file's
    records in their order to a deque bounded by [max_size], so the buffer
    it builds is the last [max_size] records of the file: the whole file
    when it fits, and otherwise, the file being written most recent first,
    its oldest records.  A process restarted with the same bound on the
    file left by [record] holds the history as it was. *)
Theorem init_reads_the_end_of_the_file :
  (forall (max_size : nat) (data : list entry),
     _records (init max_size (Some data)) =
       skipn (length data - max_size) data) /\
  (forall (max_size : nat) (data : list entry),
     length data <= max_size -> _records (init max_size (Some data)) = data) /\
  (forall (h : RequestHistory) (c : call),
     length (_records h) <= _max_size h ->
     _records (init (_max_size h) (_history_file (snd (record h c)))) =
       _records (snd (record h c))).
Proof.
  assert (Hall : forall (max_size : nat) (data : list entry),
            _records (init max_size (Some data)) =
              skipn (length data - max_size) data).
  { intros max_size data. unfold init, _load. simpl.
    apply (fold_deque_append max_size data []). simpl. lia. }
  split; [exact Hall|]. split.
  - intros max_size data Hfit. rewrite Hall.
    replace (length data - max_size) with 0 by lia. reflexivity.
  - intros h c Hb.
    change (_history_file (snd (record h c)))
      with (Some (_records (snd (record h c)))).
    rewrite Hall.
    destruct (HistoryProps.record_shape h c Hb) as [_ Hr].
    rewrite Hr, length_firstn.
    replace (Init.Nat.min (_max_size h) (length (entry_of c :: _records h))
             - _max_size h) with 0 by lia.
    reflexivity.
Qed.

End HistoryLife.

(** ** The API key manager: its methods, its file, and the bearer check *)

Module ApiKeyStoreProps.
Import Py ApiKeys ApiKeyStore.

(** *** Strings *)

Lemma prefix_append (p s : string) :
  String.prefix p s = true <-> exists t, s = p +:+ t.
Proof.
  revert s. induction p as [|a p IH]; intros s.
  - destruct s; simpl; (split; [intros _; eexists; reflexivity | reflexivity]).
  - destruct s as [|b s]; simpl.
    + split; [discriminate | intros [t [=]]].
    + destruct (ascii_dec a b) as [->|Hne].
      * rewrite IH. split; intros [t Ht]; exists t;
          [now rewrite Ht | now injection Ht].
      * split; [discriminate | intros [t [= Hab _]]; congruence].
Qed.

Lemma substring_whole (t : string) : String.substring 0 (String.length t) t = t.
Proof. induction t as [|c t IH]; simpl; [reflexivity | now rewrite IH]. Qed.

Lemma drop_str_append (p t : string) : drop_str (String.length p) (p +:+ t) = t.
Proof.
  unfold drop_str. induction p as [|a p IH]; simpl.
  - rewrite Nat.sub_0_r. apply substring_whole.
  - exact IH.
Qed.

Lemma length_take_str (n : nat) (s : string) :
  String.length (take_str n s) = Nat.min n (String.length s).
Proof.
  unfold take_str. revert s. induction n as [|n IH]; intros [|c s]; simpl;
    try reflexivity. now rewrite IH.
Qed.

Lemma length_key_preview (key : string) :
  String.length (key_preview key) <= 11 /\
  (String.length key <= 8 -> key_preview key = key).
Proof.
  unfold key_preview. destruct (Nat.ltb_spec 8 (String.length key)) as [Hlt|Hge].
  - split; [|lia].
    rewrite TruncationProps.string_length_append, length_take_str.
    change (String.length "...") with 3. lia.
  - split; [lia | reflexivity].
Qed.

(** *** The dictionary and the file *)

Lemma elem_of_list_keys (m : ApiKeyManager) (s : key_summary) :
  s ∈ list_keys m <->
  exists key_id entry, _keys m !! key_id = Some entry /\ s = summary_of entry.
Proof.
  unfold list_keys. rewrite list_elem_of_fmap. split.
  - intros (e & -> & He). apply list_elem_of_fmap in He as ([key_id e'] & -> & He).
    apply elem_of_map_to_list in He. eauto.
  - intros (key_id & e & Hl & ->). exists e. split; [reflexivity|].
    apply list_elem_of_fmap. exists (key_id, e). split; [reflexivity|].
    now apply elem_of_map_to_list.
Qed.

Lemma from_dict_to_dict (e : ApiKeyEntry) : from_dict (to_dict e) = Some e.
Proof. now destruct e. Qed.

Lemma load_entries_to_dict (entries : list ApiKeyEntry)
    (keys : gmap string ApiKeyEntry) :
  load_entries (map to_dict entries) keys = (true, keys_of entries keys).
Proof.
  revert keys. induction entries as [|e entries IH]; intros keys;
    [reflexivity|].
  destruct e as [i n k c en]. simpl. apply IH.
Qed.

Lemma load_entries_app (good : list ApiKeyEntry) (rest : list key_dict)
    (keys : gmap string ApiKeyEntry) :
  load_entries (map to_dict good ++ rest) keys =
  load_entries rest (keys_of good keys).
Proof.
  revert keys. induction good as [|e good IH]; intros keys;
    [reflexivity|].
  destruct e as [i n k c en]. simpl. apply IH.
Qed.

Lemma load_entries_own_ids (entries : list key_dict)
    (keys : gmap string ApiKeyEntry) :
  own_ids keys -> own_ids (load_entries entries keys).2.
Proof.
  revert keys. induction entries as [|d entries IH]; intros keys Hown; simpl;
    [exact Hown|].
  destruct (from_dict d) as [e|]; [|exact Hown].
  apply IH. intros key_id entry.
  destruct (decide (key_id = ak_id e)) as [->|Hne].
  - rewrite lookup_insert_eq. now intros [= <-].
  - rewrite lookup_insert_ne by congruence. apply Hown.
Qed.

Lemma own_ids_insert (keys : gmap string ApiKeyEntry) (entry : ApiKeyEntry) :
  own_ids keys -> own_ids (<[ak_id entry := entry]> keys).
Proof.
  intros Hown key_id e.
  destruct (decide (key_id = ak_id entry)) as [->|Hne].
  - rewrite lookup_insert_eq. now intros [= <-].
  - rewrite lookup_insert_ne by congruence. apply Hown.
Qed.

(** Filing the values of a dictionary whose entries sit under their own
    ids builds the dictionary again. *)
Lemma keys_of_values (keys : gmap string ApiKeyEntry) :
  own_ids keys -> keys_of (map snd (map_to_list keys)) ∅ = keys.
Proof.
  intros Hown. rewrite <- (MapFacts.fold_left_insert_map_to_list keys) at 2.
  assert (Hin : forall p, p ∈ map_to_list keys -> ak_id p.2 = p.1).
  { intros [key_id e] Hp. apply elem_of_map_to_list in Hp. now apply Hown. }
  unfold keys_of. generalize (∅ : gmap string ApiKeyEntry) as acc.
  induction (map_to_list keys) as [|p l IH]; intros acc; simpl; [reflexivity|].
  rewrite (Hin p) by now left.
  apply IH. intros q Hq. apply Hin. now right.
Qed.

Section Manager.
Variable PROXY_API_KEY : string.

(** Starting on the file [_save] wrote gives the saved dictionary. *)
Lemma init_saved (token_hex4 now : string) (m : ApiKeyManager) :
  own_ids (_keys m) ->
  _keys (init PROXY_API_KEY token_hex4 now (_storage (_save m))) = _keys m.
Proof.
  intros Hown. unfold init, _load. simpl.
  rewrite load_entries_to_dict, keys_of_values by exact Hown. reflexivity.
Qed.

Lemma seed_own_ids (token_hex4 now : string) (m : ApiKeyManager) :
  own_ids (_keys m) -> own_ids (_keys (seed PROXY_API_KEY token_hex4 now m)).
Proof.
  intros Hown. unfold seed. destruct PROXY_API_KEY as [|a r]; [exact Hown|].
  simpl.
  apply (own_ids_insert (_keys m)
           {| ak_id := token_hex4; ak_name := "Default (from env)";
              ak_key := String a r; ak_created_at := now;
              ak_enabled := true |} Hown).
Qed.

Lemma seed_cases (t4 now : string) (m : ApiKeyManager) :
  (PROXY_API_KEY = "" /\ seed PROXY_API_KEY t4 now m = m) \/
  (PROXY_API_KEY <> "" /\
   seed PROXY_API_KEY t4 now m =
     _save {| _keys := <[t4 := {| ak_id := t4; ak_name := "Default (from env)";
                                  ak_key := PROXY_API_KEY; ak_created_at := now;
                                  ak_enabled := true |}]> (_keys m);
              _storage := _storage m |}).
Proof.
  unfold seed. destruct PROXY_API_KEY; [left | right]; split;
    reflexivity || discriminate.
Qed.

(** A seeded manager reloads as it is: with an environment key it has just
    been saved, and without one the seeding does nothing. *)
Lemma seed_reloads (t4 now t4' now' : string) (m : ApiKeyManager) :
  own_ids (_keys m) ->
  (PROXY_API_KEY = "" ->
   _keys (init PROXY_API_KEY t4' now' (_storage m)) = _keys m) ->
  _keys (init PROXY_API_KEY t4' now'
           (_storage (seed PROXY_API_KEY t4 now m))) =
  _keys (seed PROXY_API_KEY t4 now m).
Proof.
  intros Hown Hempty.
  pose proof (seed_own_ids t4 now m Hown) as Hseed.
  destruct (seed_cases t4 now m) as [[Hp Hs]|[Hp Hs]]; rewrite Hs in *.
  - now apply Hempty.
  - apply (init_saved t4' now'
             {| _keys := <[t4 := {| ak_id := t4; ak_name := "Default (from env)";
                                    ak_key := PROXY_API_KEY; ak_created_at := now;
                                    ak_enabled := true |}]> (_keys m);
                _storage := _storage m |}).
    exact Hseed.
Qed.

Lemma own_ids_empty : own_ids ∅.
Proof. intros key_id e. now rewrite lookup_empty. Qed.

Lemma init_own_ids (t4 now : string) (file : key_file) :
  own_ids (_keys (init PROXY_API_KEY t4 now file)).
Proof.
  unfold init, _load. simpl. destruct file as [| |entries];
    try (apply seed_own_ids, own_ids_empty).
  pose proof (load_entries_own_ids entries ∅ own_ids_empty) as Hown.
  destruct (load_entries entries ∅) as [[|] keys]; simpl in *;
    [exact Hown | now apply seed_own_ids].
Qed.

Lemma init_reloads (t4 now t4' now' : string) (file : key_file) :
  _keys (init PROXY_API_KEY t4' now'
           (_storage (init PROXY_API_KEY t4 now file))) =
  _keys (init PROXY_API_KEY t4 now file).
Proof.
  unfold init at 2 3. unfold _load. simpl.
  destruct file as [| |entries].
  - apply seed_reloads; [apply own_ids_empty|].
    intros Hp. unfold init, _load, seed. simpl. now rewrite Hp.
  - apply seed_reloads; [apply own_ids_empty|].
    intros Hp. unfold init, _load, seed. simpl. now rewrite Hp.
  - pose proof (load_entries_own_ids entries ∅ own_ids_empty) as Hown.
    destruct (load_entries entries ∅) as [[|] keys] eqn:Hload; simpl in *.
    + unfold init, _load. simpl. now rewrite Hload.
    + apply seed_reloads; [exact Hown|].
      intros Hp. unfold init, _load, seed. simpl. now rewrite Hload, Hp.
Qed.

(** What a reachable manager keeps true. *)
Lemma reachable_invariant (m : ApiKeyManager) :
  reachable PROXY_API_KEY m ->
  own_ids (_keys m) /\
  forall t4 now, _keys (init PROXY_API_KEY t4 now (_storage m)) = _keys m.
Proof.
  induction 1 as [t4 now file | t4 t24 now name m _ [Hown _]
                  | key_id name enabled m _ [Hown Hre]
                  | key_id m _ [Hown Hre]].
  - split; [apply init_own_ids | intros; apply init_reloads].
  - assert (Hown' : own_ids (_keys (snd (create_key t4 t24 now name m)))).
    { apply (own_ids_insert (_keys m)
               {| ak_id := t4; ak_name := name; ak_key := "sk-" +:+ t24;
                  ak_created_at := now; ak_enabled := true |} Hown). }
    split; [exact Hown'|]. intros t4' now'.
    apply (init_saved t4' now'
             {| _keys := _keys (snd (create_key t4 t24 now name m));
                _storage := _storage m |} Hown').
  - unfold update_key, ApiKeys.update_key.
    destruct (_keys m !! key_id) as [entry|] eqn:Hl; simpl; [|now split].
    assert (Hown' : own_ids
              (<[key_id := {| ak_id := ak_id entry;
                              ak_name := default (ak_name entry) name;
                              ak_key := ak_key entry;
                              ak_created_at := ak_created_at entry;
                              ak_enabled := default (ak_enabled entry) enabled |}]>
                 (_keys m))).
    { intros k e. destruct (decide (k = key_id)) as [->|Hne].
      - rewrite lookup_insert_eq. intros [= <-]. simpl. now apply Hown.
      - rewrite lookup_insert_ne by congruence. apply Hown. }
    split; [exact Hown'|]. intros t4' now'.
    apply (init_saved t4' now' {| _keys := _; _storage := _storage m |} Hown').
  - unfold delete_key. destruct (_keys m !! key_id) eqn:Hl; simpl; [|now split].
    assert (Hown' : own_ids (delete key_id (_keys m))).
    { intros k e Hk. apply lookup_delete_Some in Hk as [_ Hk]. now apply Hown. }
    split; [exact Hown'|]. intros t4' now'.
    apply (init_saved t4' now' {| _keys := _; _storage := _storage m |} Hown').
Qed.

(** *** The check of a token *)

Lemma verify_key_iff (m : ApiKeyManager) (token : string) :
  verify_key PROXY_API_KEY m token = true <->
  token = PROXY_API_KEY \/
  exists key_id entry,
    _keys m !! key_id = Some entry /\ ak_enabled entry = true /\
    ak_key entry = token.
Proof.
  unfold verify_key, ApiKeys.verify_key.
  destruct (String.eqb token PROXY_API_KEY) eqn:Hp.
  - apply String.eqb_eq in Hp. tauto.
  - apply String.eqb_neq in Hp. rewrite ApiKeysProps.verify_entries_true. split.
    + intros (e & Hin & Hen & Hk). right.
      apply list_elem_of_fmap in Hin as ([key_id e'] & -> & Hin).
      apply elem_of_map_to_list in Hin. exists key_id, e'. auto.
    + intros [Heq | (key_id & e & Hl & Hen & Hk)]; [contradiction|].
      exists e. split; [|auto].
      apply list_elem_of_fmap. exists (key_id, e). split; [reflexivity|].
      now apply elem_of_map_to_list.
Qed.

(** The dictionary after an update that finds its entry. *)
Lemma update_key_keys (key_id : string) (name : option string)
    (enabled : option bool) (m : ApiKeyManager) (entry : ApiKeyEntry) :
  _keys m !! key_id = Some entry ->
  _keys (snd (update_key key_id name enabled m)) =
    <[key_id := {| ak_id := ak_id entry;
                   ak_name := default (ak_name entry) name;
                   ak_key := ak_key entry;
                   ak_created_at := ak_created_at entry;
                   ak_enabled := default (ak_enabled entry) enabled |}]>
      (_keys m).
Proof.
  intros Hl. unfold update_key, ApiKeys.update_key. now rewrite Hl.
Qed.

(** X10.  A key that [create_key] hands out is accepted at once: the
    returned key is ["sk-"] followed by the random hex string, [verify_key]
    accepts it, and the listing shows the new entry, enabled, under the id
    drawn.  When that id is not yet in use, every token accepted before is
    still accepted; an id that collides files the new entry over the old
    one. *)
Theorem created_key_is_accepted (token_hex4 token_hex24 now name : string)
    (m : ApiKeyManager) :
  ck_key (fst (create_key token_hex4 token_hex24 now name m)) =
    "sk-" +:+ token_hex24 /\
  verify_key PROXY_API_KEY
    (snd (create_key token_hex4 token_hex24 now name m))
    ("sk-" +:+ token_hex24) = true /\
  {| s_id := token_hex4; s_name := name;
     s_key_preview := key_preview ("sk-" +:+ token_hex24);
     s_created_at := now; s_enabled := true |}
    ∈ list_keys (snd (create_key token_hex4 token_hex24 now name m)) /\
  (_keys m !! token_hex4 = None ->
   forall token,
     verify_key PROXY_API_KEY m token = true ->
     verify_key PROXY_API_KEY
       (snd (create_key token_hex4 token_hex24 now name m)) token = true).
Proof.
  split; [reflexivity|]. split; [|split].
  - apply verify_key_iff. right. eexists token_hex4, _.
    split; [apply lookup_insert_eq|]. split; reflexivity.
  - apply elem_of_list_keys. eexists token_hex4, _.
    split; [apply lookup_insert_eq | reflexivity].
  - intros Hfree token Hv. apply verify_key_iff.
    apply verify_key_iff in Hv as [->|(key_id & e & Hl & Hen & Hk)];
      [now left | right].
    exists key_id, e. split; [|auto]. simpl.
    rewrite lookup_insert_ne; [exact Hl | congruence].
Qed.

(** X11.  [update_key] on a stored entry changes what [verify_key] says of
    that entry's key only: every other token is judged as before; enabling
    the entry makes its key accepted; disabling it makes its key refused,
    provided the key is not the environment's and no other entry carries
    it; and an update that leaves [enabled] out changes nothing for any
    token. *)
Theorem update_changes_one_key (key_id : string) (entry : ApiKeyEntry)
    (name : option string) (m : ApiKeyManager) :
  _keys m !! key_id = Some entry ->
  (forall enabled token, token <> ak_key entry ->
     verify_key PROXY_API_KEY (snd (update_key key_id name enabled m)) token =
     verify_key PROXY_API_KEY m token) /\
  verify_key PROXY_API_KEY (snd (update_key key_id name (Some true) m))
             (ak_key entry) = true /\
  (ak_key entry <> PROXY_API_KEY ->
   (forall key_id' entry',
      _keys m !! key_id' = Some entry' -> ak_key entry' = ak_key entry ->
      key_id' = key_id) ->
   verify_key PROXY_API_KEY (snd (update_key key_id name (Some false) m))
              (ak_key entry) = false) /\
  (forall token,
     verify_key PROXY_API_KEY (snd (update_key key_id name None m)) token =
     verify_key PROXY_API_KEY m token).
Proof.
  intros Hl. split; [|split; [|split]].
  - intros enabled token Hne. apply Bool.eq_iff_eq_true.
    rewrite !verify_key_iff, (update_key_keys _ _ _ _ _ Hl).
    split; (intros [Hp|(k & e & Hk & Hen & Hkey)]; [now left | right]).
    + destruct (decide (k = key_id)) as [->|Hk'].
      * rewrite lookup_insert_eq in Hk. injection Hk as <-. simpl in Hkey.
        congruence.
      * rewrite lookup_insert_ne in Hk by congruence. eauto.
    + destruct (decide (k = key_id)) as [->|Hk']; [congruence|].
      exists k, e. rewrite lookup_insert_ne by congruence. auto.
  - apply verify_key_iff. right. rewrite (update_key_keys _ _ _ _ _ Hl).
    eexists key_id, _. split; [apply lookup_insert_eq|]. split; reflexivity.
  - intros Hp Huniq. apply not_true_is_false. intros Hv.
    apply verify_key_iff in Hv as [Hv|(k & e & Hk & Hen & Hkey)];
      [contradiction|].
    rewrite (update_key_keys _ _ _ _ _ Hl) in Hk.
    destruct (decide (k = key_id)) as [->|Hk'].
    + rewrite lookup_insert_eq in Hk. injection Hk as <-. discriminate.
    + rewrite lookup_insert_ne in Hk by congruence.
      apply Hk', (Huniq k e Hk Hkey).
  - intros token. apply Bool.eq_iff_eq_true.
    rewrite !verify_key_iff, (update_key_keys _ _ _ _ _ Hl).
    split; (intros [Hp|(k & e & Hk & Hen & Hkey)]; [now left | right]).
    + destruct (decide (k = key_id)) as [->|Hk'].
      * rewrite lookup_insert_eq in Hk. injection Hk as <-. simpl in *.
        exists key_id, entry. auto.
      * rewrite lookup_insert_ne in Hk by congruence. eauto.
    + destruct (decide (k = key_id)) as [->|Hk'].
      * rewrite Hl in Hk. injection Hk as <-.
        eexists key_id, _. split; [apply lookup_insert_eq|]. split; assumption.
      * exists k, e. rewrite lookup_insert_ne by congruence. auto.
Qed.

(** X12.  [delete_key] answers [True] exactly for a stored id; afterwards a
    token is accepted exactly when it is the environment key or the key of
    an enabled entry filed under another id; a [False] answer leaves the
    manager and its file untouched, and the admin route turns it into 404
    ["API key not found"]. *)
Theorem delete_key_revokes (key_id : string) (m : ApiKeyManager) :
  (fst (delete_key key_id m) = true <-> is_Some (_keys m !! key_id)) /\
  (forall token,
     verify_key PROXY_API_KEY (snd (delete_key key_id m)) token = true <->
     token = PROXY_API_KEY \/
     exists key_id' entry,
       key_id' <> key_id /\ _keys m !! key_id' = Some entry /\
       ak_enabled entry = true /\ ak_key entry = token) /\
  (_keys m !! key_id = None ->
   delete_key key_id m = (false, m) /\
   delete_apikey key_id m =
     (inl (HTTPException 404 "API key not found"), m)) /\
  (is_Some (_keys m !! key_id) ->
   delete_apikey key_id m = (inr tt, snd (delete_key key_id m))).
Proof.
  assert (Hkeys : forall k, k <> key_id ->
            _keys (snd (delete_key key_id m)) !! k = _keys m !! k).
  { intros k Hk. unfold delete_key. destruct (_keys m !! key_id); simpl;
      [now apply lookup_delete_ne | reflexivity]. }
  assert (Hgone : _keys (snd (delete_key key_id m)) !! key_id = None).
  { unfold delete_key. destruct (_keys m !! key_id) eqn:Hl; simpl;
      [apply lookup_delete_eq | exact Hl]. }
  split; [|split; [|split]].
  - unfold delete_key. destruct (_keys m !! key_id); simpl.
    + split; [eauto | reflexivity].
    + split; [discriminate | intros [? [=]]].
  - intros token. rewrite verify_key_iff.
    split; (intros [Hp|(k & e & H)]; [now left | right]).
    + destruct H as (Hk & Hen & Hkey).
      destruct (decide (k = key_id)) as [->|Hne]; [congruence|].
      exists k, e. rewrite <- (Hkeys k Hne). auto.
    + destruct H as (Hne & Hk & Hen & Hkey).
      exists k, e. rewrite (Hkeys k Hne). auto.
  - intros Hl. unfold delete_apikey, delete_key. now rewrite Hl.
  - intros [e Hl]. unfold delete_apikey, delete_key. now rewrite Hl.
Qed.

(** X13.  The admin update route answers 404 ["API key not found"] exactly
    for an id that is not stored, and then leaves the manager and its file
    untouched; for a stored id it returns the entry's summary with the id,
    the creation time and the key preview unchanged, and with the name and
    the flag replaced where the request carries them, and it leaves the
    entries under every other id as they were. *)
Theorem update_apikey_outcomes (key_id : string) (name : option string)
    (enabled : option bool) (m : ApiKeyManager) :
  (_keys m !! key_id = None ->
   update_apikey key_id name enabled m =
     (inl (HTTPException 404 "API key not found"), m)) /\
  (forall entry, _keys m !! key_id = Some entry ->
     update_apikey key_id name enabled m =
       (inr {| s_id := ak_id entry;
               s_name := default (ak_name entry) name;
               s_key_preview := key_preview (ak_key entry);
               s_created_at := ak_created_at entry;
               s_enabled := default (ak_enabled entry) enabled |},
        snd (update_key key_id name enabled m)) /\
     forall k, k <> key_id ->
       _keys (snd (update_key key_id name enabled m)) !! k = _keys m !! k).
Proof.
  split.
  - intros Hl. unfold update_apikey, update_key, ApiKeys.update_key.
    now rewrite Hl.
  - intros entry Hl. split.
    + unfold update_apikey, update_key, ApiKeys.update_key. now rewrite Hl.
    + intros k Hk. rewrite (update_key_keys _ _ _ _ _ Hl).
      now apply lookup_insert_ne.
Qed.

(** X14.  The key file mirrors the manager: for every manager a process
    can hold (built by [__init__] on any file, then changed by
    [create_key], [update_key] and [delete_key] in any order), every entry
    is filed under its own id, and a process started on the manager's file
    holds exactly the same keys, whatever id and time its seeding would
    draw.  The model's [_save] always writes; the code's logs a failed
    write and goes on. *)
Theorem reachable_manager_reloads (m : ApiKeyManager)
    (token_hex4 now : string) :
  reachable PROXY_API_KEY m ->
  own_ids (_keys m) /\
  _keys (init PROXY_API_KEY token_hex4 now (_storage m)) = _keys m.
Proof.
  intros Hr. destruct (reachable_invariant m Hr) as [Hown Hre].
  split; [exact Hown | apply Hre].
Qed.

(** X15.  One entry of the key file that lacks a required key costs the
    entries after it: with an environment key set, [__init__] on a file
    whose list is well-formed entries, then such an entry, then anything,
    keeps the entries before it, adds the seeded default entry, and writes
    the file anew from those, so the entries after the malformed one are
    gone from memory and from the file. *)
Theorem malformed_entry_drops_the_rest (token_hex4 now : string)
    (good : list ApiKeyEntry) (bad : key_dict) (rest : list key_dict) :
  PROXY_API_KEY <> "" ->
  from_dict bad = None ->
  _keys (init PROXY_API_KEY token_hex4 now
           (Keys (map to_dict good ++ bad :: rest))) =
    <[token_hex4 := {| ak_id := token_hex4; ak_name := "Default (from env)";
                       ak_key := PROXY_API_KEY; ak_created_at := now;
                       ak_enabled := true |}]> (keys_of good ∅) /\
  _storage (init PROXY_API_KEY token_hex4 now
              (Keys (map to_dict good ++ bad :: rest))) =
    Keys (map to_dict
            (map snd (map_to_list
               (_keys (init PROXY_API_KEY token_hex4 now
                         (Keys (map to_dict good ++ bad :: rest))))))).
Proof.
  intros Hp Hbad. unfold init, _load. simpl.
  rewrite load_entries_app. simpl. rewrite Hbad.
  unfold seed. destruct PROXY_API_KEY as [|a r]; [congruence|].
  split; reflexivity.
Qed.

(** *** The bearer check and the listing *)

(** X16.  The [verify_api_key] dependency of the three routers lets a
    request through exactly when its [Authorization] header is ["Bearer "]
    followed by a token that is the environment key or the key of an
    enabled stored entry; every other request, whether the header is
    missing, empty, differently prefixed or carries an unknown or disabled
    key, gets 401 ["Invalid or missing API Key"]. *)
Theorem verify_api_key_accepts_iff (m : ApiKeyManager)
    (auth_header : option string) :
  (verify_api_key PROXY_API_KEY m auth_header = inr true <->
   exists token,
     auth_header = Some ("Bearer " +:+ token) /\
     (token = PROXY_API_KEY \/
      exists key_id entry,
        _keys m !! key_id = Some entry /\ ak_enabled entry = true /\
        ak_key entry = token)) /\
  (verify_api_key PROXY_API_KEY m auth_header = inr true \/
   verify_api_key PROXY_API_KEY m auth_header =
     inl (HTTPException 401 "Invalid or missing API Key")).
Proof.
  split.
  - unfold verify_api_key. destruct auth_header as [header|].
    + destruct (String.prefix "Bearer " header) eqn:Hpre.
      * apply prefix_append in Hpre as [token ->].
        change (drop_str 7 ("Bearer " +:+ token))
          with (drop_str (String.length "Bearer ") ("Bearer " +:+ token)).
        rewrite drop_str_append. simpl truthy_str. simpl andb.
        destruct (verify_key PROXY_API_KEY m token) eqn:Hv.
        -- split; [intros _ | reflexivity]. exists token.
           split; [reflexivity | now apply verify_key_iff].
        -- split; [discriminate|]. intros (token' & [= Heq] & Hok).
           assert (token = token') as <- by exact Heq.
           apply verify_key_iff in Hok. congruence.
      * rewrite andb_false_r. split; [discriminate|].
        intros (token & [= ->] & _).
        assert (String.prefix "Bearer " ("Bearer " +:+ token) = true)
          by (apply prefix_append; eauto).
        congruence.
    + split; [discriminate | intros (token & [=] & _)].
  - unfold verify_api_key. destruct auth_header as [header|]; [|now right].
    destruct (truthy_str (Some header) && String.prefix "Bearer " header);
      [|now right].
    destruct (verify_key PROXY_API_KEY m (drop_str 7 header)); [left | right];
      reflexivity.
Qed.

(** X17.  The admin listing shows no secret longer than eleven characters:
    no preview in [list_apikeys] equals such a string, be it a stored key
    or the environment key.  Each stored entry is listed, after the
    environment key's entry; and a key of at most eight characters is
    shown in full. *)
Theorem listing_hides_long_keys (m : ApiKeyManager) :
  (forall secret s,
     11 < String.length secret ->
     s ∈ list_apikeys PROXY_API_KEY m -> s_key_preview s <> secret) /\
  (forall key_id entry,
     _keys m !! key_id = Some entry ->
     summary_of entry ∈ list_apikeys PROXY_API_KEY m) /\
  (exists rest,
     list_apikeys PROXY_API_KEY m =
       {| s_id := "env_default"; s_name := "Default API Key (from .env)";
          s_key_preview := key_preview PROXY_API_KEY;
          s_created_at := "N/A"; s_enabled := true |} :: rest /\
     length rest = size (_keys m)) /\
  (forall key, String.length key <= 8 -> key_preview key = key).
Proof.
  split; [|split; [|split]].
  - intros secret s Hlen Hin Heq. unfold list_apikeys in Hin. simpl in Hin.
    assert (Hs : exists key, s_key_preview s = key_preview key).
    { apply elem_of_cons in Hin as [->|Hin]; [now eexists|].
      apply elem_of_list_keys in Hin as (k & e & _ & ->). now eexists. }
    destruct Hs as [key Hs]. rewrite Hs in Heq.
    pose proof (proj1 (length_key_preview key)) as Hle.
    rewrite Heq in Hle. lia.
  - intros key_id entry Hl. unfold list_apikeys. simpl. right.
    apply elem_of_list_keys. eauto.
  - eexists. split; [reflexivity|].
    unfold list_keys. rewrite !length_map. apply length_map_to_list.
  - intros key. apply length_key_preview.
Qed.

End Manager.

Lemma update_changes_one_key_witness :
  verify_key "env-key"
    (snd (update_key "k1" None (Some false) sample_manager))
    "sk-0123456789abcdef" = false.
Proof.
  assert (Hl : _keys sample_manager !! "k1" =
               Some (sample_entry "k1" "sk-0123456789abcdef"))
    by (vm_compute; reflexivity).
  destruct (update_changes_one_key "env-key" "k1"
              (sample_entry "k1" "sk-0123456789abcdef") None sample_manager Hl)
    as (_ & _ & Hoff & _).
  apply Hoff.
  - discriminate.
  - intros k e Hk _. unfold sample_manager in Hk. simpl in Hk.
    apply lookup_insert_Some in Hk as [[<- _]|[_ Hk]]; [reflexivity|].
    now rewrite lookup_empty in Hk.
Defined.

Lemma reachable_manager_reloads_witness :
  _keys (init "env-key" "0a0b0c0d" "2025-01-02T00:00:00+00:00"
           (_storage (snd (create_key "k2" "ff" "2025-01-01T00:00:00+00:00"
                             "ci" (init "env-key" "k1"
                                     "2025-01-01T00:00:00+00:00" Missing))))) =
  _keys (snd (create_key "k2" "ff" "2025-01-01T00:00:00+00:00" "ci"
                (init "env-key" "k1" "2025-01-01T00:00:00+00:00" Missing))).
Proof.
  apply (reachable_manager_reloads "env-key"
           (snd (create_key "k2" "ff" "2025-01-01T00:00:00+00:00" "ci"
                   (init "env-key" "k1" "2025-01-01T00:00:00+00:00" Missing)))
           "0a0b0c0d" "2025-01-02T00:00:00+00:00").
  apply reach_create, reach_init.
Defined.

Lemma malformed_entry_drops_the_rest_witness :
  _keys (init "env-key" "k0" "2025-01-02T00:00:00+00:00"
           (Keys (map to_dict [sample_entry "k1" "sk-1"] ++
                  sample_broken_dict :: [to_dict (sample_entry "k2" "sk-2")])))
    !! "k2" = None.
Proof.
  destruct (malformed_entry_drops_the_rest "env-key" "k0"
              "2025-01-02T00:00:00+00:00" [sample_entry "k1" "sk-1"]
              sample_broken_dict [to_dict (sample_entry "k2" "sk-2")])
    as [Hkeys _]; [discriminate | reflexivity |].
  rewrite Hkeys. vm_compute. reflexivity.
Defined.

End ApiKeyStoreProps.

(** ** The handlers: every way out *)

Module HandlerOutcomes.
Import Py Models Truncation Routes.
Local Open Scope py_scope.

Section Handlers.
Context `{R : Registry} `{C : Collaborators}.

(** [_record_history] always returns, having added one record. *)
Lemma record_history_run (model : string) (stream : bool) (status start : Z)
    (error : option string) (w : World) :
  exists w',
    _record_history model stream status start error w = (inr tt, w') /\
    logged w w' model stream status error /\
    response_store w' = response_store w /\
    upstream_calls w' = upstream_calls w /\
    closed_clients w' = closed_clients w /\
    uuids w' = S (uuids w).
Proof.
  unfold _record_history, read_clock, fresh_uuid. unfold_monad. simpl.
  eexists. split; [reflexivity|]. split; [|repeat split].
  eexists. split; [reflexivity|]. repeat split.
Qed.

(** What the [except] clauses make of the outcome of a [try] block that
    has left the client open and the history alone. *)
Lemma handler_except_exit (model : string) (stream : bool) (p : prepared)
    (prefix : string) (e : py_exn) (w1 w : World) :
  closed_clients w = closed_clients w1 ->
  request_history w = request_history w1 ->
  response_store w = response_store w1 ->
  exists r w',
    handler_except model stream p prefix (inl e) w = (inl r, w') /\
    upstream_calls w' = upstream_calls w /\
    handler_exit model stream p w1 w' (inl r) /\
    r = match e with
        | HTTPException code detail => HTTPException code detail
        | GeneratorExit => GeneratorExit
        | _ => HTTPException 500 (prefix +:+ exn_message e)
        end.
Proof.
  intros Hc Hh Hs. unfold handler_except.
  destruct e as [code detail|msg|msg|]; simpl.
  - destruct (record_history_run model stream code (p_start_time p)
                (Some (take_str 200 detail))
                (set_closed_clients w (closed_clients w ++ [p_shared p])))
      as (w' & Hrun & (c & Hlog) & Hst & Hup & Hcl & _).
    exists (HTTPException code detail), w'.
    unfold close_client. unfold_monad. rewrite Hrun.
    split; [reflexivity|]. split; [exact Hup|]. split; [|reflexivity].
    simpl. rewrite Hcl, Hst. simpl. rewrite Hc, Hs.
    split; [reflexivity|]. split; [reflexivity|].
    eexists. exists c. simpl in Hlog. rewrite <- Hh. exact Hlog.
  - destruct (record_history_run model stream 500 (p_start_time p)
                (Some (take_str 200 msg))
                (set_closed_clients w (closed_clients w ++ [p_shared p])))
      as (w' & Hrun & (c & Hlog) & Hst & Hup & Hcl & _).
    exists (HTTPException 500 (prefix +:+ msg)), w'.
    unfold close_client. unfold_monad. rewrite Hrun.
    split; [reflexivity|]. split; [exact Hup|]. split; [|reflexivity].
    simpl. rewrite Hcl, Hst. simpl. rewrite Hc, Hs.
    split; [reflexivity|]. split; [reflexivity|].
    eexists. exists c. simpl in Hlog. rewrite <- Hh. exact Hlog.
  - destruct (record_history_run model stream 500 (p_start_time p)
                (Some (take_str 200 msg))
                (set_closed_clients w (closed_clients w ++ [p_shared p])))
      as (w' & Hrun & (c & Hlog) & Hst & Hup & Hcl & _).
    exists (HTTPException 500 (prefix +:+ msg)), w'.
    unfold close_client. unfold_monad. rewrite Hrun.
    split; [reflexivity|]. split; [exact Hup|]. split; [|reflexivity].
    simpl. rewrite Hcl, Hst. simpl. rewrite Hc, Hs.
    split; [reflexivity|]. split; [reflexivity|].
    eexists. exists c. simpl in Hlog. rewrite <- Hh. exact Hlog.
  - exists GeneratorExit, w. unfold_monad.
    split; [reflexivity|]. split; [reflexivity|]. split; [|reflexivity].
    simpl. auto.
Qed.

(** The error branch, with its history record. *)
Lemma upstream_error_exit (model : string) (stream : bool) (p : prepared)
    (resp : Response) (w1 w : World) :
  closed_clients w = closed_clients w1 ->
  request_history w = request_history w1 ->
  exists w',
    upstream_error model stream p resp w =
      (inr (JSONResponse (status_code resp)
              (ErrorEnvelope
                 (error_message_of (default "Unknown error" (aread resp)))
                 "kiro_api_error" (status_code resp))), w') /\
    upstream_calls w' = upstream_calls w /\
    response_store w' = response_store w /\
    handler_exit model stream p w1 w'
      (inr (JSONResponse (status_code resp)
              (ErrorEnvelope
                 (error_message_of (default "Unknown error" (aread resp)))
                 "kiro_api_error" (status_code resp)))).
Proof.
  intros Hc Hh. unfold upstream_error.
  destruct (record_history_run model stream (status_code resp) (p_start_time p)
              (Some (take_str 200
                       (error_message_of (default "Unknown error" (aread resp)))))
              (set_closed_clients w (closed_clients w ++ [p_shared p])))
    as (w' & Hrun & (c & Hlog) & Hst & Hup & Hcl & _).
  exists w'. unfold close_client. unfold_monad. rewrite Hrun.
  split; [reflexivity|]. split; [exact Hup|]. split; [exact Hst|].
  simpl. rewrite Hcl. simpl. rewrite Hc.
  split; [reflexivity|]. eexists. exists c. simpl in Hlog.
  rewrite <- Hh. exact Hlog.
Qed.

(** What the preparation of either handler fixes. *)
Lemma chat_prepare_result (request_data : ChatCompletionRequest)
    (w w1 : World) (p : prepared) :
  chat_prepare request_data w = (inr p, w1) ->
  p_chat_request p =
    set_messages request_data (repair (cc_messages request_data)) /\
  p_shared p = negb (cc_stream request_data) /\
  build_kiro_payload (p_chat_request p) (uuid4_hex (uuids w))
                     profile_arn_for_payload = inr (p_payload p).
Proof.
  unfold chat_prepare, build_payload, read_clock, fresh_uuid. unfold_monad.
  simpl.
  destruct (build_kiro_payload _ _ _) as [msg|payload] eqn:Hb; [discriminate|].
  intros [= <- <-]. simpl. rewrite Hb. repeat split.
Qed.





(** X19.  What becomes of a failure inside the [try] block, be it the
    upstream call that raises or, for a non-streaming request answered
    with 200, the collector: an [HTTPException] leaves the handler as it
    is, with its code and detail; any other [Exception] leaves it as an
    [HTTPException] 500 whose detail is [str(e)], which the Chat
    Completions handler prefixes with ["Internal Server Error: "] and the
    Responses handler does not. *)
Theorem failure_becomes_http_error :
  (forall (request_data : ChatCompletionRequest) (w w1 : World) (p : prepared)
          (e : py_exn),
     chat_prepare request_data w = (inr p, w1) ->
     is_Exception e = true ->
     (request_with_retry (p_url p) (p_payload p) = inl e \/
      exists resp,
        request_with_retry (p_url p) (p_payload p) = inr resp /\
        status_code resp = 200%Z /\ cc_stream request_data = false /\
        collect_stream_response resp (cc_model request_data) = inl e) ->
     fst (chat_completions request_data w) =
       inl (match e with
            | HTTPException code detail => HTTPException code detail
            | _ => HTTPException 500
                     ("Internal Server Error: " +:+ exn_message e)
            end)) /\
  (forall (request_data : ResponsesRequest) (w w1 : World) (p : prepared)
          (e : py_exn),
     responses_prepare request_data w = (inr p, w1) ->
     is_Exception e = true ->
     (request_with_retry (p_url p) (p_payload p) = inl e \/
      exists resp,
        request_with_retry (p_url p) (p_payload p) = inr resp /\
        status_code resp = 200%Z /\ rr_stream request_data = false /\
        collect_stream_response resp (rr_model request_data) = inl e) ->
     fst (responses request_data w) =
       inl (match e with
            | HTTPException code detail => HTTPException code detail
            | _ => HTTPException 500 (exn_message e)
            end)).
Proof.
  split.
  - intros request_data w w1 p e Hprep He Hcause.
    destruct (chat_prepare_result _ _ _ _ Hprep) as (Hreq & _).
    assert (Hm : cc_model (p_chat_request p) = cc_model request_data)
      by now rewrite Hreq.
    assert (Hs : cc_stream (p_chat_request p) = cc_stream request_data)
      by now rewrite Hreq.
    assert (Htry : exists w2, chat_try p w1 = (inl e, w2)).
    { unfold chat_try, call_upstream. unfold bind at 1.
      destruct Hcause as [Hup|(resp & Hup & Hst & Hstream & Hcol)];
        rewrite Hup; [eexists; reflexivity|].
      rewrite Hst, Hs, Hstream, Hm, Hcol. simpl. eexists. reflexivity. }
    destruct Htry as [w2 Htry].
    unfold chat_completions. unfold bind at 1. rewrite Hprep.
    unfold bind at 1. unfold attempt. rewrite Htry.
    unfold handler_except, close_client, _record_history, read_clock,
      fresh_uuid.
    destruct e; try discriminate; reflexivity.
  - intros request_data w w1 p e Hprep He Hcause.
    assert (Htry : exists w2, responses_try request_data p w1 = (inl e, w2)).
    { unfold responses_try, call_upstream. unfold bind at 1.
      destruct Hcause as [Hup|(resp & Hup & Hst & Hstream & Hcol)];
        rewrite Hup; [eexists; reflexivity|].
      rewrite Hst, Hstream, Hcol. simpl. eexists. reflexivity. }
    destruct Htry as [w2 Htry].
    unfold responses. unfold bind at 1. rewrite Hprep.
    unfold bind at 1. unfold attempt. rewrite Htry.
    unfold handler_except, close_client, _record_history, read_clock,
      fresh_uuid.
    destruct e; try discriminate; reflexivity.
Qed.

(** [load_previous] touches the response store and the clock only, and
    fails with 404 only. *)
Lemma load_previous_frame (request_data : ResponsesRequest) (w0 w0' : World)
    (r : py_exn + list ChatMessage) :
  load_previous request_data w0 = (r, w0') ->
  upstream_calls w0' = upstream_calls w0 /\
  closed_clients w0' = closed_clients w0 /\
  request_history w0' = request_history w0 /\
  (forall e, r = inl e -> exists detail, e = HTTPException 404 detail).
Proof.
  unfold load_previous, store_get. unfold_monad.
  destruct (truthy_str (previous_response_id request_data));
    [|intros [= <- <-]; repeat split; intros e He; inversion He].
  destruct (previous_response_id request_data) as [id|];
    [|intros [= <- <-]; repeat split; intros e He; inversion He].
  unfold ResponseStore.get.
  destruct (ResponseStore._states (response_store w0) !! id) as [st0|];
    [|intros [= <- <-]; repeat split; intros e He; inversion He; eauto].
  destruct (ResponseStore.truthy_state st0) eqn:Ht; simpl.
  - match goal with |- context [if ?b then _ else _] => destruct b end;
      cbv beta;
      intros [= <- <-]; repeat split; intros e He; inversion He; eauto.
  - rewrite Ht. cbv beta.
    intros [= <- <-]; repeat split; intros e He; inversion He; eauto.
Qed.

(** X20.  A request turned down before the upstream call leaves no trace.
    When the payload builder refuses the (repaired) chat request with a
    [ValueError], [chat_completions] raises [HTTPException] 400 with the
    builder's message; when [responses] fails before its [try] block it
    raises 404 (unknown previous response) or 400 (builder).  In each case
    no upstream call has been made, no client has been closed, and the
    request does not appear in the request history. *)
Theorem rejected_before_upstream :
  (forall (request_data : ChatCompletionRequest) (w : World) (msg : string),
     build_kiro_payload
       (set_messages request_data (repair (cc_messages request_data)))
       (uuid4_hex (uuids w)) profile_arn_for_payload = inl msg ->
     exists w',
       chat_completions request_data w = (inl (HTTPException 400 msg), w') /\
       upstream_calls w' = upstream_calls w /\
       closed_clients w' = closed_clients w /\
       request_history w' = request_history w /\
       response_store w' = response_store w) /\
  (forall (request_data : ResponsesRequest) (w w1 : World) (e : py_exn),
     responses_prepare request_data w = (inl e, w1) ->
     responses request_data w = (inl e, w1) /\
     (exists detail,
        e = HTTPException 404 detail \/ e = HTTPException 400 detail) /\
     upstream_calls w1 = upstream_calls w /\
     closed_clients w1 = closed_clients w /\
     request_history w1 = request_history w).
Proof.
  split.
  - intros request_data w msg Hb.
    unfold chat_completions, chat_prepare, build_payload, read_clock,
      fresh_uuid.
    unfold_monad. simpl. rewrite Hb.
    eexists. split; [reflexivity|]. repeat split.
  - intros request_data w w1 e Hprep.
    split; [unfold responses; unfold bind at 1; now rewrite Hprep|].
    revert Hprep. unfold responses_prepare, read_clock. unfold bind at 1.
    unfold bind at 1.
    destruct (load_previous request_data (set_ticks w (S (ticks w))))
      as [[e'|previous] w0] eqn:Hl;
      destruct (load_previous_frame _ _ _ _ Hl) as (Hu & Hc & Hh & H404).
    + intros [= <- <-]. split; [|auto].
      destruct (H404 e' eq_refl) as [detail ->]. eauto.
    + unfold build_payload, fresh_uuid. unfold_monad.
      destruct (build_kiro_payload _ _ _) as [msg|payload];
        intros [= <- <-]. simpl. split; [eauto | auto].
Qed.

(** The run of [responses] that answers a non-streaming request. *)
Lemma responses_success_run (request_data : ResponsesRequest) (w w1 : World)
    (p : prepared) (resp : Response) (openai_response : OpenAIResponse) :
  responses_prepare request_data w = (inr p, w1) ->
  rr_stream request_data = false ->
  request_with_retry (p_url p) (p_payload p) = inr resp ->
  status_code resp = 200%Z ->
  collect_stream_response resp (rr_model request_data) = inr openai_response ->
  exists w',
    responses request_data w =
      (inr (JSONResponse 200
              (Completion
                 {| or_object := "response";
                    or_id := "resp_" +:+ uuid4_hex (uuids w1);
                    or_message := or_message openai_response;
                    or_rest := or_rest openai_response |})), w') /\
    response_store w' =
      (if rr_store request_data then
         snd (ResponseStore.create (uuid4_hex (uuids w1)) (clock (ticks w1))
                (p_messages p ++ [or_message openai_response])
                (rr_model request_data) (rr_metadata request_data)
                (response_store w1))
       else response_store w1).
Proof.
  intros Hprep Hstream Hup Hst Hcol.
  unfold responses. unfold bind at 1. rewrite Hprep.
  unfold bind at 1. unfold attempt, responses_try, call_upstream.
  unfold bind at 1. rewrite Hup, Hst, Hstream, Hcol. simpl.
  unfold close_client, store_create, _record_history, read_clock, fresh_uuid.
  unfold_monad. destruct (rr_store request_data); simpl;
    eexists; split; reflexivity.
Qed.

(** X21.  A non-streaming Responses request answered with 200 returns a
    JSON response 200 whose body is the collector's result with [object]
    set to ["response"] and [id] set to ["resp_"] followed by a fresh
    uuid.  With [store] set, that id names the stored turn: a later
    request whose [previous_response_id] is that id starts from the
    messages sent upstream for this request followed by the assistant's
    message.  With [store] unset, the response store is left as it was. *)
Theorem stored_response_can_be_continued
    (request_data : ResponsesRequest) (w w1 : World) (p : prepared)
    (resp : Response) (openai_response : OpenAIResponse) :
  responses_prepare request_data w = (inr p, w1) ->
  rr_stream request_data = false ->
  request_with_retry (p_url p) (p_payload p) = inr resp ->
  status_code resp = 200%Z ->
  collect_stream_response resp (rr_model request_data) = inr openai_response ->
  exists w',
    responses request_data w =
      (inr (JSONResponse 200
              (Completion
                 {| or_object := "response";
                    or_id := "resp_" +:+ uuid4_hex (uuids w1);
                    or_message := or_message openai_response;
                    or_rest := or_rest openai_response |})), w') /\
    if rr_store request_data then
      forall follow_up : ResponsesRequest,
        previous_response_id follow_up =
          Some ("resp_" +:+ uuid4_hex (uuids w1)) ->
        exists w'',
          load_previous follow_up w' =
            (inr (p_messages p ++ [or_message openai_response]), w'')
    else response_store w' = response_store w1.
Proof.
  intros Hprep Hstream Hup Hst Hcol.
  destruct (responses_success_run _ _ _ _ _ _ Hprep Hstream Hup Hst Hcol)
    as (w' & Hrun & Hstore).
  exists w'. split; [exact Hrun|].
  destruct (rr_store request_data); [|exact Hstore].
  intros follow_up Hid. unfold load_previous, store_get. rewrite Hid.
  change (truthy_str (Some ("resp_" +:+ uuid4_hex (uuids w1)))) with true.
  cbv iota. unfold bind at 1. rewrite Hstore.
  rewrite ResponseStoreLife.create_lookup. simpl ResponseStore.truthy_state.
  cbv iota. unfold ResponseStore.get.
  rewrite ResponseStoreLife.create_lookup. simpl.
  eexists. reflexivity.
Qed.

End Handlers.


Lemma failure_becomes_http_error_witness :
  fst (@chat_completions sample_registry
         (sample_failing_upstream (OtherException "connection reset"))
         (sample_chat_request false) sample_world) =
    inl (HTTPException 500 "Internal Server Error: connection reset") /\
  fst (@responses (sample_failing_upstream (HTTPException 504 "gateway timeout"))
         (sample_responses_request None false true) sample_world) =
    inl (HTTPException 504 "gateway timeout").
Proof.
  split.
  - destruct (failure_becomes_http_error (R := sample_registry)
                (C := sample_failing_upstream
                        (OtherException "connection reset"))) as [Hchat _].
    eapply (Hchat (sample_chat_request false) sample_world _ _
              (OtherException "connection reset"));
      [vm_compute; reflexivity | reflexivity | left; reflexivity].
  - destruct (failure_becomes_http_error (R := sample_registry)
                (C := sample_failing_upstream
                        (HTTPException 504 "gateway timeout"))) as [_ Hresp].
    eapply (Hresp (sample_responses_request None false true) sample_world
              _ _ (HTTPException 504 "gateway timeout"));
      [vm_compute; reflexivity | reflexivity | left; reflexivity].
Defined.

Lemma rejected_before_upstream_witness :
  request_history
    (snd (@responses (sample_collaborators 200 [])
            (sample_responses_request (Some "resp_unknown") false true)
            sample_world)) = request_history sample_world.
Proof.
  destruct (rejected_before_upstream (R := sample_registry)
              (C := sample_collaborators 200 [])) as [_ Hresp].
  edestruct (Hresp (sample_responses_request (Some "resp_unknown") false true)
               sample_world) as (Hrun & _ & _ & _ & Hh);
    [vm_compute; reflexivity|].
  rewrite Hrun. exact Hh.
Defined.

Lemma stored_response_can_be_continued_witness :
  exists w' w'',
    @load_previous (sample_collaborators 200 [])
       (sample_responses_request (Some "resp_c0ffee00c0ffee00") false true) w' =
      (inr [mk_message "user" (CText "2+2?");
            mk_message "assistant" (CText "4")], w'').
Proof.
  edestruct (stored_response_can_be_continued
               (C := sample_collaborators 200 [])
               (sample_responses_request None false true) sample_world)
    as (w' & _ & Hnext);
    [vm_compute; reflexivity | reflexivity | vm_compute; reflexivity
    | reflexivity | vm_compute; reflexivity |].
  destruct (Hnext (sample_responses_request (Some "resp_c0ffee00c0ffee00")
                     false true) eq_refl) as [w'' Hload].
  exists w', w''. exact Hload.
Defined.

End HandlerOutcomes.

(** ** The stream wrappers: what is sent, and how a stream ends *)

Module StreamOutcomes.
Import Py Models Truncation Routes.
Local Open Scope py_scope.

Section Streaming.
Context `{C : Collaborators}.

(** The relay loop of the chat wrapper hands the relay's chunks over, one
    frame each, until the relay stops or raises or the client closes the
    stream; it touches nothing else. *)
Lemma relay_loop_run (items : list stream_item) (g : gen_state) :
  exists r g',
    async_for items (fun chunk => yield_ (RawFrame chunk)) g = (r, g') /\
    g_world g' = g_world g /\
    streaming_error g' = streaming_error g /\
    client_disconnected g' = client_disconnected g /\
    match g_patience g with
    | None =>
        g_sent g' = g_sent g ++ map RawFrame (frames_before_failure items) /\
        g_patience g' = None /\
        r = match relay_failure items with
            | Some msg => inl (OtherException msg)
            | None => inr tt
            end
    | Some n =>
        if (n <? length (frames_before_failure items))%nat then
          g_sent g' =
            g_sent g ++ map RawFrame (firstn (S n) (frames_before_failure items)) /\
          r = inl GeneratorExit
        else
          g_sent g' = g_sent g ++ map RawFrame (frames_before_failure items) /\
          g_patience g' = Some (n - length (frames_before_failure items)) /\
          r = match relay_failure items with
              | Some msg => inl (OtherException msg)
              | None => inr tt
              end
    end.
Proof.
  revert g. induction items as [|[chunk|msg] items IH]; intros g.
  - exists (inr tt), g. simpl. repeat split.
    destruct (g_patience g) as [n|]; simpl; rewrite ?app_nil_r, ?Nat.sub_0_r;
      repeat split.
  - simpl async_for. unfold bind.
    destruct (g_patience g) as [[|n]|] eqn:Hp; unfold yield_ at 1; rewrite Hp.
    + exists (inl GeneratorExit), (push_frame g (RawFrame chunk) (Some 0)).
      repeat split.
    + destruct (IH (push_frame g (RawFrame chunk) (Some n)))
        as (r & g' & Hrun & Hw & He & Hd & Hcase).
      exists r, g'. split; [exact Hrun|]. simpl in *.
      split; [exact Hw|]. split; [exact He|]. split; [exact Hd|].
      change (S n <? S (length (frames_before_failure items)))%nat
        with (n <? length (frames_before_failure items))%nat.
      destruct (n <? length (frames_before_failure items))%nat.
      * destruct Hcase as [Hs Hr]. rewrite Hs, <- app_assoc. auto.
      * destruct Hcase as (Hs & Hp' & Hr). rewrite Hs, <- app_assoc. auto.
    + destruct (IH (push_frame g (RawFrame chunk) None))
        as (r & g' & Hrun & Hw & He & Hd & Hcase).
      exists r, g'. split; [exact Hrun|]. simpl in *.
      split; [exact Hw|]. split; [exact He|]. split; [exact Hd|].
      destruct Hcase as (Hs & Hp' & Hr). rewrite Hs, <- app_assoc. auto.
  - exists (inl (OtherException msg)), g. simpl. unfold raise.
    split; [reflexivity|]. repeat split.
    destruct (g_patience g) as [n|]; simpl; rewrite ?app_nil_r, ?Nat.sub_0_r;
      repeat split.
Qed.

(** The [except Exception] clause, with what leaves it. *)
Lemma except_exception_outcome (f : sse_event) (e : py_exn) (g : gen_state) :
  exists outcome g',
    except_exception f e g = (inl outcome, g') /\
    (outcome = e \/ outcome = GeneratorExit) /\
    (g_patience g = None -> outcome = e) /\
    g_world g' = g_world g /\
    g_sent g' = g_sent g ++ [f] /\
    assistant_message_content g' = assistant_message_content g /\
    client_disconnected g' = client_disconnected g /\
    streaming_error g' = Some e.
Proof.
  unfold except_exception, set_streaming_error, yield_. unfold_monad. simpl.
  destruct (g_patience g) as [[|n]|]; simpl;
    do 2 eexists; (split; [reflexivity|]); simpl;
    (split; [auto|]); (split; [intros; congruence || reflexivity|]);
    repeat split.
Qed.

(** The [finally] block of the chat wrapper. *)
Lemma chat_finally_result (h : chat_stream) (g : gen_state) :
  exists g',
    chat_finally h g = (inr tt, g') /\
    closed_clients (g_world g') = closed_clients (g_world g) ++ [false] /\
    upstream_calls (g_world g') = upstream_calls (g_world g) /\
    response_store (g_world g') = response_store (g_world g) /\
    g_sent g' = g_sent g /\
    streaming_error g' = streaming_error g /\
    client_disconnected g' = client_disconnected g /\
    match streaming_error g with
    | None => logged (g_world g) (g_world g') (cc_model (cs_request h)) true
                     200 None
    | Some e => logged (g_world g) (g_world g') (cc_model (cs_request h)) true
                       500 (Some (take_str 200 (exn_message e)))
    end.
Proof.
  unfold chat_finally, in_world, close_client, _record_history, read_clock,
    fresh_uuid.
  unfold_monad. simpl.
  destruct (streaming_error g); simpl;
    eexists; (split; [reflexivity|]); simpl;
    do 6 (split; [reflexivity|]);
    eexists; (split; [reflexivity|]); repeat split.
Qed.

(** The [finally] block of the Responses wrapper adds one history record
    and makes no upstream call. *)
Lemma responses_finally_logged (h : responses_stream) (g : gen_state) :
  exists g',
    responses_finally h g = (inr tt, g') /\
    upstream_calls (g_world g') = upstream_calls (g_world g) /\
    client_disconnected g' = client_disconnected g /\
    match streaming_error g with
    | None => logged (g_world g) (g_world g') (rr_model (rs_request h)) true
                     200 None
    | Some e => logged (g_world g) (g_world g') (rr_model (rs_request h)) true
                       500 (Some (take_str 200 (exn_message e)))
    end.
Proof.
  unfold responses_finally, in_world, close_client, store_create,
    _record_history, read_clock, fresh_uuid.
  unfold_monad. simpl.
  destruct (rr_store (rs_request h)); destruct (streaming_error g); simpl;
    eexists; (split; [reflexivity|]); simpl;
    do 2 (split; [reflexivity|]);
    eexists; (split; [reflexivity|]); repeat split.
Qed.

(** The [try] block of the chat wrapper with its [except] clauses. *)
Lemma chat_guarded_run (h : chat_stream) (g : gen_state) :
  streaming_error g = None ->
  exists rg g2 r g1,
    async_for (relay (cs_response h)) (fun chunk => yield_ (RawFrame chunk)) g
      = (r, g1) /\
    chat_guarded h g = (rg, g2) /\
    g_world g2 = g_world g /\
    match r with
    | inr _ =>
        rg = inr tt /\ g2 = g1
    | inl GeneratorExit =>
        rg = inr tt /\ streaming_error g2 = None /\
        client_disconnected g2 = true /\ g_sent g2 = g_sent g1
    | inl e =>
        streaming_error g2 = Some e /\ is_Exception e = true /\
        (rg = inl e \/ rg = inl GeneratorExit) /\
        (g_patience g1 = None -> rg = inl e) /\
        g_sent g2 =
          g_sent g1 ++ [RawFrame ("data: [DONE]" +:+ newline +:+ newline)] /\
        client_disconnected g2 = client_disconnected g1
    end.
Proof.
  intros Hnone.
  destruct (relay_loop_run (relay (cs_response h)) g)
    as (r & g1 & Hloop & Hw & He & Hd & _).
  unfold chat_guarded. unfold bind at 1. unfold attempt. rewrite Hloop.
  destruct r as [e|[]].
  - destruct e as [code detail|msg|msg|].
    + destruct (except_exception_outcome
                  (RawFrame ("data: [DONE]" +:+ newline +:+ newline))
                  (HTTPException code detail) g1)
        as (o & g2 & Hex & Ho & Hread & Hw2 & Hs2 & _ & Hd2 & He2).
      exists (inl o), g2, (inl (HTTPException code detail)), g1.
      unfold is_Exception. cbv iota beta. rewrite Hex.
      split; [reflexivity|]. split; [reflexivity|]. split; [congruence|].
      split; [exact He2|]. split; [reflexivity|].
      split; [destruct Ho as [->| ->]; auto|].
      split; [intros Hp; now rewrite (Hread Hp)|]. auto.
    + destruct (except_exception_outcome
                  (RawFrame ("data: [DONE]" +:+ newline +:+ newline))
                  (ValueError msg) g1)
        as (o & g2 & Hex & Ho & Hread & Hw2 & Hs2 & _ & Hd2 & He2).
      exists (inl o), g2, (inl (ValueError msg)), g1.
      unfold is_Exception. cbv iota beta. rewrite Hex.
      split; [reflexivity|]. split; [reflexivity|]. split; [congruence|].
      split; [exact He2|]. split; [reflexivity|].
      split; [destruct Ho as [->| ->]; auto|].
      split; [intros Hp; now rewrite (Hread Hp)|]. auto.
    + destruct (except_exception_outcome
                  (RawFrame ("data: [DONE]" +:+ newline +:+ newline))
                  (OtherException msg) g1)
        as (o & g2 & Hex & Ho & Hread & Hw2 & Hs2 & _ & Hd2 & He2).
      exists (inl o), g2, (inl (OtherException msg)), g1.
      unfold is_Exception. cbv iota beta. rewrite Hex.
      split; [reflexivity|]. split; [reflexivity|]. split; [congruence|].
      split; [exact He2|]. split; [reflexivity|].
      split; [destruct Ho as [->| ->]; auto|].
      split; [intros Hp; now rewrite (Hread Hp)|]. auto.
    + do 2 eexists. exists (inl GeneratorExit), g1.
      unfold set_client_disconnected. unfold_monad.
      split; [reflexivity|]. split; [reflexivity|]. simpl.
      split; [exact Hw|]. split; [reflexivity|].
      split; [congruence|]. auto.
  - exists (inr tt), g1, (inr tt), g1. unfold_monad.
    split; [reflexivity|]. split; [reflexivity|]. auto.
Qed.

Lemma chat_wrapper_result (h : chat_stream) (g0 g2 g3 : gen_state)
    (rg : py_exn + unit) :
  chat_guarded h g0 = (rg, g2) ->
  chat_finally h g2 = (inr tt, g3) ->
  chat_stream_wrapper h g0 = (rg, g3).
Proof.
  intros Hg Hf. unfold chat_stream_wrapper. unfold bind at 1. unfold attempt.
  rewrite Hg. unfold bind at 1. rewrite Hf. destruct rg as [e|[]]; reflexivity.
Qed.

(** *** What the loops can raise *)

Lemma yield_raises (f : sse_event) (g g' : gen_state) (e : py_exn) :
  yield_ f g = (inl e, g') -> e = GeneratorExit.
Proof.
  unfold yield_. destruct (g_patience g) as [[|n]|]; intros [=]; auto.
Qed.

Lemma for_each_raises {A} (xs : list A) (body : A -> M gen_state unit)
    (g g' : gen_state) (e : py_exn) :
  (forall x g0 g1 e0, body x g0 = (inl e0, g1) -> e0 = GeneratorExit) ->
  for_each xs body g = (inl e, g') -> e = GeneratorExit.
Proof.
  intros Hb. revert g. induction xs as [|x xs IH]; intros g; simpl.
  - discriminate.
  - unfold bind. destruct (body x g) as [[e0|[]] g1] eqn:Hx.
    + intros [= <- <-]. eapply Hb, Hx.
    + apply IH.
Qed.

Lemma emit_tool_calls_raises (d : Delta) (g g' : gen_state) (e : py_exn) :
  emit_tool_calls d g = (inl e, g') -> e = GeneratorExit.
Proof.
  unfold emit_tool_calls. destruct (delta_tool_calls d) as [tcs|];
    [|discriminate].
  apply for_each_raises. intros tc g0 g1 e0.
  destruct (tc_arguments tc) as [[|a r]|]; try discriminate.
  apply yield_raises.
Qed.

Lemma emit_text_raises (d : Delta) (g g' : gen_state) (e : py_exn) :
  emit_text d g = (inl e, g') -> e = GeneratorExit.
Proof.
  unfold emit_text. destruct (delta_content d) as [[|a r]|]; try discriminate.
  unfold append_content. unfold_monad. apply yield_raises.
Qed.

Lemma emit_item_added_raises (chunk_data : ChunkData) (g g' : gen_state)
    (e : py_exn) :
  emit_item_added chunk_data g = (inl e, g') -> e = GeneratorExit.
Proof.
  unfold emit_item_added. unfold_monad.
  destruct (first_chunk g && truthy_choices chunk_data); [|discriminate].
  unfold set_first_chunk, in_world, fresh_uuid. unfold_monad. simpl.
  apply yield_raises.
Qed.

Lemma translate_chunk_raises (response_id chunk : string) (g g' : gen_state)
    (e : py_exn) :
  translate_chunk response_id chunk g = (inl e, g') ->
  e = GeneratorExit \/ exists msg, e = OtherException msg.
Proof.
  unfold translate_chunk. destruct (String.eqb _ "[DONE]").
  - intros H. left. eapply yield_raises, H.
  - destruct (chunk_loads _) as [chunk_data|];
      [|intros [= <- <-]; right; eauto].
    unfold bind at 1.
    destruct (emit_item_added chunk_data g) as [[e0|[]] g1] eqn:Hitem.
    + intros [= <- <-]. left. eapply emit_item_added_raises, Hitem.
    + destruct (truthy_choices chunk_data); [|discriminate].
      unfold bind at 1.
      destruct (emit_text (first_delta chunk_data) g1) as [[e0|[]] g2] eqn:Ht.
      * intros [= <- <-]. left. eapply emit_text_raises, Ht.
      * intros H. left. eapply emit_tool_calls_raises, H.
Qed.

(** An [async for] over the relay raises what its body raises, or the
    relay's own exception. *)
Lemma async_for_raises (items : list stream_item)
    (body : string -> M gen_state unit) (g g' : gen_state) (e : py_exn) :
  (forall chunk g0 g1 e0,
     body chunk g0 = (inl e0, g1) ->
     e0 = GeneratorExit \/ exists msg, e0 = OtherException msg) ->
  async_for items body g = (inl e, g') ->
  e = GeneratorExit \/ exists msg, e = OtherException msg.
Proof.
  intros Hb. revert g. induction items as [|[chunk|msg] items IH]; intros g;
    simpl.
  - discriminate.
  - unfold bind. destruct (body chunk g) as [[e0|[]] g1] eqn:Hx.
    + intros [= <- <-]. eapply Hb, Hx.
    + apply IH.
  - intros [= <- <-]. right. eauto.
Qed.

Lemma logged_from (w0 w1 w' : World) (model : string) (stream : bool)
    (status : Z) (error : option string) :
  request_history w1 = request_history w0 ->
  logged w1 w' model stream status error ->
  logged w0 w' model stream status error.
Proof. intros Hh (c & Hc & Hrest). exists c. now rewrite <- Hh. Qed.

(** The [try] block of the Responses wrapper with its [except] clauses. *)
Lemma responses_guarded_run (h : responses_stream) (g : gen_state) :
  streaming_error g = None ->
  exists rg g2 r g1,
    responses_loop h g = (r, g1) /\
    steps g g1 /\
    responses_guarded h g = (rg, g2) /\
    g_world g2 = g_world g1 /\
    assistant_message_content g2 = assistant_message_content g1 /\
    match r with
    | inr _ => rg = inr tt /\ g2 = g1
    | inl GeneratorExit => rg = inr tt /\ g2 = g1
    | inl e =>
        streaming_error g2 = Some e /\ is_Exception e = true /\
        (rg = inl e \/ rg = inl GeneratorExit) /\
        g_sent g2 = g_sent g1 ++ [ResponseError (exn_message e)]
    end.
Proof.
  intros Hnone.
  destruct (responses_loop h g) as [r g1] eqn:Hloop.
  pose proof (RoutesProps.preserves_responses_loop h _ _ _ Hloop) as Hsteps.
  pose proof (RoutesProps.responses_guarded_result h _ _ _ Hloop) as Hguard.
  destruct r as [e|[]].
  - destruct e as [code detail|msg|msg|].
    + destruct (except_exception_outcome
                  (ResponseError (exn_message (HTTPException code detail))) (HTTPException code detail) g1)
        as (o & g2 & Hex & Ho & _ & Hw2 & Hs2 & Ha2 & _ & He2).
      simpl in Hguard. simpl in Hex. rewrite Hex in Hguard.
      exists (inl o), g2, (inl (HTTPException code detail)), g1.
      split; [reflexivity|]. split; [exact Hsteps|].
      split; [exact Hguard|]. split; [exact Hw2|]. split; [exact Ha2|].
      split; [exact He2|]. split; [reflexivity|].
      split; [destruct Ho as [->| ->]; auto | exact Hs2].
    + destruct (except_exception_outcome
                  (ResponseError (exn_message (ValueError msg))) (ValueError msg) g1)
        as (o & g2 & Hex & Ho & _ & Hw2 & Hs2 & Ha2 & _ & He2).
      simpl in Hguard. simpl in Hex. rewrite Hex in Hguard.
      exists (inl o), g2, (inl (ValueError msg)), g1.
      split; [reflexivity|]. split; [exact Hsteps|].
      split; [exact Hguard|]. split; [exact Hw2|]. split; [exact Ha2|].
      split; [exact He2|]. split; [reflexivity|].
      split; [destruct Ho as [->| ->]; auto | exact Hs2].
    + destruct (except_exception_outcome
                  (ResponseError (exn_message (OtherException msg))) (OtherException msg) g1)
        as (o & g2 & Hex & Ho & _ & Hw2 & Hs2 & Ha2 & _ & He2).
      simpl in Hguard. simpl in Hex. rewrite Hex in Hguard.
      exists (inl o), g2, (inl (OtherException msg)), g1.
      split; [reflexivity|]. split; [exact Hsteps|].
      split; [exact Hguard|]. split; [exact Hw2|]. split; [exact Ha2|].
      split; [exact He2|]. split; [reflexivity|].
      split; [destruct Ho as [->| ->]; auto | exact Hs2].
    + exists (inr tt), g1, (inl GeneratorExit), g1. auto 10.
  - exists (inr tt), g1, (inr tt), g1. auto 10.
Qed.

(** X22.  Every stream is wound up exactly once, however it ends.  For any
    relay and any client, a run of either wrapper closes exactly one client
    (the per-request one), makes no upstream call, and adds exactly one
    history record, in streaming mode: with status 500 and the first 200
    characters of the message when an [Exception] was caught, and then the
    wrapper itself ends with that exception (or with [GeneratorExit], if
    the client went away at the last frame); with status 200 and no error
    otherwise, also when the client closed the stream before its end, and
    then the wrapper ends normally.  The chat wrapper never touches the
    response store. *)
Theorem stream_wrappers_finalize_once :
  (forall (h : chat_stream) (w : World) (patience : option nat),
     exists outcome g',
       chat_stream_wrapper h (start_gen w patience) = (outcome, g') /\
       closed_clients (g_world g') = closed_clients w ++ [false] /\
       upstream_calls (g_world g') = upstream_calls w /\
       response_store (g_world g') = response_store w /\
       match streaming_error g' with
       | None =>
           outcome = inr tt /\
           logged w (g_world g') (cc_model (cs_request h)) true 200 None
       | Some e =>
           (exists msg,
              e = OtherException msg /\
              logged w (g_world g') (cc_model (cs_request h)) true 500
                     (Some (take_str 200 msg))) /\
           (outcome = inl e \/ outcome = inl GeneratorExit)
       end) /\
  (forall (h : responses_stream) (w : World) (patience : option nat),
     exists outcome g',
       responses_stream_wrapper h (start_gen w patience) = (outcome, g') /\
       closed_clients (g_world g') = closed_clients w ++ [false] /\
       upstream_calls (g_world g') = upstream_calls w /\
       match streaming_error g' with
       | None =>
           outcome = inr tt /\
           logged w (g_world g') (rr_model (rs_request h)) true 200 None
       | Some e =>
           (exists msg,
              e = OtherException msg /\
              logged w (g_world g') (rr_model (rs_request h)) true 500
                     (Some (take_str 200 msg))) /\
           (outcome = inl e \/ outcome = inl GeneratorExit)
       end).
Proof.
  split.
  - intros h w patience.
    destruct (chat_guarded_run h (start_gen w patience) eq_refl)
      as (rg & g2 & r & g1 & Hloop & Hguard & Hw2 & Hr).
    destruct (chat_finally_result h g2)
      as (g3 & Hfin & Hc3 & Hu3 & Hst3 & _ & He3 & _ & Hlog).
    exists rg, g3. split; [exact (chat_wrapper_result h _ _ _ _ Hguard Hfin)|].
    rewrite Hc3, Hu3, Hst3, Hw2, He3. simpl.
    do 3 (split; [reflexivity|]).
    assert (Hh : request_history (g_world g2) = request_history w)
      by now rewrite Hw2.
    destruct r as [e|[]].
    + destruct (async_for_raises _ _ _ _ _
                  (fun chunk g0 g1 e0 H => or_introl (yield_raises _ _ _ _ H))
                  Hloop) as [->|[msg ->]].
      * destruct Hr as (-> & He2 & _). rewrite He2 in *.
        split; [reflexivity | exact (logged_from _ _ _ _ _ _ _ Hh Hlog)].
      * destruct Hr as (He2 & _ & Ho & _). rewrite He2 in *.
        split; [|exact Ho]. exists msg.
        split; [reflexivity | exact (logged_from _ _ _ _ _ _ _ Hh Hlog)].
    + destruct (relay_loop_run (relay (cs_response h)) (start_gen w patience))
        as (r' & g1' & Hloop' & _ & He1 & _).
      rewrite Hloop in Hloop'. injection Hloop' as <- <-. simpl in He1.
      destruct Hr as [-> ->]. rewrite He1 in *.
      split; [reflexivity | exact (logged_from _ _ _ _ _ _ _ Hh Hlog)].
  - intros h w patience.
    destruct (responses_guarded_run h (start_gen w patience) eq_refl)
      as (rg & g2 & r & g1 & Hloop & Hsteps & Hguard & Hw2 & _ & Hr).
    destruct Hsteps as (_ & Hh1 & Hu1 & Hc1 & _ & _ & He1 & _).
    simpl in Hh1, Hu1, Hc1, He1.
    destruct (RoutesProps.responses_finally_result h g2)
      as (g3 & Hfin & Hc3 & _ & _ & He3 & _).
    destruct (responses_finally_logged h g2) as (g3' & Hfin' & Hu3 & _ & Hlog).
    rewrite Hfin in Hfin'. injection Hfin' as <-.
    exists rg, g3.
    split; [exact (RoutesProps.responses_wrapper_result h _ _ _ _ Hguard Hfin)|].
    rewrite Hc3, Hu3, Hw2, Hc1, Hu1, He3.
    do 2 (split; [reflexivity|]).
    assert (Hh : request_history (g_world g2) = request_history w)
      by now rewrite Hw2.
    destruct r as [e|[]].
    + destruct (async_for_raises _ _ _ _ _
                  (translate_chunk_raises (rs_response_id h)) Hloop)
        as [->|[msg ->]].
      * destruct Hr as [-> ->]. rewrite He1 in *.
        split; [reflexivity | exact (logged_from _ _ _ _ _ _ _ Hh Hlog)].
      * destruct Hr as (He2 & _ & Ho & _). rewrite He2 in *.
        split; [|exact Ho]. exists msg.
        split; [reflexivity | exact (logged_from _ _ _ _ _ _ _ Hh Hlog)].
    + destruct Hr as [-> ->]. rewrite He1 in *.
      split; [reflexivity | exact (logged_from _ _ _ _ _ _ _ Hh Hlog)].
Qed.

(** X23.  The chat wrapper relays the upstream frames as they are.  To a
    client that keeps reading it sends the relay's chunks in order, one
    frame each, and nothing else when the relay ends by itself; when the
    relay raises, it sends the chunks yielded before that, then one
    ["data: [DONE]"] frame, and raises the same exception.  To a client
    that closes the stream while frame [n + 1] is handed over it has sent
    exactly the first [n + 1] chunks; it notes the disconnection, catches
    no error and ends normally. *)
Theorem chat_stream_relays_frames (h : chat_stream) (w : World) :
  (relay_failure (relay (cs_response h)) = None ->
   exists g',
     chat_stream_wrapper h (start_gen w None) = (inr tt, g') /\
     g_sent g' = map RawFrame (frames_before_failure (relay (cs_response h))) /\
     client_disconnected g' = false /\ streaming_error g' = None) /\
  (forall msg,
     relay_failure (relay (cs_response h)) = Some msg ->
     exists g',
       chat_stream_wrapper h (start_gen w None) =
         (inl (OtherException msg), g') /\
       g_sent g' =
         map RawFrame (frames_before_failure (relay (cs_response h))) ++
         [RawFrame ("data: [DONE]" +:+ newline +:+ newline)] /\
       streaming_error g' = Some (OtherException msg)) /\
  (forall n,
     n < length (frames_before_failure (relay (cs_response h))) ->
     exists g',
       chat_stream_wrapper h (start_gen w (Some n)) = (inr tt, g') /\
       g_sent g' =
         map RawFrame
             (firstn (S n) (frames_before_failure (relay (cs_response h)))) /\
       client_disconnected g' = true /\ streaming_error g' = None).
Proof.
  assert (Hrun : forall patience,
    exists rg g2 r g1 g3,
      async_for (relay (cs_response h))
                (fun chunk => yield_ (RawFrame chunk)) (start_gen w patience)
        = (r, g1) /\
      chat_stream_wrapper h (start_gen w patience) = (rg, g3) /\
      g_sent g3 = g_sent g2 /\ streaming_error g3 = streaming_error g2 /\
      client_disconnected g3 = client_disconnected g2 /\
      match r with
      | inr _ => rg = inr tt /\ g2 = g1
      | inl GeneratorExit =>
          rg = inr tt /\ streaming_error g2 = None /\
          client_disconnected g2 = true /\ g_sent g2 = g_sent g1
      | inl e =>
          streaming_error g2 = Some e /\ is_Exception e = true /\
          (rg = inl e \/ rg = inl GeneratorExit) /\
          (g_patience g1 = None -> rg = inl e) /\
          g_sent g2 =
            g_sent g1 ++ [RawFrame ("data: [DONE]" +:+ newline +:+ newline)] /\
          client_disconnected g2 = client_disconnected g1
      end).
  { intros patience.
    destruct (chat_guarded_run h (start_gen w patience) eq_refl)
      as (rg & g2 & r & g1 & Hloop & Hguard & _ & Hr).
    destruct (chat_finally_result h g2)
      as (g3 & Hfin & _ & _ & _ & Hs3 & He3 & Hd3 & _).
    exists rg, g2, r, g1, g3. split; [exact Hloop|].
    split; [exact (chat_wrapper_result h _ _ _ _ Hguard Hfin)|]. auto. }
  split; [|split].
  - intros Hok.
    destruct (Hrun None) as (rg & g2 & r & g1 & g3 & Hloop & Hw & Hs & He & Hd & Hr).
    destruct (relay_loop_run (relay (cs_response h)) (start_gen w None))
      as (r' & g1' & Hloop' & _ & He1 & Hd1 & Hs1 & _ & Hr1).
    rewrite Hloop in Hloop'. injection Hloop' as <- <-.
    rewrite Hok in Hr1. subst r. destruct Hr as [-> ->].
    exists g3. split; [exact Hw|]. rewrite Hs, He, Hd, Hs1, He1, Hd1. auto.
  - intros msg Hfail.
    destruct (Hrun None) as (rg & g2 & r & g1 & g3 & Hloop & Hw & Hs & He & Hd & Hr).
    destruct (relay_loop_run (relay (cs_response h)) (start_gen w None))
      as (r' & g1' & Hloop' & _ & He1 & Hd1 & Hs1 & Hp1 & Hr1).
    rewrite Hloop in Hloop'. injection Hloop' as <- <-.
    rewrite Hfail in Hr1. subst r.
    destruct Hr as (He2 & _ & _ & Hread & Hs2 & _).
    rewrite (Hread Hp1) in Hw.
    exists g3. split; [exact Hw|]. rewrite Hs, He, Hs2, Hs1, He2. auto.
  - intros n Hn.
    destruct (Hrun (Some n))
      as (rg & g2 & r & g1 & g3 & Hloop & Hw & Hs & He & Hd & Hr).
    destruct (relay_loop_run (relay (cs_response h)) (start_gen w (Some n)))
      as (r' & g1' & Hloop' & _ & He1 & Hd1 & Hcase).
    rewrite Hloop in Hloop'. injection Hloop' as <- <-.
    simpl in Hcase. apply Nat.ltb_lt in Hn. rewrite Hn in Hcase.
    destruct Hcase as [Hs1 ->]. destruct Hr as (-> & He2 & Hd2 & Hs2).
    exists g3. split; [exact Hw|]. rewrite Hs, He, Hd, Hs2, Hs1, He2, Hd2. auto.
Qed.

(** The id a stream handle announces is ["resp_"] followed by a uuid
    the handler drew. *)
Lemma responses_stream_id (request_data : ResponsesRequest) (w0 w : World)
    (h : responses_stream) :
  responses request_data w0 = (inr (ResponsesStreamingResponse h), w) ->
  exists k, rs_response_id h = "resp_" +:+ uuid4_hex k /\ k < uuids w.
Proof.
  unfold responses. unfold bind at 1.
  destruct (responses_prepare request_data w0) as [[e|p] w1]; [discriminate|].
  unfold bind at 1. unfold attempt, responses_try, call_upstream.
  unfold bind at 1.
  destruct (request_with_retry (p_url p) (p_payload p)) as [e|resp].
  { destruct (HandlerOutcomes.handler_except_exit
                (rr_model request_data) (rr_stream request_data) p "" e
                (set_upstream_calls w1
                   (upstream_calls w1 ++ [(p_url p, p_payload p)]))
                (set_upstream_calls w1
                   (upstream_calls w1 ++ [(p_url p, p_payload p)]))
                eq_refl eq_refl eq_refl) as (r & w' & Hex & _).
    rewrite Hex. discriminate. }
  destruct (negb (status_code resp =? 200)%Z).
  { destruct (HandlerOutcomes.upstream_error_exit
                (rr_model request_data) (rr_stream request_data) p resp
                (set_upstream_calls w1
                   (upstream_calls w1 ++ [(p_url p, p_payload p)]))
                (set_upstream_calls w1
                   (upstream_calls w1 ++ [(p_url p, p_payload p)]))
                eq_refl eq_refl) as (w' & Herr & _).
    rewrite Herr. simpl. discriminate. }
  destruct (rr_stream request_data).
  - unfold fresh_uuid. unfold_monad. simpl. intros [= <- <-]. simpl.
    exists (uuids w1). split; [reflexivity | lia].
  - destruct (collect_stream_response resp (rr_model request_data)) as [e|o].
    + unfold raise.
      destruct (HandlerOutcomes.handler_except_exit
                  (rr_model request_data) false p "" e
                  (set_upstream_calls w1
                     (upstream_calls w1 ++ [(p_url p, p_payload p)]))
                  (set_upstream_calls w1
                     (upstream_calls w1 ++ [(p_url p, p_payload p)]))
                  eq_refl eq_refl eq_refl) as (r & w' & Hex & _).
      rewrite Hex. discriminate.
    + unfold close_client, store_create, _record_history, read_clock,
        fresh_uuid.
      unfold_monad. destruct (rr_store request_data); simpl; discriminate.
Qed.

(** Where a run of the Responses wrapper leaves the response store: as it
    was, or with one state more, created under a uuid drawn during the
    run. *)
Lemma responses_wrapper_store (h : responses_stream) (w : World)
    (patience : option nat) :
  response_store
    (g_world (snd (responses_stream_wrapper h (start_gen w patience)))) =
    response_store w \/
  exists n now messages,
    uuids w <= n /\
    response_store
      (g_world (snd (responses_stream_wrapper h (start_gen w patience)))) =
      snd (ResponseStore.create (uuid4_hex n) now messages
             (rr_model (rs_request h)) (rr_metadata (rs_request h))
             (response_store w)).
Proof.
  destruct (responses_guarded_run h (start_gen w patience) eq_refl)
    as (rg & g2 & r & g1 & Hloop & Hsteps & Hguard & Hw2 & _ & _).
  destruct Hsteps as (Hst1 & _ & _ & _ & _ & Hu1 & _). simpl in Hst1, Hu1.
  destruct (RoutesProps.responses_finally_result h g2)
    as (g3 & Hfin & _ & _ & _ & _ & Hst3).
  rewrite (RoutesProps.responses_wrapper_result h _ _ _ _ Hguard Hfin).
  simpl snd. rewrite Hst3, Hw2, Hst1.
  destruct (rr_store (rs_request h) && negb (is_set (streaming_error g2)));
    [right | now left].
  do 3 eexists. split; [exact Hu1 | reflexivity].
Qed.

(** X24.  The id a streamed response announces is never the id its turn is
    stored under.  The handler puts ["resp_"] and a uuid of its own into
    every [response.done] frame, while the wrapper's [finally] block lets
    the store mint another id and drops it.  So, uuids being pairwise
    different, a run of the wrapper (from the handler's world or any later
    one) leaves whatever the store held under the announced id as it was;
    and when that is nothing, a follow-up request naming the announced id
    as [previous_response_id] is answered 404. *)
Theorem announced_id_is_never_stored (request_data : ResponsesRequest)
    (w0 w w' : World) (h : responses_stream) (patience : option nat) :
  responses request_data w0 = (inr (ResponsesStreamingResponse h), w) ->
  (forall i j, uuid4_hex i = uuid4_hex j -> i = j) ->
  uuids w <= uuids w' ->
  ResponseStore._states
    (response_store
       (g_world (snd (responses_stream_wrapper h (start_gen w' patience)))))
    !! rs_response_id h =
  ResponseStore._states (response_store w') !! rs_response_id h /\
  (ResponseStore._states (response_store w') !! rs_response_id h = None ->
   forall follow_up : ResponsesRequest,
     previous_response_id follow_up = Some (rs_response_id h) ->
     fst (load_previous follow_up
            (g_world (snd (responses_stream_wrapper h
                             (start_gen w' patience))))) =
       inl (HTTPException 404
              ("Previous response ID not found: " +:+ rs_response_id h))).
Proof.
  intros Hrun Hinj Hlater.
  destruct (responses_stream_id _ _ _ _ Hrun) as (k & Hid & Hk).
  assert (Hsame :
    ResponseStore._states
      (response_store
         (g_world (snd (responses_stream_wrapper h (start_gen w' patience)))))
      !! rs_response_id h =
    ResponseStore._states (response_store w') !! rs_response_id h).
  { destruct (responses_wrapper_store h w' patience)
      as [-> | (n & now & messages & Hn & ->)]; [reflexivity|].
    unfold ResponseStore.create. simpl. apply lookup_insert_ne.
    rewrite Hid. intros Heq.
    assert (Hu : uuid4_hex n = uuid4_hex k) by (now injection Heq).
    apply Hinj in Hu. lia. }
  split; [exact Hsame|].
  intros Hnone follow_up Hprev. rewrite Hnone in Hsame.
  unfold load_previous, store_get. rewrite Hprev, Hid.
  change (truthy_str (Some ("resp_" +:+ uuid4_hex k))) with true. cbv iota.
  unfold bind at 1. rewrite <- Hid, Hsame. reflexivity.
Qed.

(** *** The text of a stream *)





End Streaming.

Lemma letters_inj (i j : nat) : letters i = letters j -> i = j.
Proof.
  revert j. induction i as [|i IH]; intros [|j]; simpl; try discriminate;
    [reflexivity|].
  intros [= H]. f_equal. now apply IH.
Qed.

Lemma chat_stream_relays_frames_witness :
  exists g',
    @chat_stream_wrapper (sample_collaborators 200 [])
       (sample_chat_stream [Frame "data: a"; Frame "data: b"; Raises "boom"])
       (start_gen sample_world None) = (inl (OtherException "boom"), g') /\
    g_sent g' =
      [RawFrame "data: a"; RawFrame "data: b";
       RawFrame ("data: [DONE]" +:+ newline +:+ newline)].
Proof.
  destruct (chat_stream_relays_frames (C := sample_collaborators 200 [])
              (sample_chat_stream
                 [Frame "data: a"; Frame "data: b"; Raises "boom"])
              sample_world) as (_ & Hfail & _).
  destruct (Hfail "boom" eq_refl) as (g' & Hrun & Hsent & _).
  exists g'. split; [exact Hrun | exact Hsent].
Defined.

Lemma announced_id_is_never_stored_witness :
  ResponseStore._states
    (response_store
       (g_world
          (snd (@responses_stream_wrapper (sample_distinct_uuids sample_items)
                  {| rs_request := sample_responses_request None true true;
                     rs_messages := [mk_message "user" (CText "2+2?")];
                     rs_response_id := "resp_a";
                     rs_response := {| status_code := 200; aread := None;
                                       relay := sample_items |};
                     rs_start_time := 0 |}
                  (start_gen
                     (snd (@responses (sample_distinct_uuids sample_items)
                             (sample_responses_request None true true)
                             sample_world)) None)))))
    !! "resp_a" = None.
Proof.
  destruct (announced_id_is_never_stored
              (C := sample_distinct_uuids sample_items)
              (sample_responses_request None true true) sample_world
              (snd (@responses (sample_distinct_uuids sample_items)
                      (sample_responses_request None true true) sample_world))
              (snd (@responses (sample_distinct_uuids sample_items)
                      (sample_responses_request None true true) sample_world))
              {| rs_request := sample_responses_request None true true;
                 rs_messages := [mk_message "user" (CText "2+2?")];
                 rs_response_id := "resp_a";
                 rs_response := {| status_code := 200; aread := None;
                                   relay := sample_items |};
                 rs_start_time := 0 |} None) as [Hsame _].
  - vm_compute. reflexivity.
  - exact letters_inj.
  - lia.
  - etransitivity; [exact Hsame | vm_compute; reflexivity].
Defined.


End StreamOutcomes.

(** ** The task store *)

Module TasksProps.
Import Py Tasks.

(** *** The dictionary *)

Lemma dict_get_set_eq {V} (k : string) (v : V) (d : list (string * V)) :
  dict_get k (dict_set k v d) = Some v.
Proof.
  induction d as [|[k' v'] d IH]; simpl.
  - now rewrite String.eqb_refl.
  - destruct (String.eqb_spec k' k) as [->|Hne]; simpl.
    + now rewrite String.eqb_refl.
    + destruct (String.eqb_spec k' k); [contradiction | exact IH].
Qed.

Lemma dict_get_set_ne {V} (k k0 : string) (v : V) (d : list (string * V)) :
  k0 <> k -> dict_get k0 (dict_set k v d) = dict_get k0 d.
Proof.
  intros Hne. induction d as [|[k' v'] d IH]; simpl.
  - destruct (String.eqb_spec k k0); [congruence | reflexivity].
  - destruct (String.eqb_spec k' k) as [->|Hk]; simpl.
    + destruct (String.eqb_spec k k0); [congruence | reflexivity].
    + destruct (String.eqb_spec k' k0); [reflexivity | exact IH].
Qed.

Lemma dict_get_pop_ne {V} (k k0 : string) (d : list (string * V)) :
  k0 <> k -> dict_get k0 (dict_pop k d) = dict_get k0 d.
Proof.
  intros Hne. induction d as [|[k' v'] d IH]; simpl; [reflexivity|].
  destruct (String.eqb_spec k' k) as [->|Hk]; simpl.
  - destruct (String.eqb_spec k k0); [congruence | reflexivity].
  - destruct (String.eqb_spec k' k0); [reflexivity | exact IH].
Qed.

Lemma dict_get_None {V} (k : string) (d : list (string * V)) :
  k ∉ map fst d -> dict_get k d = None.
Proof.
  induction d as [|[k' v'] d IH]; simpl; [reflexivity|].
  intros Hnot. destruct (String.eqb_spec k' k) as [->|Hk].
  - exfalso. apply Hnot. now left.
  - apply IH. intros Hin. apply Hnot. now right.
Qed.

Lemma dict_get_elem {V} (k : string) (v : V) (d : list (string * V)) :
  dict_get k d = Some v -> (k, v) ∈ d.
Proof.
  induction d as [|[k' v'] d IH]; simpl; [discriminate|].
  destruct (String.eqb_spec k' k) as [->|Hk].
  - intros [= ->]. now left.
  - intros H. right. now apply IH.
Qed.

Lemma dict_pop_keys {V} (k k0 : string) (d : list (string * V)) :
  k0 ∈ map fst (dict_pop k d) -> k0 ∈ map fst d.
Proof.
  induction d as [|[k' v'] d IH]; simpl; [auto|].
  destruct (String.eqb_spec k' k) as [->|Hk]; simpl.
  - intros H. now right.
  - intros H. apply elem_of_cons in H as [->|H]; [now left | right; auto].
Qed.

Lemma dict_get_pop_eq {V} (k : string) (d : list (string * V)) :
  NoDup (map fst d) -> dict_get k (dict_pop k d) = None.
Proof.
  induction d as [|[k' v'] d IH]; simpl; [reflexivity|].
  intros Hnd. apply NoDup_cons in Hnd as [Hk' Hnd].
  destruct (String.eqb_spec k' k) as [->|Hk]; simpl.
  - now apply dict_get_None.
  - destruct (String.eqb_spec k' k); [contradiction | now apply IH].
Qed.

Lemma dict_set_keys {V} (k k0 : string) (v : V) (d : list (string * V)) :
  k0 ∈ map fst (dict_set k v d) <-> k0 = k \/ k0 ∈ map fst d.
Proof.
  induction d as [|[k' v'] d IH]; simpl.
  - rewrite list_elem_of_singleton. split; [auto | intros [H|H]; [auto | inversion H]].
  - destruct (String.eqb_spec k' k) as [->|Hk]; simpl.
    + rewrite !elem_of_cons. tauto.
    + rewrite !elem_of_cons, IH. tauto.
Qed.

Lemma dict_set_NoDup {V} (k : string) (v : V) (d : list (string * V)) :
  NoDup (map fst d) -> NoDup (map fst (dict_set k v d)).
Proof.
  induction d as [|[k' v'] d IH]; simpl.
  - intros _. apply NoDup_singleton.
  - intros Hnd. apply NoDup_cons in Hnd as [Hk' Hnd].
    destruct (String.eqb_spec k' k) as [->|Hk]; simpl.
    + apply NoDup_cons. auto.
    + apply NoDup_cons. split; [|auto].
      rewrite dict_set_keys. intros [->|H]; [congruence | contradiction].
Qed.

Lemma dict_pop_NoDup {V} (k : string) (d : list (string * V)) :
  NoDup (map fst d) -> NoDup (map fst (dict_pop k d)).
Proof.
  induction d as [|[k' v'] d IH]; simpl; [auto|].
  intros Hnd. apply NoDup_cons in Hnd as [Hk' Hnd].
  destruct (String.eqb_spec k' k) as [->|Hk]; simpl; [exact Hnd|].
  apply NoDup_cons. split; [|auto].
  intros Hin. apply Hk'. eapply dict_pop_keys, Hin.
Qed.

(** The keys of a reachable store are pairwise different. *)
Lemma reachable_NoDup (s : TaskStore) :
  reachable s -> NoDup (map fst (_tasks s)).
Proof.
  induction 1 as [|u nc nu data s _ IH|now k data s _ IH|now k data s _ IH
                  |k s _ IH]; simpl.
  - apply NoDup_nil_2.
  - now apply dict_set_NoDup.
  - unfold update. destruct (dict_get k (_tasks s)); simpl;
      [now apply dict_set_NoDup | exact IH].
  - unfold patch. destruct (dict_get k (_tasks s)); simpl;
      [now apply dict_set_NoDup | exact IH].
  - now apply dict_pop_NoDup.
Qed.

(** X26.  Round trips of the task store.  [get] of the id [create] drew
    returns the task created, with the title, description, status and
    priority of the request and the two timestamps drawn; on any store a
    process can hold, [delete] answers [True] exactly for a stored id and
    the id is not stored afterwards; neither [create] nor [delete] changes
    what [get] returns for another id. *)
Theorem task_create_get_delete (s : TaskStore) :
  (forall uuid4 now_created now_updated data,
     get uuid4 (snd (create uuid4 now_created now_updated data s)) =
       Some (fst (create uuid4 now_created now_updated data s)) /\
     fst (create uuid4 now_created now_updated data s) =
       {| t_id := uuid4; t_title := Some (tc_title data);
          t_description := tc_description data;
          t_status := Some (tc_status data);
          t_priority := Some (tc_priority data);
          t_created_at := now_created; t_updated_at := now_updated |} /\
     forall task_id, task_id <> uuid4 ->
       get task_id (snd (create uuid4 now_created now_updated data s)) =
       get task_id s) /\
  (forall task_id,
     (fst (delete_task task_id s) = true <-> is_Some (get task_id s)) /\
     (reachable s -> get task_id (snd (delete_task task_id s)) = None) /\
     forall task_id', task_id' <> task_id ->
       get task_id' (snd (delete_task task_id s)) = get task_id' s).
Proof.
  split.
  - intros uuid4 nc nu data. unfold get, create. simpl.
    split; [apply dict_get_set_eq|]. split; [reflexivity|].
    intros task_id Hne. now apply dict_get_set_ne.
  - intros task_id. unfold get, delete_task. simpl. split; [|split].
    + destruct (dict_get task_id (_tasks s)); simpl.
      * split; [eauto | reflexivity].
      * split; [discriminate | intros [? [=]]].
    + intros Hr. apply dict_get_pop_eq, reachable_NoDup, Hr.
    + intros task_id' Hne. now apply dict_get_pop_ne.
Qed.

(** X27.  What [update] and [patch] change.  On a stored id both keep the
    task's id and [created_at] and touch no other task.  [update] replaces
    the four fields and stamps [updated_at].  [patch] replaces exactly the
    fields the request sets, an explicit null included (which leaves the
    task without title, status or priority), and stamps [updated_at] only
    when some field is set: a patch that sets nothing returns the task as
    it is.  On an id that is not stored both return nothing and leave the
    store as it was, and the routes raise 404 ["Task not found"]. *)
Theorem task_update_and_patch (now : Z) (task_id : string) (s : TaskStore) :
  (forall task data,
     get task_id s = Some task ->
     get task_id (snd (update now task_id data s)) =
       Some {| t_id := t_id task; t_title := Some (tc_title data);
               t_description := tc_description data;
               t_status := Some (tc_status data);
               t_priority := Some (tc_priority data);
               t_created_at := t_created_at task; t_updated_at := now |} /\
     fst (update now task_id data s) =
       get task_id (snd (update now task_id data s))) /\
  (forall task data,
     get task_id s = Some task ->
     get task_id (snd (patch now task_id data s)) =
       Some {| t_id := t_id task;
               t_title := default (t_title task) (tp_title data);
               t_description :=
                 default (t_description task) (tp_description data);
               t_status := default (t_status task) (tp_status data);
               t_priority := default (t_priority task) (tp_priority data);
               t_created_at := t_created_at task;
               t_updated_at := if patch_is_set data then now
                               else t_updated_at task |} /\
     fst (patch now task_id data s) =
       get task_id (snd (patch now task_id data s)) /\
     (patch_is_set data = false ->
      get task_id (snd (patch now task_id data s)) = Some task)) /\
  (forall data data' task_id',
     task_id' <> task_id ->
     get task_id' (snd (update now task_id data s)) = get task_id' s /\
     get task_id' (snd (patch now task_id data' s)) = get task_id' s) /\
  (get task_id s = None ->
   forall data data',
     update_task now task_id data s = (inl not_found, s) /\
     patch_task now task_id data' s = (inl not_found, s) /\
     get_task task_id s = (inl not_found, s)).
Proof.
  unfold get. split; [|split; [|split]].
  - intros task data Hl. unfold update. rewrite Hl. simpl.
    rewrite dict_get_set_eq. auto.
  - intros task data Hl. unfold patch. rewrite Hl. simpl.
    rewrite dict_get_set_eq. split; [reflexivity|]. split; [reflexivity|].
    intros Hunset. rewrite Hunset. unfold patch_is_set in Hunset.
    destruct (tp_title data), (tp_description data), (tp_status data),
      (tp_priority data); try discriminate.
    simpl. now destruct task.
  - intros data data' task_id' Hne. unfold update, patch.
    destruct (dict_get task_id (_tasks s)); simpl;
      rewrite ?dict_get_set_ne by exact Hne; auto.
  - intros Hl data data'.
    unfold update_task, patch_task, get_task, update, patch, get.
    rewrite Hl. auto.
Qed.

(** *** Sorting *)

Lemma sort_insert_perm {A} (key : A -> Z) (reverse : bool) (x : A)
    (l : list A) :
  sort_insert key reverse x l ≡ₚ x :: l.
Proof.
  induction l as [|y l IH]; simpl; [reflexivity|].
  destruct (if reverse then _ else _); [reflexivity|].
  rewrite IH. apply Permutation_swap.
Qed.

Lemma py_sort_perm {A} (key : A -> Z) (reverse : bool) (l : list A) :
  py_sort key reverse l ≡ₚ l.
Proof.
  induction l as [|x l IH]; simpl; [reflexivity|].
  unfold py_sort in *. simpl. rewrite sort_insert_perm. now rewrite IH.
Qed.

Lemma sort_insert_sorted {A} (key : A -> Z) (reverse : bool) (x : A)
    (l : list A) :
  StronglySorted (fun a b => if reverse then (key b <= key a)%Z
                             else (key a <= key b)%Z) l ->
  StronglySorted (fun a b => if reverse then (key b <= key a)%Z
                             else (key a <= key b)%Z)
                 (sort_insert key reverse x l).
Proof.
  induction 1 as [|y l Hs IH Hy]; simpl.
  - apply SSorted_cons; [apply SSorted_nil | apply Forall_nil_2].
  - destruct reverse.
    + destruct (Z.leb_spec (key y) (key x)) as [Hle|Hgt].
      * apply SSorted_cons; [now apply SSorted_cons|].
        apply Forall_cons. split; [exact Hle|].
        eapply Forall_impl; [exact Hy|]. simpl. intros z Hz. lia.
      * apply SSorted_cons; [exact IH|].
        rewrite sort_insert_perm. apply Forall_cons. split; [lia | exact Hy].
    + destruct (Z.leb_spec (key x) (key y)) as [Hle|Hgt].
      * apply SSorted_cons; [now apply SSorted_cons|].
        apply Forall_cons. split; [exact Hle|].
        eapply Forall_impl; [exact Hy|]. simpl. intros z Hz. lia.
      * apply SSorted_cons; [exact IH|].
        rewrite sort_insert_perm. apply Forall_cons. split; [lia | exact Hy].
Qed.

Lemma py_sort_sorted {A} (key : A -> Z) (reverse : bool) (l : list A) :
  StronglySorted (fun a b => if reverse then (key b <= key a)%Z
                             else (key a <= key b)%Z)
                 (py_sort key reverse l).
Proof.
  induction l as [|x l IH]; [apply SSorted_nil|].
  unfold py_sort in *. simpl. now apply sort_insert_sorted.
Qed.

(** Stability: the elements of one key stay in their order. *)
Lemma sort_insert_stable {A} (key : A -> Z) (reverse : bool) (k : Z) (x : A)
    (l : list A) :
  List.filter (fun a => (key a =? k)%Z) (sort_insert key reverse x l) =
  List.filter (fun a => (key a =? k)%Z) (x :: l).
Proof.
  induction l as [|y l IH]; [reflexivity|].
  simpl sort_insert.
  destruct (if reverse then (key y <=? key x)%Z else (key x <=? key y)%Z)
    eqn:Hc; [reflexivity|].
  assert (Hne : key x <> key y).
  { destruct reverse; apply Z.leb_gt in Hc; lia. }
  simpl in *. rewrite IH.
  destruct (Z.eqb_spec (key x) k), (Z.eqb_spec (key y) k);
    try reflexivity. congruence.
Qed.

Lemma py_sort_stable {A} (key : A -> Z) (reverse : bool) (k : Z)
    (l : list A) :
  List.filter (fun a => (key a =? k)%Z) (py_sort key reverse l) =
  List.filter (fun a => (key a =? k)%Z) l.
Proof.
  induction l as [|x l IH]; [reflexivity|].
  unfold py_sort in *. simpl foldr. rewrite sort_insert_stable.
  simpl. now rewrite IH.
Qed.

Lemma sort_tasks_perm (sort_by sort_order : string) (tasks sorted : list Task) :
  sort_tasks sort_by sort_order tasks = inr sorted -> sorted ≡ₚ tasks.
Proof.
  unfold sort_tasks.
  destruct (String.eqb sort_by "priority").
  { destruct (forallb _ tasks); [|discriminate].
    intros [= <-]. apply py_sort_perm. }
  destruct (String.eqb sort_by "created_at");
    [intros [= <-]; apply py_sort_perm|].
  destruct (String.eqb sort_by "updated_at");
    [intros [= <-]; apply py_sort_perm|].
  now intros [= <-].
Qed.

Lemma sort_tasks_key (sort_by sort_order : string) (tasks sorted : list Task) :
  sort_tasks sort_by sort_order tasks = inr sorted ->
  match sort_key sort_by with
  | Some key => sorted = py_sort key (String.eqb sort_order "desc") tasks
  | None => sorted = tasks
  end.
Proof.
  unfold sort_tasks, sort_key.
  destruct (String.eqb sort_by "priority").
  { destruct (forallb _ tasks); [|discriminate]. now intros [= <-]. }
  destruct (String.eqb sort_by "created_at"); [now intros [= <-]|].
  destruct (String.eqb sort_by "updated_at"); now intros [= <-].
Qed.

Lemma StronglySorted_window {A} (R : A -> A -> Prop) (l : list A) (n m : nat) :
  StronglySorted R l -> StronglySorted R (firstn n (skipn m l)).
Proof.
  intros Hs.
  assert (Hdrop : StronglySorted R (skipn m l)).
  { revert l Hs. induction m as [|m IH]; intros l Hs; [exact Hs|].
    destruct l as [|x l]; [exact Hs|]. simpl.
    apply IH. now apply StronglySorted_inv in Hs. }
  revert Hdrop. generalize (skipn m l) as l'. clear. intros l'.
  revert n. induction l' as [|x l' IH]; intros n Hs.
  - rewrite firstn_nil. apply SSorted_nil.
  - destruct n as [|n]; [apply SSorted_nil|]. simpl.
    apply StronglySorted_inv in Hs as [Hs Hx].
    apply SSorted_cons; [now apply IH|]. now apply Forall_take.
Qed.

(** The run of [list] behind a page. *)
Lemma list_run (status : option TaskStatus) (priority : option TaskPriority)
    (page page_size : Z) (sort_by sort_order : string) (s : TaskStore)
    (items : list Task) (total : nat) :
  (1 <= page)%Z -> (1 <= page_size)%Z ->
  list_ status priority page page_size sort_by sort_order s =
    inr (items, total) ->
  total = length (List.filter (matches status priority) (map snd (_tasks s))) /\
  exists sorted,
    sort_tasks sort_by sort_order
      (List.filter (matches status priority) (map snd (_tasks s))) = inr sorted /\
    items = firstn (Z.to_nat page_size)
                   (skipn (Z.to_nat ((page - 1) * page_size)) sorted).
Proof.
  intros Hp Hs. unfold list_.
  destruct (sort_tasks sort_by sort_order _) as [e|sorted]; [discriminate|].
  intros [= <- <-]. split; [reflexivity|]. exists sorted.
  split; [reflexivity|].
  rewrite HistoryLife.py_slice_nonneg by nia. do 2 f_equal. lia.
Qed.

(** X28.  A page of [list].  For a page number and a page size of at least
    one, as the route admits them, a call that returns gives: as [total]
    the number of stored tasks that pass the status and priority filters,
    whatever the page; and as items the window of at most [page_size]
    tasks that starts [(page - 1) * page_size] places into the sorted list
    of those tasks, which holds each of them exactly once.  So every item
    passes the filters and is a stored task, and a page that starts at or
    past [total] is empty. *)
Theorem task_list_pages (status : option TaskStatus)
    (priority : option TaskPriority) (page page_size : Z)
    (sort_by sort_order : string) (s : TaskStore)
    (items : list Task) (total : nat) :
  (1 <= page)%Z -> (1 <= page_size)%Z ->
  list_ status priority page page_size sort_by sort_order s =
    inr (items, total) ->
  total = length (List.filter (matches status priority) (map snd (_tasks s))) /\
  length items <= Z.to_nat page_size /\
  (forall t, t ∈ items ->
     matches status priority t = true /\ t ∈ map snd (_tasks s)) /\
  ((Z.of_nat total <= (page - 1) * page_size)%Z -> items = []) /\
  exists sorted,
    sorted ≡ₚ List.filter (matches status priority) (map snd (_tasks s)) /\
    items = firstn (Z.to_nat page_size)
                   (skipn (Z.to_nat ((page - 1) * page_size)) sorted).
Proof.
  intros Hp Hs Hrun.
  destruct (list_run _ _ _ _ _ _ _ _ _ Hp Hs Hrun)
    as (Htotal & sorted & Hsort & Hitems).
  pose proof (sort_tasks_perm _ _ _ _ Hsort) as Hperm.
  split; [exact Htotal|]. split; [|split; [|split]].
  - rewrite Hitems, length_firstn. lia.
  - intros t Ht. rewrite Hitems in Ht.
    assert (Hin : t ∈ List.filter (matches status priority)
                       (map snd (_tasks s))).
    { rewrite <- Hperm. eapply subseteq_drop, subseteq_take, Ht. }
    apply list_elem_of_In, filter_In in Hin as [Hin Hm].
    split; [exact Hm | now apply list_elem_of_In].
  - intros Hpast. rewrite Hitems, skipn_all2; [apply firstn_nil|].
    rewrite (Permutation_length Hperm), <- Htotal. lia.
  - exists sorted. auto.
Qed.

(** X29.  The order of a page.  For [sort_by] one of ["created_at"],
    ["updated_at"] and ["priority"], the tasks that pass the filters are
    sorted by that key (for the priority: high, then medium, then low),
    downwards exactly when [sort_order] is ["desc"], and tasks of equal
    key stay in the order in which the store holds them; every page is
    sorted in the same way.  For any other [sort_by] the tasks come in the
    order of the store. *)
Theorem task_list_order (status : option TaskStatus)
    (priority : option TaskPriority) (page page_size : Z)
    (sort_by sort_order : string) (s : TaskStore)
    (items : list Task) (total : nat) :
  (1 <= page)%Z -> (1 <= page_size)%Z ->
  list_ status priority page page_size sort_by sort_order s =
    inr (items, total) ->
  exists sorted,
    items = firstn (Z.to_nat page_size)
                   (skipn (Z.to_nat ((page - 1) * page_size)) sorted) /\
    match sort_key sort_by with
    | Some key =>
        StronglySorted
          (fun a b => if String.eqb sort_order "desc"
                      then (key b <= key a)%Z else (key a <= key b)%Z)
          sorted /\
        StronglySorted
          (fun a b => if String.eqb sort_order "desc"
                      then (key b <= key a)%Z else (key a <= key b)%Z)
          items /\
        forall k,
          List.filter (fun t => (key t =? k)%Z) sorted =
          List.filter (fun t => (key t =? k)%Z)
            (List.filter (matches status priority) (map snd (_tasks s)))
    | None =>
        sorted = List.filter (matches status priority) (map snd (_tasks s))
    end.
Proof.
  intros Hp Hs Hrun.
  destruct (list_run _ _ _ _ _ _ _ _ _ Hp Hs Hrun)
    as (_ & sorted & Hsort & Hitems).
  exists sorted. split; [exact Hitems|].
  pose proof (sort_tasks_key _ _ _ _ Hsort) as Hkey.
  destruct (sort_key sort_by) as [key|]; [|exact Hkey].
  subst sorted. split; [apply py_sort_sorted|]. split.
  - rewrite Hitems. apply StronglySorted_window, py_sort_sorted.
  - intros k. apply py_sort_stable.
Qed.

(** [list] by priority, by whether every task that passes the filters has
    a priority. *)
Lemma list_by_priority (status : option TaskStatus)
    (priority : option TaskPriority) (page page_size : Z)
    (sort_order : string) (s : TaskStore) :
  (forallb (fun t => is_set (t_priority t))
     (List.filter (matches status priority) (map snd (_tasks s))) = true /\
   exists page_of_tasks,
     list_ status priority page page_size "priority" sort_order s =
       inr page_of_tasks) \/
  (forallb (fun t => is_set (t_priority t))
     (List.filter (matches status priority) (map snd (_tasks s))) = false /\
   list_ status priority page page_size "priority" sort_order s =
     inl (OtherException
            "AttributeError: 'NoneType' object has no attribute 'value'")).
Proof.
  unfold list_, sort_tasks. simpl String.eqb. cbv iota.
  destruct (forallb _ _); [left | right]; eauto.
Qed.

Lemma forallb_false {A} (f : A -> bool) (l : list A) :
  forallb f l = false <-> exists x, x ∈ l /\ f x = false.
Proof.
  induction l as [|y l IH]; simpl.
  - split; [discriminate | intros (x & Hin & _); inversion Hin].
  - rewrite andb_false_iff, IH. split.
    + intros [Hy | (x & Hin & Hx)].
      * exists y. split; [now left | exact Hy].
      * exists x. split; [now right | exact Hx].
    + intros (x & Hin & Hx). apply elem_of_cons in Hin as [->|Hin].
      * now left.
      * right. eauto.
Qed.

Lemma elem_of_filter_matches (status : option TaskStatus)
    (priority : option TaskPriority) (t : Task) (l : list Task) :
  t ∈ List.filter (matches status priority) l <->
  t ∈ l /\ matches status priority t = true.
Proof. rewrite !list_elem_of_In. apply filter_In. Qed.

(** X30.  When the listing by priority fails.  [list] with
    [sort_by = "priority"] raises the [AttributeError] of the key function
    exactly when some stored task that passes the status and priority
    filters has a null priority, and returns a page otherwise, whatever
    the page and the order.  So with a priority filter it always returns,
    since a task without priority passes no priority filter; and after a
    [patch] that sets [priority] to an explicit null on a stored task,
    every such call without a priority filter, and with a status filter
    the patched task passes, raises, while the same call sorted by
    ["created_at"] returns. *)
Theorem null_priority_breaks_priority_order
    (status : option TaskStatus) (priority : option TaskPriority)
    (page page_size : Z) (sort_order : string) (s : TaskStore) :
  (list_ status priority page page_size "priority" sort_order s =
     inl (OtherException
            "AttributeError: 'NoneType' object has no attribute 'value'") <->
   exists t,
     t ∈ map snd (_tasks s) /\ matches status priority t = true /\
     t_priority t = None) /\
  ((forall t, t ∈ map snd (_tasks s) -> matches status priority t = true ->
              is_Some (t_priority t)) ->
   exists page_of_tasks,
     list_ status priority page page_size "priority" sort_order s =
       inr page_of_tasks) /\
  (is_Some priority ->
   exists page_of_tasks,
     list_ status priority page page_size "priority" sort_order s =
       inr page_of_tasks) /\
  (forall now task_id data task,
     get task_id s = Some task ->
     tp_priority data = Some None ->
     match status with
     | Some st => default (t_status task) (tp_status data) = Some st
     | None => True
     end ->
     list_ status None page page_size "priority" sort_order
           (snd (patch now task_id data s)) =
       inl (OtherException
              "AttributeError: 'NoneType' object has no attribute 'value'") /\
     exists page_of_tasks,
       list_ status None page page_size "created_at" sort_order
             (snd (patch now task_id data s)) = inr page_of_tasks).
Proof.
  assert (Hraises : forall priority' s',
    (exists t, t ∈ map snd (_tasks s') /\
               matches status priority' t = true /\ t_priority t = None) ->
    list_ status priority' page page_size "priority" sort_order s' =
      inl (OtherException
             "AttributeError: 'NoneType' object has no attribute 'value'")).
  { intros priority' s' (t & Hin & Hm & Hnone).
    destruct (list_by_priority status priority' page page_size sort_order s')
      as [[Hall _] | [_ Hrun]]; [|exact Hrun].
    rewrite forallb_forall in Hall.
    assert (Ht : In t (List.filter (matches status priority')
                         (map snd (_tasks s')))).
    { apply list_elem_of_In, elem_of_filter_matches. auto. }
    apply Hall in Ht. now rewrite Hnone in Ht. }
  assert (Hreturns :
    (forall t, t ∈ map snd (_tasks s) -> matches status priority t = true ->
               is_Some (t_priority t)) ->
    exists page_of_tasks,
      list_ status priority page page_size "priority" sort_order s =
        inr page_of_tasks).
  { intros Hall.
    destruct (list_by_priority status priority page page_size sort_order s)
      as [[_ Hrun] | [Hsome _]]; [exact Hrun|].
    apply forallb_false in Hsome as (t & Hin & Hnone).
    apply elem_of_filter_matches in Hin as [Hin Hm].
    destruct (Hall t Hin Hm) as [p Hp]. now rewrite Hp in Hnone. }
  split; [|split; [exact Hreturns | split]].
  - split; [|apply Hraises].
    intros Hrun.
    destruct (list_by_priority status priority page page_size sort_order s)
      as [[_ (pg & Hpg)] | [Hsome _]]; [congruence|].
    apply forallb_false in Hsome as (t & Hin & Hnone).
    apply elem_of_filter_matches in Hin as [Hin Hm].
    exists t. split; [exact Hin|]. split; [exact Hm|].
    now destruct (t_priority t).
  - intros [pr ->]. apply Hreturns. intros t _ Hm.
    unfold matches in Hm. apply andb_true_iff in Hm as [_ Hm].
    destruct (t_priority t) as [p|]; [eauto | discriminate].
  - intros now task_id data task Hl Hnull Hstatus. unfold get in Hl. split.
    + apply Hraises.
      exists {| t_id := t_id task;
                t_title := default (t_title task) (tp_title data);
                t_description :=
                  default (t_description task) (tp_description data);
                t_status := default (t_status task) (tp_status data);
                t_priority := None;
                t_created_at := t_created_at task;
                t_updated_at := if patch_is_set data then now
                                else t_updated_at task |}.
      split; [|split; [|reflexivity]].
      * unfold patch. rewrite Hl. simpl. rewrite Hnull. simpl.
        apply list_elem_of_fmap. eexists (task_id, _).
        split; [reflexivity|]. apply dict_get_elem, dict_get_set_eq.
      * unfold matches. simpl. rewrite andb_true_r.
        destruct status as [st|]; [|reflexivity].
        rewrite Hstatus. now destruct st.
    + unfold list_, sort_tasks. simpl String.eqb. cbv iota. eauto.
Qed.

Lemma task_list_pages_witness :
  list_ None None 2 2 "created_at" "desc" sample_store =
    inr ([fst (create "t1" 10 10 (sample_create "write" medium)
                 {| _tasks := [] |})], 3).
Proof.
  destruct (list_ None None 2 2 "created_at" "desc" sample_store)
    as [e|[items total]] eqn:Hrun; [discriminate Hrun|].
  destruct (task_list_pages None None 2 2 "created_at" "desc" sample_store
              items total) as (Htotal & _ & _ & _ & _);
    [lia | lia | exact Hrun |].
  rewrite <- Hrun. reflexivity.
Defined.

Lemma task_list_order_witness :
  match list_ None None 1 2 "created_at" "desc" sample_store with
  | inr (items, _) =>
      StronglySorted (fun a b => (t_created_at b <= t_created_at a)%Z) items
  | inl _ => False
  end.
Proof.
  destruct (list_ None None 1 2 "created_at" "desc" sample_store)
    as [e|[items total]] eqn:Hrun; [vm_compute in Hrun; discriminate Hrun|].
  destruct (task_list_order None None 1 2 "created_at" "desc" sample_store
              items total) as (sorted & _ & Hkey);
    [lia | lia | exact Hrun |].
  simpl in Hkey. destruct Hkey as (_ & Hpage & _). exact Hpage.
Defined.

Lemma null_priority_breaks_priority_order_witness :
  list_ None None 1 20 "priority" "desc"
        (snd (patch 40 "t2"
                {| tp_title := None; tp_description := None;
                   tp_status := None; tp_priority := Some None |}
                sample_store)) =
    inl (OtherException
           "AttributeError: 'NoneType' object has no attribute 'value'") /\
  exists page_of_tasks,
    list_ None (Some high) 1 20 "priority" "desc"
          (snd (patch 40 "t2"
                  {| tp_title := None; tp_description := None;
                     tp_status := None; tp_priority := Some None |}
                  sample_store)) = inr page_of_tasks.
Proof.
  split.
  - destruct (null_priority_breaks_priority_order None None 1 20 "desc"
                sample_store) as (_ & _ & _ & Hpatched).
    eapply (Hpatched 40%Z "t2"
              {| tp_title := None; tp_description := None;
                 tp_status := None; tp_priority := Some None |}
              _ eq_refl eq_refl I).
  - destruct (null_priority_breaks_priority_order None (Some high) 1 20 "desc"
                (snd (patch 40 "t2"
                        {| tp_title := None; tp_description := None;
                           tp_status := None; tp_priority := Some None |}
                        sample_store))) as (_ & _ & Hfiltered & _).
    apply Hfiltered. eauto.
Defined.

End TasksProps.
